(** * LightWave object (LWO2) exporter: a shallow embedding of [io_export_lwo.py]

    The exporter turns a prepared Blender scene (meshes, materials, UV and
    vertex-colour layers) into an IFF container: a [FORM] header followed by
    tagged chunks.  The Python functions are rendered here as Rocq functions:

    - Python [int]s are unbounded, hence [Z]; [struct.pack] checks the range of
      its argument and raises, it never wraps;
    - [str] is a sequence of code points, [bytes] a sequence of bytes;
    - a raised exception is the [Raise] case of [result];
    - Python [float]s are binary64, the kernel's primitive floats;
      [struct.pack(">f", x)] rounds to binary32. *)

From Stdlib Require Import ZArith List Bool Lia String Ascii.
From Stdlib.Strings Require Import Byte.
From Stdlib Require Import Uint63 PrimFloat SpecFloat FloatOps FloatAxioms.
Import ListNotations.
Local Open Scope Z_scope.

Set Implicit Arguments.
Set Warnings "-inexact-float".

(** ** Exceptions and the error monad *)

Inductive exn : Type :=
| AttributeError | TypeError | ValueError | IndexError | KeyError
| StructError | OverflowError | UnicodeEncodeError.

Inductive result (A : Type) : Type :=
| Ok (a : A)
| Raise (e : exn).
Arguments Ok {A} a.
Arguments Raise {A} e.

Definition bind {A B} (r : result A) (k : A -> result B) : result B :=
  match r with
  | Ok a => k a
  | Raise e => Raise e
  end.

Notation "x <- e ;; k" := (bind e (fun x => k))
  (at level 61, e at next level, right associativity).
Notation "' p <- e ;; k" := (bind e (fun x => let p := x in k))
  (at level 61, p pattern, e at next level, right associativity).

(** [for x in l: s = body(x, s)], stopping at the first exception. *)
Fixpoint for_each {A S} (l : list A) (body : A -> S -> result S) (s : S)
  : result S :=
  match l with
  | [] => Ok s
  | x :: rest => s' <- body x s ;; for_each rest body s'
  end.

(** [enumerate(l)] *)
Definition enumerate {A} (l : list A) : list (Z * A) :=
  combine (map Z.of_nat (seq 0 (List.length l))) l.

(** [len(l)] as a Python int *)
Definition len {A} (l : list A) : Z := Z.of_nat (List.length l).

(** [l[i]]: a negative index counts from the end, an index out of range
    raises [IndexError]. *)
Definition getitem {A} (l : list A) (i : Z) : result A :=
  let j := if i <? 0 then len l + i else i in
  if j <? 0 then Raise IndexError
  else match nth_error l (Z.to_nat j) with
       | Some a => Ok a
       | None => Raise IndexError
       end.

(** ** Bytes and [struct.pack] *)

Definition bytes := list byte.

Definition byte_of_Z (z : Z) : byte :=
  match Byte.of_N (Z.to_N (z mod 256)) with
  | Some b => b
  | None => x00
  end.

(** the [n] low-order bytes of [z], most significant first *)
Fixpoint big_endian (n : nat) (z : Z) : bytes :=
  match n with
  | O => []
  | S k => byte_of_Z (Z.shiftr z (8 * Z.of_nat k)) :: big_endian k z
  end.

(** [struct.pack(">H", x)] *)
Definition pack_H (x : Z) : result bytes :=
  if (0 <=? x) && (x <=? 0xFFFF) then Ok (big_endian 2 x) else Raise StructError.

(** [struct.pack(">h", x)] *)
Definition pack_h (x : Z) : result bytes :=
  if (-0x8000 <=? x) && (x <=? 0x7FFF) then Ok (big_endian 2 x)
  else Raise StructError.

(** [struct.pack(">L", x)] *)
Definition pack_L (x : Z) : result bytes :=
  if (0 <=? x) && (x <=? 0xFFFFFFFF) then Ok (big_endian 4 x)
  else Raise StructError.

(** *** binary32 *)

(** [(float)x] of C: the binary64 value rounded to binary32, to nearest even *)
Definition to_binary32 (x : float) : spec_float :=
  match Prim2SF x with
  | S754_finite s m e => binary_normalize 24 128 (cond_Zopp s (Zpos m)) e s
  | v => v
  end.

Definition sign_bit (s : bool) : Z := if s then 0x80000000 else 0.

(** the 32 bits of a binary32 value; a NaN is the quiet NaN [0x7FC00000] *)
Definition binary32_bits (v : spec_float) : Z :=
  match v with
  | S754_zero s => sign_bit s
  | S754_infinity s => sign_bit s + 0x7F800000
  | S754_nan => 0x7FC00000
  | S754_finite s m e =>
      sign_bit s +
      (if Zpos m <? 0x800000 then Zpos m
       else (e + 150) * 0x800000 + (Zpos m - 0x800000))
  end.

(** the four bytes of [x] as a binary32 value *)
Definition f32_bytes (x : float) : bytes :=
  big_endian 4 (binary32_bits (to_binary32 x)).

(** a finite double whose binary32 value is an infinity *)
Definition f32_overflow (x : float) : bool :=
  match Prim2SF x, to_binary32 x with
  | S754_finite _ _ _, S754_infinity _ => true
  | _, _ => false
  end.

(** [struct.pack(">f", x)]: a finite double beyond the binary32 range raises
    [OverflowError] ("float too large to pack with f format"). *)
Definition pack_f (x : float) : result bytes :=
  if f32_overflow x then Raise OverflowError else Ok (f32_bytes x).

(** [struct.pack(">ff...", x1, x2, ...)] *)
Fixpoint pack_floats (xs : list float) : result bytes :=
  match xs with
  | [] => Ok []
  | x :: rest => b <- pack_f x ;; bs <- pack_floats rest ;; Ok (b ++ bs)
  end.

(** ** Strings *)

(** a [str] is its sequence of code points *)
Definition str := list Z.

(** an ASCII literal as a [str] *)
Definition py (s : string) : str :=
  map (fun a => Z.of_N (N_of_ascii a)) (list_ascii_of_string s).

(** an ASCII literal as [bytes], a [b"..."] literal *)
Definition lit (s : string) : bytes := list_byte_of_string s.

Definition str_eqb (a b : str) : bool :=
  if list_eq_dec Z.eq_dec a b then true else false.

(** the UTF-8 encoding of one code point; a surrogate cannot be encoded *)
Definition utf8_char (c : Z) : result bytes :=
  if c <? 0x80 then Ok [byte_of_Z c]
  else if c <? 0x800 then
    Ok [byte_of_Z (Z.lor 0xC0 (Z.shiftr c 6));
        byte_of_Z (Z.lor 0x80 (Z.land c 0x3F))]
  else if (0xD800 <=? c) && (c <=? 0xDFFF) then Raise UnicodeEncodeError
  else if c <? 0x10000 then
    Ok [byte_of_Z (Z.lor 0xE0 (Z.shiftr c 12));
        byte_of_Z (Z.lor 0x80 (Z.land (Z.shiftr c 6) 0x3F));
        byte_of_Z (Z.lor 0x80 (Z.land c 0x3F))]
  else
    Ok [byte_of_Z (Z.lor 0xF0 (Z.shiftr c 18));
        byte_of_Z (Z.lor 0x80 (Z.land (Z.shiftr c 12) 0x3F));
        byte_of_Z (Z.lor 0x80 (Z.land (Z.shiftr c 6) 0x3F));
        byte_of_Z (Z.lor 0x80 (Z.land c 0x3F))].

(** [bytes(s, 'UTF-8')] *)
Fixpoint utf8 (s : str) : result bytes :=
  match s with
  | [] => Ok []
  | c :: rest => b <- utf8_char c ;; bs <- utf8 rest ;; Ok (b ++ bs)
  end.

(** [s.replace(old, new)] for single characters *)
Definition replace (old new : Z) (s : str) : str :=
  map (fun c => if c =? old then new else c) s.

(** ** LWO export helper functions *)

(** [generate_nstring(string)]:
    "Generate a null terminated string with an even number of bytes" *)
Definition generate_nstring (s : str) : str :=
  if len s mod 2 =? 0 then s ++ [0; 0]
  else s ++ [0].

(** [generate_vx(index)]: the index packed as 16 or as 32 bits *)
Definition generate_vx (index : Z) : result bytes :=
  if index <? 0xFF00 then pack_H index
  else pack_L (Z.lor index 0xFF000000).

(** a chunk payload is [bytes], except where the source hands over a [str] *)
Inductive payload : Type :=
| Bytes (b : bytes)
| Str (s : str).

(** [len(data)] *)
Definition payload_len (data : payload) : Z :=
  match data with
  | Bytes b => len b
  | Str s => len s
  end.

(** [dest_file.write(data)] on a binary stream: a [str] is refused *)
Definition stream_write (dest_file : bytes) (data : payload) : result bytes :=
  match data with
  | Bytes b => Ok (dest_file ++ b)
  | Str _ => Raise TypeError
  end.

(** [write_chunk(dest_file, name, data)]:
    "Write a named LWO chunk to the given file-like object" *)
Definition write_chunk (dest_file : bytes) (name : str) (data : payload)
  : result bytes :=
  tag <- utf8 name ;;
  size <- pack_L (payload_len data) ;;
  stream_write (dest_file ++ tag ++ size) data.

(** [sum([...])] *)
Definition sum (l : list Z) : Z := fold_left Z.add l 0.

(** [write_header(dest_file, chunks)]:
    "Write an LWO header including the size of contained chunks" *)
Definition write_header (dest_file : bytes) (chunks : list payload)
  : result bytes :=
  let total_chunk_size := sum (map payload_len chunks) in
  let form_size := total_chunk_size + len chunks * 8 + len (py "FORM") in
  size <- pack_L form_size ;;
  Ok (dest_file ++ lit "FORM" ++ size ++ lit "LWO2").

(** ** The scene as the host hands it over *)

Definition vec2 : Type := float * float.
Definition vec3 : Type := float * float * float.
Definition rgba : Type := float * float * float * float.

Module MeshPolygon.
Record t : Type := {
  index : Z;
  vertices : list Z;
  loop_start : Z;
  loop_total : Z;
  material_index : Z }.
(** [range(loop_start, loop_start + loop_total)] *)
Definition loop_indices (p : t) : list Z :=
  map (fun k => loop_start p + Z.of_nat k) (seq 0 (Z.to_nat (loop_total p))).
End MeshPolygon.

(** the shading properties read by [generate_mesh_surface] *)
Module Shading.
Record t : Type := {
  diffuse_color : vec3;
  diffuse_intensity : float;
  emit : float;
  specular_intensity : float;
  specular_hardness : Z }.
End Shading.

Module Material.
(** [shading] is [None] on a host whose materials lack one of the
    properties the exporter reads: the read raises [AttributeError]. *)
Record t : Type := {
  name : str;
  shading : option Shading.t;
  vcmenu : str }.
End Material.

Module MeshLoopColorLayer.
Record t : Type := { name : str; data : list rgba }.
End MeshLoopColorLayer.

Module MeshUVLoopLayer.
Record t : Type := { name : str; data : list vec2 }.
End MeshUVLoopLayer.

Module Mesh.
(** [id] is the identity of the datablock: [m == mesh] compares it.
    A material slot may be empty ([None]). *)
Record t : Type := {
  id : Z;
  vertices : list vec3;
  polygons : list MeshPolygon.t;
  materials : list (option Material.t);
  vertex_colors : list MeshLoopColorLayer.t;
  uv_layers : list MeshUVLoopLayer.t;
  use_auto_smooth : bool;
  auto_smooth_angle : float }.
Definition eqb (a b : t) : bool := id a =? id b.
End Mesh.

(** an edge of the [bmesh] built from a mesh: its two vertex indices and
    the indices of the faces that use it *)
Module BMEdge.
Record t : Type := { verts : Z * Z; link_faces : list Z }.
End BMEdge.

Module Object.
Record t : Type := { name : str; location : vec3 }.
End Object.

(** [bpy.data] *)
Module BlendData.
Record t : Type := {
  materials : list Material.t;
  objects : list Object.t }.
End BlendData.

(** a truthy collection is a non-empty one *)
Definition truthy {A} (l : list A) : bool :=
  match l with [] => false | _ :: _ => true end.

(** [l.index(x)]: the first position of [x], [ValueError] when absent *)
Fixpoint list_index {A} (eqb : A -> A -> bool) (l : list A) (x : A)
  : result Z :=
  match l with
  | [] => Raise ValueError
  | y :: rest =>
      if eqb y x then Ok 0 else i <- list_index eqb rest x ;; Ok (i + 1)
  end.

(** [min(l)] and [max(l)]: the first element is kept until a later one
    compares strictly below (above) it; an empty argument raises. *)
Definition py_min (l : list float) : result float :=
  match l with
  | [] => Raise ValueError
  | x :: rest =>
      Ok (fold_left (fun m item => if PrimFloat.ltb item m then item else m) rest x)
  end.

Definition py_max (l : list float) : result float :=
  match l with
  | [] => Raise ValueError
  | x :: rest =>
      Ok (fold_left (fun m item => if PrimFloat.ltb m item then item else m) rest x)
  end.

(** a Python int as a float (exact below 2^53) *)
Definition float_of_Z (z : Z) : float :=
  if z <? 0 then PrimFloat.opp (of_uint63 (Uint63.of_Z (- z)))
  else of_uint63 (Uint63.of_Z z).

(** [round(x, 1)]: the double nearest to [k/10], where [k] is [10 x]
    rounded to an integer, ties to even; an integral [x] is returned as it
    is.  Exact while [10 x] stays below 2^53. *)
Definition py_round1 (x : float) : float :=
  match Prim2SF x with
  | S754_finite s m e =>
      if 0 <=? e then x
      else
        let n := 10 * Zpos m in
        let d := 2 ^ (- e) in
        let q := n / d in
        let r := n mod d in
        let k := if 2 * r <? d then q
                 else if d <? 2 * r then q + 1
                 else if Z.even q then q else q + 1 in
        let y := PrimFloat.div (float_of_Z k) (float_of_Z 10) in
        if s then PrimFloat.opp y else y
  | _ => x
  end.

(** [s.endswith(suffix)] *)
Definition endswith (s suffix : str) : bool :=
  (List.length suffix <=? List.length s)%nat &&
  str_eqb (skipn (List.length s - List.length suffix) s) suffix.

(** a [dict] keyed by integers (here: mesh identities); a later
    assignment to a key shadows the earlier one *)
Definition dict (V : Type) : Type := list (Z * V).

Definition dict_set {V} (d : dict V) (k : Z) (v : V) : dict V := (k, v) :: d.

Fixpoint dict_get {V} (d : dict V) (k : Z) : result V :=
  match d with
  | [] => Raise KeyError
  | (k', v) :: rest => if k' =? k then Ok v else dict_get rest k
  end.

(** a call of a function that has exactly one positional parameter, with
    the list of arguments the call site passes *)
Definition call1 {A B} (f : A -> result B) (args : list A) : result B :=
  match args with
  | [a] => f a
  | _ => Raise TypeError
  end.

(** ** Surfaces *)

Definition DEFAULT_NAME : str := py "Blender Default".

(** the values the [try] block of [generate_mesh_surface] leaves behind *)
Record surface_params : Type := {
  sp_material : option Material.t;
  sp_color : vec3;
  sp_diff : float;
  sp_lumi : float;
  sp_spec : float;
  sp_gloss : float;
  sp_sman : float }.

(** the [except:] branch *)
Definition fallback_params : surface_params :=
  {| sp_material := None;
     sp_color := (1.0, 1.0, 1.0)%float;
     sp_diff := 1.0%float;
     sp_lumi := 0.0%float;
     sp_spec := 0.2%float;
     sp_gloss := 0.0%float;
     sp_sman := 0.0%float |}.

(** the exporter object: the properties the user sets that the export
    reads (those that only steer the preparation of the objects by the host
    are left out), and the attributes [write] assigns on [self] *)
Record LwoExport : Type := {
  filepath : str;
  option_smooth : str;
  option_subd : bool;
  option_batch : bool;
  option_scale : float;
  meshes : list Mesh.t;
  clips : list bytes }.

(** [self.meshes = ms] *)
Definition set_meshes (self : LwoExport) (ms : list Mesh.t) : LwoExport :=
  {| filepath := filepath self;
     option_smooth := option_smooth self;
     option_subd := option_subd self;
     option_batch := option_batch self;
     option_scale := option_scale self;
     meshes := ms;
     clips := clips self |}.

(** [self.clips = cs] *)
Definition set_clips (self : LwoExport) (cs : list bytes) : LwoExport :=
  {| filepath := filepath self;
     option_smooth := option_smooth self;
     option_subd := option_subd self;
     option_batch := option_batch self;
     option_scale := option_scale self;
     meshes := meshes self;
     clips := cs |}.

(** the attributes of the exporter that hold a string: the constants and
    string properties of the class body, and the one [execute] assigns *)
Definition LwoExport_names (self : LwoExport) : list (string * str) :=
  [ ("bl_idname", py "export.lwo");
    ("bl_label", py "LwoExport");
    ("bl_description", py "Export Lightwave .lwo file");
    ("filename_ext", py ".lwo");
    ("filter_glob", py "*.lwo");
    ("filepath", filepath self);
    ("option_smooth", option_smooth self);
    ("VCOL_NAME", py "Per-Face Vertex Colors") ]%string.

(** [self.<attr>] where a name is expected: an attribute that was never
    assigned raises *)
Definition getattr_name (self : LwoExport) (attr : string) : result str :=
  match find (fun kv => String.eqb (fst kv) attr) (LwoExport_names self) with
  | Some kv => Ok (snd kv)
  | None => Raise AttributeError
  end.

(** [generate_default_surf(self)]: "Generate a default mesh surface block" *)
Definition generate_default_surf (self : LwoExport) : result bytes :=
  let material_name := DEFAULT_NAME in
  nm <- utf8 (generate_nstring material_name) ;;
  colr_len <- pack_H 14 ;;
  colr <- pack_floats [0.9; 0.9; 0.9]%float ;;
  colr_r <- pack_H 0 ;;
  diff_len <- pack_H 6 ;;
  diff <- pack_f 0.8%float ;;
  diff_r <- pack_H 0 ;;
  lumi_len <- pack_H 6 ;;
  lumi <- pack_f (float_of_Z 0) ;;
  lumi_r <- pack_H 0 ;;
  spec_len <- pack_H 6 ;;
  spec <- pack_f 0.4%float ;;
  spec_r <- pack_H 0 ;;
  glos_len <- pack_H 6 ;;
  let gloss := PrimFloat.div (float_of_Z 50) (PrimFloat.div (float_of_Z 255) 2.0%float) in
  let gloss := py_round1 gloss in
  glos <- pack_f gloss ;;
  glos_r <- pack_H 0 ;;
  Ok (nm
      ++ lit "COLR" ++ colr_len ++ colr ++ colr_r
      ++ lit "DIFF" ++ diff_len ++ diff ++ diff_r
      ++ lit "LUMI" ++ lumi_len ++ lumi ++ lumi_r
      ++ lit "SPEC" ++ spec_len ++ spec ++ spec_r
      ++ lit "GLOS" ++ glos_len ++ glos ++ glos_r).

(** ** The exporter

    What the exporter takes from its host is a parameter of the model:
    [bpy.data], the equality of two UV vectors ([mathutils.Vector.__eq__]),
    the edges of the [bmesh] built from a mesh, and the path functions of
    [os] and [str.lower]. *)

Section Exporter.

Variable bpy_data : BlendData.t.
Variable vector_eq : vec2 -> vec2 -> bool.
Variable bm_edges : Mesh.t -> list BMEdge.t.
Variable os_path_dirname : str -> str.
Variable os_sep : str.
Variable lower : str -> str.

(** [bpy.data.materials.get(name)] *)
Definition materials_get (name : str) : option Material.t :=
  find (fun m => str_eqb (Material.name m) name) (BlendData.materials bpy_data).

(** [bpy.data.objects.get(name)] *)
Definition objects_get (name : str) : option Object.t :=
  find (fun o => str_eqb (Object.name o) name) (BlendData.objects bpy_data).

(** the [try] block of [generate_mesh_surface]: any exception in it (no
    such material, a missing property, [math.sqrt] of a negative number)
    leads to the [except:] branch *)
Definition read_material (mesh : Mesh.t) (material_name : str) : surface_params :=
  match materials_get material_name with
  | None => fallback_params
  | Some material =>
      match Material.shading material with
      | None => fallback_params
      | Some sh =>
          let h := Shading.specular_hardness sh - 4 in
          if h <? 0 then fallback_params
          else
            {| sp_material := Some material;
               sp_color := Shading.diffuse_color sh;
               sp_diff := Shading.diffuse_intensity sh;
               sp_lumi := Shading.emit sh;
               sp_spec := Shading.specular_intensity sh;
               sp_gloss := PrimFloat.sqrt (PrimFloat.div (float_of_Z h) (float_of_Z 400));
               sp_sman := if Mesh.use_auto_smooth mesh
                          then Mesh.auto_smooth_angle mesh else 0.0%float |}
      end
  end.

(** [generate_mesh_surface(mesh, material_name)]:
    "Generate and return mesh surface block" *)
Definition generate_mesh_surface (mesh : Mesh.t) (material_name : str)
  : result bytes :=
  nm <- utf8 (generate_nstring material_name) ;;
  let p := read_material mesh material_name in
  let '(R, G, B) := sp_color p in
  colr0_len <- pack_H 0 ;;
  colr_len <- pack_H 14 ;;
  colr <- pack_floats [R; G; B] ;;
  colr_r <- pack_H 0 ;;
  diff_len <- pack_H 6 ;;
  diff <- pack_f (sp_diff p) ;;
  diff_r <- pack_H 0 ;;
  lumi_len <- pack_H 6 ;;
  lumi <- pack_f (sp_lumi p) ;;
  lumi_r <- pack_H 0 ;;
  spec_len <- pack_H 6 ;;
  spec <- pack_f (sp_spec p) ;;
  spec_r <- pack_H 0 ;;
  glos_len <- pack_H 6 ;;
  glos <- pack_f (sp_gloss p) ;;
  glos_r <- pack_H 0 ;;
  vcol <- match sp_material p with
          | None => Ok []
          | Some material =>
              let vcname := Material.vcmenu material in
              if str_eqb vcname (py "<none>") then Ok []
              else
                intensity <- pack_f 1.0%float ;;
                envelope <- pack_H 0 ;;
                vn <- utf8 (generate_nstring vcname) ;;
                let data_tmp := intensity ++ envelope ++ lit "RGBA" ++ vn in
                vlen <- pack_H (len data_tmp) ;;
                Ok (lit "VCOL" ++ vlen ++ data_tmp)
          end ;;
  sman_len <- pack_H 4 ;;
  sman <- pack_f (sp_sman p) ;;
  Ok (nm
      ++ lit "COLR" ++ colr0_len
      ++ lit "COLR" ++ colr_len ++ colr ++ colr_r
      ++ lit "DIFF" ++ diff_len ++ diff ++ diff_r
      ++ lit "LUMI" ++ lumi_len ++ lumi ++ lumi_r
      ++ lit "SPEC" ++ spec_len ++ spec ++ spec_r
      ++ lit "GLOS" ++ glos_len ++ glos ++ glos_r
      ++ vcol
      ++ lit "SMAN" ++ sman_len ++ sman).

(** [generate_vertex_colors(mesh)]: "Generate and return vertex color block" *)
Definition generate_vertex_colors (mesh : Mesh.t) : result (list bytes) :=
  for_each (Mesh.vertex_colors mesh) (fun layer alldata =>
    dim <- pack_H 4 ;;
    nm <- utf8 (generate_nstring (MeshLoopColorLayer.name layer)) ;;
    let data := lit "RGBA" ++ dim ++ nm in
    '(data, found) <-
      for_each (enumerate (Mesh.polygons mesh)) (fun '(face_idx, face) st =>
        for_each (combine (MeshPolygon.vertices face) (MeshPolygon.loop_indices face))
          (fun '(vert_idx, loop) '(data, found) =>
             '(r, g, b, a) <- getitem (MeshLoopColorLayer.data layer) loop ;;
             vx1 <- generate_vx vert_idx ;;
             vx2 <- generate_vx face_idx ;;
             col <- pack_floats [r; g; b; a] ;;
             Ok (data ++ vx1 ++ vx2 ++ col, true))
          st)
        (data, false) ;;
    Ok (if found : bool then alldata ++ [data] else alldata))
  [].

(** *** Get Used Material Names *)
Definition get_used_material_names (self : LwoExport)
  : result (list Mesh.t * list str) :=
  '(matnames, matmeshes) <-
    for_each (meshes self) (fun mesh '(matnames, matmeshes) =>
      if truthy (Mesh.materials mesh) then
        for_each (Mesh.materials mesh) (fun material '(matnames, matmeshes) =>
          match material with
          | Some material =>
              Ok (matnames ++ [Material.name material], matmeshes ++ [mesh])
          | None => Ok (matnames, matmeshes)
          end) (matnames, matmeshes)
      else if truthy (Mesh.vertex_colors mesh) then
        nm <- getattr_name self "LWO_VCOLOR_MATERIAL" ;;
        Ok (matnames ++ [nm], matmeshes ++ [mesh])
      else
        nm <- getattr_name self "LWO_DEFAULT_MATERIAL" ;;
        Ok (matnames ++ [nm], matmeshes ++ [mesh]))
    ([], []) ;;
  Ok (matmeshes, matnames).

(** *** Generate Tag Strings (TAGS Chunk) *)
Definition generate_tags (material_names : list str) : result payload :=
  if truthy material_names then
    data <- for_each material_names (fun mat data =>
              b <- utf8 (generate_nstring mat) ;; Ok (data ++ b)) [] ;;
    Ok (Bytes data)
  else Ok (Str (generate_nstring (py ""))).

(** *** Generate Surface *)
Definition generate_surface (self : LwoExport) (mesh : Mesh.t) (name : str)
  : result bytes :=
  if str_eqb name DEFAULT_NAME then call1 generate_default_surf []
  else generate_mesh_surface mesh name.

(** *** Generate Layer (LAYR Chunk) *)
Definition generate_layr (name : str) (idx : Z) : result bytes :=
  match objects_get name with
  | None => Raise AttributeError
  | Some o =>
      let '(px, py_, pz) := Object.location o in
      layer <- pack_h idx ;;
      flags <- pack_h 0 ;;
      pivot <- pack_floats [px; pz; py_] ;;
      nm <- utf8 (generate_nstring (replace 46 95 (replace 32 95 name))) ;;
      Ok (layer ++ flags ++ pivot ++ nm)
  end.

(** *** Generate Verts (PNTS Chunk) *)
Definition generate_pnts (self : LwoExport) (mesh : Mesh.t) : result bytes :=
  for_each (Mesh.vertices mesh) (fun '(x, y, z) data =>
    let x := PrimFloat.mul x (option_scale self) in
    let y := PrimFloat.mul y (option_scale self) in
    let z := PrimFloat.mul z (option_scale self) in
    b <- pack_floats [x; z; y] ;;
    Ok (data ++ b)) [].

(** *** Generate Bounding Box (BBOX Chunk) *)
Definition bbox_axes (self : LwoExport) (mesh : Mesh.t)
  : list float * list float * list float :=
  if truthy (Mesh.vertices mesh) then
    let nv := Mesh.vertices mesh in
    (map (fun co => PrimFloat.mul (fst (fst co)) (option_scale self)) nv,
     map (fun co => PrimFloat.mul (snd (fst co)) (option_scale self)) nv,
     map (fun co => PrimFloat.mul (snd co) (option_scale self)) nv)
  else ([0.0%float], [0.0%float], [0.0%float]).

Definition generate_bbox (self : LwoExport) (mesh : Mesh.t) : result bytes :=
  let '(xx, yy, zz) := bbox_axes self mesh in
  x0 <- py_min xx ;;
  z0 <- py_min zz ;;
  y0 <- py_min yy ;;
  x1 <- py_max xx ;;
  z1 <- py_max zz ;;
  y1 <- py_max yy ;;
  pack_floats [x0; z0; y0; x1; z1; y1].

(** *** Generate Per-Face UV Coords (VMAD Chunk) *)

(** one corner of polygon [i] of layer [l]: written unless its UV equals
    that of both neighbours in the doubled list of loop indices *)
Definition vmad_uv_corner (l : MeshUVLoopLayer.t) (i : Z) (p : MeshPolygon.t)
    (v loop : Z) (st : bytes * bool) : result (bytes * bool) :=
  let '(data, found) := st in
  let searchl := MeshPolygon.loop_indices p ++ MeshPolygon.loop_indices p in
  pos <- list_index Z.eqb searchl loop ;;
  prevl <- getitem searchl (pos - 1) ;;
  nextl <- getitem searchl (pos + 1) ;;
  youv <- getitem (MeshUVLoopLayer.data l) loop ;;
  prevuv <- getitem (MeshUVLoopLayer.data l) prevl ;;
  skip <- (if vector_eq prevuv youv then
             nextuv <- getitem (MeshUVLoopLayer.data l) nextl ;;
             Ok (vector_eq youv nextuv)
           else Ok false) ;;
  if skip : bool then Ok (data, found)
  else
    vx1 <- generate_vx v ;;
    vx2 <- generate_vx i ;;
    uv <- pack_floats [fst youv; snd youv] ;;
    Ok (data ++ vx1 ++ vx2 ++ uv, true).

Definition generate_vmad_uv (mesh : Mesh.t) : result (list bytes) :=
  let layers := Mesh.uv_layers mesh in
  for_each layers (fun l alldata =>
    let uvname := generate_nstring (MeshUVLoopLayer.name l) in
    dim <- pack_H 2 ;;
    nm <- utf8 uvname ;;
    let data := lit "TXUV" ++ dim ++ nm in
    '(data, found) <-
      for_each (enumerate (Mesh.polygons mesh)) (fun '(i, p) st =>
        for_each (combine (MeshPolygon.vertices p) (MeshPolygon.loop_indices p))
          (fun '(v, loop) st => vmad_uv_corner l i p v loop st) st)
        (data, false) ;;
    Ok (if found : bool then alldata ++ [data] else alldata))
  [].

(** *** Generate Faces (POLS Chunk) *)
Definition generate_pols (mesh : Mesh.t) (subd : bool) : result bytes :=
  let data := if subd then lit "SUBD" else lit "FACE" in
  data <- for_each (enumerate (Mesh.polygons mesh)) (fun '(i, p) data =>
    n <- pack_H (len (MeshPolygon.vertices p)) ;;
    let numfaceverts := len (MeshPolygon.vertices p) in
    let p_vi := MeshPolygon.vertices p in
    for_each (rev (map Z.of_nat (seq 0 (Z.to_nat numfaceverts)))) (fun j data =>
      vj <- getitem p_vi j ;;
      b <- generate_vx vj ;;
      Ok (data ++ b)) (data ++ n)) data ;;
  for_each (bm_edges mesh) (fun e data =>
    if len (BMEdge.link_faces e) =? 0 then
      two <- pack_H 2 ;;
      v0 <- generate_vx (fst (BMEdge.verts e)) ;;
      v1 <- generate_vx (snd (BMEdge.verts e)) ;;
      Ok (data ++ two ++ v0 ++ v1)
    else Ok data) data.

(** *** Generate Polygon Tag Mapping (PTAG Chunk) *)
Definition generate_ptag (mesh : Mesh.t) (material_names : list str)
  : result bytes :=
  for_each (Mesh.polygons mesh) (fun poly data =>
    if truthy (Mesh.materials mesh) then
      let matindex := MeshPolygon.material_index poly in
      slot <- getitem (Mesh.materials mesh) matindex ;;
      matname <- match slot with
                 | Some material => Ok (Material.name material)
                 | None => Raise AttributeError
                 end ;;
      surfindex <- list_index str_eqb material_names matname ;;
      vx <- generate_vx (MeshPolygon.index poly) ;;
      si <- pack_H surfindex ;;
      Ok (data ++ vx ++ si)
    else
      vx <- generate_vx (MeshPolygon.index poly) ;;
      si <- pack_H 0 ;;
      Ok (data ++ vx ++ si)) (lit "SURF").

(** *** Write LightWave Format *)

(** a duplicated object, ready for export: the name of the object it was
    duplicated from ([object_name_lookup_orig]) and its mesh *)
Record ExportObject : Type := {
  orig_name : str;
  data : Mesh.t }.

(** the variables of the per-file pass *)
Record pass : Type := {
  surfs : list bytes;
  chunks : list payload;
  meshdata : bytes;
  layer_index : Z }.

(** [write_chunk(meshdata, name, data); chunks.append(data)] *)
Definition emit (name : string) (data : bytes) (st : pass) : result pass :=
  md <- write_chunk (meshdata st) (py name) (Bytes data) ;;
  Ok {| surfs := surfs st;
        chunks := chunks st ++ [Bytes data];
        meshdata := md;
        layer_index := layer_index st |}.

(** the body of [for i, mesh in enumerate(self.meshes)] *)
Definition write_mesh (self : LwoExport) (mesh_object_name_lookup : dict str)
    (matmeshes : list Mesh.t) (material_names : list str)
    (mesh : Mesh.t) (st : pass) : result pass :=
  surfs' <- for_each (enumerate matmeshes) (fun '(j, m) surfs =>
              if Mesh.eqb m mesh then
                nm <- getitem material_names j ;;
                surf <- generate_surface self m nm ;;
                Ok (surfs ++ [surf])
              else Ok surfs) (surfs st) ;;
  name <- dict_get mesh_object_name_lookup (Mesh.id mesh) ;;
  layr <- generate_layr name (layer_index st) ;;
  pnts <- generate_pnts self mesh ;;
  bbox <- generate_bbox self mesh ;;
  pols <- generate_pols mesh (option_subd self) ;;
  ptag <- generate_ptag mesh material_names ;;
  vmad_uvs <- (if truthy (Mesh.uv_layers mesh) then generate_vmad_uv mesh
               else Ok []) ;;
  let st := {| surfs := surfs'; chunks := chunks st;
               meshdata := meshdata st; layer_index := layer_index st |} in
  st <- emit "LAYR" layr st ;;
  st <- emit "PNTS" pnts st ;;
  st <- emit "BBOX" bbox st ;;
  st <- (if truthy (Mesh.vertex_colors mesh) then
           vcs <- generate_vertex_colors mesh ;;
           for_each vcs (emit "VMAD") st
         else Ok st) ;;
  st <- emit "POLS" pols st ;;
  st <- emit "PTAG" ptag st ;;
  st <- (if truthy (Mesh.uv_layers mesh) then for_each vmad_uvs (emit "VMAD") st
         else Ok st) ;;
  Ok {| surfs := surfs st; chunks := chunks st;
        meshdata := meshdata st; layer_index := layer_index st + 1 |}.

(** the [with open(filename, "wb") as outfile] block *)
Definition write_file (self : LwoExport) (tags : payload) (st : pass)
  : result bytes :=
  outfile <- write_header [] (chunks st) ;;
  outfile <- write_chunk outfile (py "TAGS") tags ;;
  let outfile := outfile ++ meshdata st in
  outfile <- for_each (clips self) (fun clip outfile =>
               write_chunk outfile (py "CLIP") (Bytes clip)) outfile ;;
  for_each (surfs st) (fun surf outfile =>
    write_chunk outfile (py "SURF") (Bytes surf)) outfile.

(** "Prepare the output file": the name of the file *)
Definition output_filename (self : LwoExport) (filename : str) (obj : ExportObject)
  : str :=
  let filename :=
    if option_batch self then
      let filename := os_path_dirname filename in
      filename ++ (os_sep ++ replace 46 95 (orig_name obj))
    else filename in
  if negb (endswith (lower filename) (py ".lwo")) then filename ++ py ".lwo"
  else filename.

(** the chunks of one file: everything from [get_used_material_names] to
    the two loops that complete [chunks] *)
Definition generate_chunks (self : LwoExport) (mesh_object_name_lookup : dict str)
  : result (LwoExport * payload * pass) :=
  '(matmeshes, material_names) <- get_used_material_names self ;;
  let self := set_clips self [] in
  tags <- generate_tags material_names ;;
  let st := {| surfs := []; chunks := [tags]; meshdata := []; layer_index := 0 |} in
  st <- for_each (meshes self)
          (write_mesh self mesh_object_name_lookup matmeshes material_names) st ;;
  let chunks := chunks st ++ map Bytes (clips self) in
  let chunks := chunks ++ map Bytes (surfs st) in
  Ok (self, tags,
      {| surfs := surfs st; chunks := chunks;
         meshdata := meshdata st; layer_index := layer_index st |}).

(** one turn of [for obj in objdups], up to the [break]: the exporter,
    the file name and the file written *)
Definition write_object (self : LwoExport) (mesh_object_name_lookup : dict str)
    (filename : str) (obj : ExportObject)
  : result (LwoExport * str * bytes) :=
  let self := if option_batch self then set_meshes self [data obj] else self in
  '(self, tags, st) <- generate_chunks self mesh_object_name_lookup ;;
  let filename := output_filename self filename obj in
  outfile <- write_file self tags st ;;
  Ok (self, filename, outfile).

Fixpoint write_objects (self : LwoExport) (mesh_object_name_lookup : dict str)
    (filename : str) (objdups : list ExportObject)
  : result (list (str * bytes)) :=
  match objdups with
  | [] => Ok []
  | obj :: rest =>
      '(self, filename, outfile) <-
        write_object self mesh_object_name_lookup filename obj ;;
      if negb (option_batch self) then Ok [(filename, outfile)]
      else
        files <- write_objects self mesh_object_name_lookup filename rest ;;
        Ok ((filename, outfile) :: files)
  end.

(** [write(self, filename)], from the duplicated and prepared objects on:
    the files it writes, in order.  An exception ends the export; the
    files written before it are not part of the result. *)
Definition write (self : LwoExport) (filename : str) (objdups : list ExportObject)
  : result (list (str * bytes)) :=
  let mesh_object_name_lookup :=
    fold_left (fun d obj => dict_set d (Mesh.id (data obj)) (orig_name obj))
      objdups [] in
  let self :=
    set_meshes self (if option_batch self then [] else map data objdups) in
  write_objects self mesh_object_name_lookup filename objdups.

(** [execute(self, context)], when the modules [struct], [io] and
    [operator] were imported *)
Definition execute (self : LwoExport) (objdups : list ExportObject)
  : result (list (str * bytes)) :=
  write self (filepath self) objdups.

End Exporter.

(** ** A reader's view of the output *)

(** [int.from_bytes(b, 'big')] *)
Definition Z_of_byte (b : byte) : Z := Z.of_N (Byte.to_N b).

Definition be_value (b : bytes) : Z :=
  fold_left (fun acc x => acc * 256 + Z_of_byte x) b 0.

(** the bytes [generate_vx] produces for an index it accepts *)
Definition vx_bytes (i : Z) : bytes :=
  if i <? 0xFF00 then big_endian 2 i else big_endian 4 (Z.lor i 0xFF000000).

(** a chunk on file: its four-letter tag, the length of its payload as an
    unsigned 32-bit big-endian number, and the payload *)
Definition chunk_bytes (c : string * bytes) : bytes :=
  lit (fst c) ++ big_endian 4 (len (snd c)) ++ snd c.

(** the size the header announces, in the words of the specification:
    [sum(len(c) for c in chunks) + 8*len(chunks) + 4] *)
Definition form_size (chunks : list payload) : Z :=
  sum (map payload_len chunks) + 8 * len chunks + 4.

Abbreviation chunk := (string * bytes)%type (only parsing).

(** a chunk a reader can walk over: a four-letter tag and a payload whose
    length fits the 32-bit length field *)
Definition chunk_ok (c : chunk) : Prop :=
  List.length (lit (fst c)) = 4%nat /\ len (snd c) <= 0xFFFFFFFF.

Section Layout.

Variable bpy_data : BlendData.t.
Variable vector_eq : vec2 -> vec2 -> bool.
Variable bm_edges : Mesh.t -> list BMEdge.t.

(** the chunks of one layer, in the order of the file:
    [LAYR, PNTS, BBOX, VMAD (colours)..., POLS, PTAG, VMAD (UVs)...] *)
Definition layer_chunks (self : LwoExport) (mesh_object_name_lookup : dict str)
    (material_names : list str) (idx : Z) (mesh : Mesh.t)
  : result (list chunk) :=
  name <- dict_get mesh_object_name_lookup (Mesh.id mesh) ;;
  layr <- generate_layr bpy_data name idx ;;
  pnts <- generate_pnts self mesh ;;
  bbox <- generate_bbox self mesh ;;
  pols <- generate_pols bm_edges mesh (option_subd self) ;;
  ptag <- generate_ptag mesh material_names ;;
  vmad_uvs <- (if truthy (Mesh.uv_layers mesh) then generate_vmad_uv vector_eq mesh
               else Ok []) ;;
  vcs <- (if truthy (Mesh.vertex_colors mesh) then generate_vertex_colors mesh
          else Ok []) ;;
  Ok ([("LAYR", layr); ("PNTS", pnts); ("BBOX", bbox)]%string
      ++ map (pair "VMAD"%string) vcs
      ++ [("POLS", pols); ("PTAG", ptag)]%string
      ++ map (pair "VMAD"%string) vmad_uvs).

(** the layers of a file, numbered from [idx] on *)
Fixpoint layers_chunks (self : LwoExport) (mesh_object_name_lookup : dict str)
    (material_names : list str) (idx : Z) (ms : list Mesh.t)
  : result (list (list chunk)) :=
  match ms with
  | [] => Ok []
  | mesh :: rest =>
      cs <- layer_chunks self mesh_object_name_lookup material_names idx mesh ;;
      css <- layers_chunks self mesh_object_name_lookup material_names (idx + 1) rest ;;
      Ok (cs :: css)
  end.

End Layout.

(** the tags the exporter writes *)
Definition written_tags : list string :=
  ["TAGS"; "LAYR"; "PNTS"; "BBOX"; "VMAD"; "POLS"; "PTAG"; "SURF"]%string.

(** what [emit] does to the variables of the pass *)
Definition emitted (cs : list chunk) (st st' : pass) : Prop :=
  surfs st' = surfs st
  /\ chunks st' = chunks st ++ map (fun c => Bytes (snd c)) cs
  /\ meshdata st' = meshdata st ++ flat_map chunk_bytes cs
  /\ layer_index st' = layer_index st
  /\ Forall chunk_ok cs.

(** the chunks of a file, in the order a reader meets them: the Tag
    Table, the layers, the surfaces *)
Definition file_chunks (tb : bytes) (css : list (list chunk)) (ss : list bytes)
  : list chunk :=
  ("TAGS"%string, tb) :: List.concat css ++ map (pair "SURF"%string) ss.

(** the exporter as one turn of the loop over the objects sees it *)
Definition turn_self (self : LwoExport) (obj : ExportObject) : LwoExport :=
  if option_batch self then set_meshes self [data obj] else self.

(** a reader of the chunks that follow the header: each chunk is a
    four-byte tag, a 32-bit big-endian length and that many bytes *)
Fixpoint read_chunks (fuel : nat) (b : bytes) : option (list (bytes * bytes)) :=
  match fuel with
  | O => None
  | S fuel =>
      match b with
      | [] => Some []
      | _ :: _ =>
          let n := Z.to_nat (be_value (firstn 4 (skipn 4 b))) in
          if (8 + n <=? List.length b)%nat then
            option_map (cons (firstn 4 b, firstn n (skipn 8 b)))
              (read_chunks fuel (skipn (8 + n) b))
          else None
      end
  end.

(** ** The Tag Table *)

(** the name a material slot contributes: none when the slot is empty *)
Definition slot_name (slot : option Material.t) : list str :=
  match slot with
  | Some material => [Material.name material]
  | None => []
  end.

(** the names of the materials of the exported meshes, mesh after mesh *)
Definition tag_table (ms : list Mesh.t) : list str :=
  flat_map (fun mesh => flat_map slot_name (Mesh.materials mesh)) ms.

(** for each entry of the Tag Table, the mesh it comes from *)
Definition tag_meshes (ms : list Mesh.t) : list Mesh.t :=
  flat_map (fun mesh => map (fun _ => mesh) (flat_map slot_name (Mesh.materials mesh))) ms.

(** [k] is the first position of [name] in [names] *)
Definition first_position (names : list str) (name : str) (k : Z) : Prop :=
  0 <= k
  /\ nth_error names (Z.to_nat k) = Some name
  /\ forall j, (j < Z.to_nat k)%nat -> nth_error names j <> Some name.

(** the surface index [generate_ptag] writes for a polygon of a mesh that
    has materials *)
Definition surface_index (mesh : Mesh.t) (material_names : list str)
    (poly : MeshPolygon.t) : Z :=
  match getitem (Mesh.materials mesh) (MeshPolygon.material_index poly) with
  | Ok (Some material) =>
      match list_index str_eqb material_names (Material.name material) with
      | Ok k => k
      | Raise _ => 0
      end
  | _ => 0
  end.

(** an edge that no face uses *)
Definition loose (e : BMEdge.t) : bool := len (BMEdge.link_faces e) =? 0.

(** ** Extrema *)

(** [m] is an element of [l] that no element of [l] is strictly below *)
Definition minimum (l : list float) (m : float) : Prop :=
  In m l /\ Forall (fun x => PrimFloat.ltb x m = false) l.

(** [m] is an element of [l] that no element of [l] is strictly above *)
Definition maximum (l : list float) (m : float) : Prop :=
  In m l /\ Forall (fun x => PrimFloat.ltb m x = false) l.

(** [struct.pack(">f", x)] accepts [x] *)
Definition packable (x : float) : Prop := pack_f x = Ok (f32_bytes x).

(** ** UV seams *)

Section Seams.

Variable vector_eq : vec2 -> vec2 -> bool.

(** the UV a layer holds for a loop *)
Definition uv_at (l : MeshUVLoopLayer.t) (loop : Z) : vec2 :=
  nth (Z.to_nat loop) (MeshUVLoopLayer.data l) (0.0, 0.0)%float.

(** the loop of corner [k] of a polygon, counted around the polygon: corner
    [-1] is the last one, corner [loop_total] the first *)
Definition corner_loop (p : MeshPolygon.t) (k : Z) : Z :=
  MeshPolygon.loop_start p + k mod MeshPolygon.loop_total p.

(** a corner whose UV equals the UV of the previous corner and the UV of
    the next corner of the polygon *)
Definition smooth_corner (l : MeshUVLoopLayer.t) (p : MeshPolygon.t) (k : Z)
  : bool :=
  vector_eq (uv_at l (corner_loop p (k - 1))) (uv_at l (corner_loop p k))
  && vector_eq (uv_at l (corner_loop p k)) (uv_at l (corner_loop p (k + 1))).

(** the entry of corner [k] of polygon [i]: vertex index, polygon index and
    the two coordinates *)
Definition uv_entry (l : MeshUVLoopLayer.t) (i : Z) (p : MeshPolygon.t) (k : Z)
  : bytes :=
  let uv := uv_at l (corner_loop p k) in
  vx_bytes (nth (Z.to_nat k) (MeshPolygon.vertices p) 0)
  ++ vx_bytes i ++ f32_bytes (fst uv) ++ f32_bytes (snd uv).

(** the corners of a polygon *)
Definition corners (p : MeshPolygon.t) : list Z :=
  map Z.of_nat (seq 0 (Z.to_nat (MeshPolygon.loop_total p))).

(** the entries of a layer: one for every corner that is not smooth,
    polygon after polygon, corner after corner *)
Definition uv_entries (l : MeshUVLoopLayer.t) (mesh : Mesh.t) : list bytes :=
  flat_map (fun ip : Z * MeshPolygon.t =>
              flat_map (fun k => if smooth_corner l (snd ip) k then []
                                 else [uv_entry l (fst ip) (snd ip) k])
                (corners (snd ip)))
    (enumerate (Mesh.polygons mesh)).

(** the bytes of a name that can be encoded *)
Definition utf8_of (s : str) : bytes :=
  match utf8 s with
  | Ok b => b
  | Raise _ => []
  end.

(** the block of a layer: none when the layer has no entry *)
Definition uv_block (l : MeshUVLoopLayer.t) (mesh : Mesh.t) : list bytes :=
  if truthy (uv_entries l mesh) then
    [lit "TXUV" ++ big_endian 2 2
     ++ utf8_of (generate_nstring (MeshUVLoopLayer.name l))
     ++ List.concat (uv_entries l mesh)]
  else [].

End Seams.

(** a mesh whose polygons and UV layers fit together: every polygon has as
    many vertices as loops, its loops lie within the data of every layer,
    the indices fit 32 bits, the names can be encoded and the coordinates
    packed *)
Definition uv_well_formed (mesh : Mesh.t) : Prop :=
  len (Mesh.polygons mesh) <= 0x100000000
  /\ Forall (fun p =>
       0 <= MeshPolygon.loop_start p
       /\ 0 <= MeshPolygon.loop_total p
       /\ len (MeshPolygon.vertices p) = MeshPolygon.loop_total p
       /\ Forall (fun v => 0 <= v <= 0xFFFFFFFF) (MeshPolygon.vertices p))
     (Mesh.polygons mesh)
  /\ Forall (fun l =>
       (exists b, utf8 (generate_nstring (MeshUVLoopLayer.name l)) = Ok b)
       /\ Forall (fun uv : vec2 => packable (fst uv) /\ packable (snd uv))
            (MeshUVLoopLayer.data l)
       /\ Forall (fun p =>
            MeshPolygon.loop_start p + MeshPolygon.loop_total p
            <= len (MeshUVLoopLayer.data l))
          (Mesh.polygons mesh))
     (Mesh.uv_layers mesh).

(** ** File names *)

(** "separators normalized (spaces and periods replaced)" *)
Definition normalized_name (name : str) : str :=
  replace 46 95 (replace 32 95 name).

Section FileNames.

Variable os_path_dirname : str -> str.
Variable os_sep : str.
Variable lower : str -> str.

(** the name of a batch file, given the name the previous file was written
    to (or the path the user chose): the directory of that name, the
    separator, the object's name with its periods replaced, and the
    extension unless the name ends with it already *)
Definition batch_name (filename : str) (obj : ExportObject) : str :=
  let base := os_path_dirname filename ++ os_sep ++ replace 46 95 (orig_name obj) in
  if endswith (lower base) (py ".lwo") then base else base ++ py ".lwo".

Fixpoint batch_names (filename : str) (objdups : list ExportObject) : list str :=
  match objdups with
  | [] => []
  | obj :: rest =>
      let f := batch_name filename obj in
      f :: batch_names f rest
  end.

End FileNames.

(** ** A POSIX host

    The host functions of a POSIX system, for running the exporter on
    concrete scenes. *)

Fixpoint from_first (c : Z) (s : str) : str :=
  match s with
  | [] => []
  | x :: rest => if x =? c then s else from_first c rest
  end.

Fixpoint lstrip (c : Z) (s : str) : str :=
  match s with
  | [] => []
  | x :: rest => if x =? c then lstrip c rest else s
  end.

(** [posixpath.dirname]: the part up to the last slash, without its
    trailing slashes unless it consists of slashes only *)
Definition posix_dirname (p : str) : str :=
  let head := rev (from_first 47 (rev p)) in
  if forallb (Z.eqb 47) head then head else rev (lstrip 47 (rev head)).

(** [str.lower] on ASCII text *)
Definition ascii_lower (s : str) : str :=
  map (fun c => if (65 <=? c) && (c <=? 90) then c + 32 else c) s.

(** two UV vectors with equal components *)
Definition exact_vector_eq (a b : vec2) : bool :=
  PrimFloat.eqb (fst a) (fst b) && PrimFloat.eqb (snd a) (snd b).

(** the exporter as the file dialog leaves it by default, in batch mode or
    not *)
Definition default_export (batch : bool) : LwoExport :=
  {| filepath := py "/tmp/scene.lwo";
     option_smooth := py "FROM_OBJECT";
     option_subd := false;
     option_batch := batch;
     option_scale := 1.0%float;
     meshes := [];
     clips := [] |}.

(** ** Sample scenes *)

Definition origin : vec3 := (0.0, 0.0, 0.0)%float.

(** the triangle of the specification's end-to-end scenario *)
Definition triangle_polygon : MeshPolygon.t :=
  {| MeshPolygon.index := 0;
     MeshPolygon.vertices := [0; 1; 2];
     MeshPolygon.loop_start := 0;
     MeshPolygon.loop_total := 3;
     MeshPolygon.material_index := 0 |}.

Definition triangle (materials : list (option Material.t))
    (uv_layers : list MeshUVLoopLayer.t) : Mesh.t :=
  {| Mesh.id := 1;
     Mesh.vertices := [(0.0, 0.0, 0.0); (1.0, 0.0, 0.0); (0.0, 1.0, 0.0)]%float;
     Mesh.polygons := [triangle_polygon];
     Mesh.materials := materials;
     Mesh.vertex_colors := [];
     Mesh.uv_layers := uv_layers;
     Mesh.use_auto_smooth := false;
     Mesh.auto_smooth_angle := 0.0%float |}.

(** its three edges, each used by the one face *)
Definition triangle_edges (mesh : Mesh.t) : list BMEdge.t :=
  [ {| BMEdge.verts := (0, 1); BMEdge.link_faces := [0] |};
    {| BMEdge.verts := (1, 2); BMEdge.link_faces := [0] |};
    {| BMEdge.verts := (2, 0); BMEdge.link_faces := [0] |} ].

Definition red : Material.t :=
  {| Material.name := py "Red";
     Material.shading := None;
     Material.vcmenu := py "<none>" |}.

Definition cube_scene : BlendData.t :=
  {| BlendData.materials := [red];
     BlendData.objects :=
       [ {| Object.name := py "My Cube.001"; Object.location := origin |} ] |}.

(** an object named "My Cube.001" that carries the triangle, painted red *)
Definition red_object : ExportObject :=
  {| orig_name := py "My Cube.001"; data := triangle [Some red] [] |}.

(** the same object without any material *)
Definition bare_object : ExportObject :=
  {| orig_name := py "My Cube.001"; data := triangle [] [] |}.

(** an export on the POSIX host *)
Definition posix_write (self : LwoExport) (filename : str)
    (objdups : list ExportObject) : result (list (str * bytes)) :=
  write cube_scene exact_vector_eq triangle_edges posix_dirname (py "/")
    ascii_lower self filename objdups.

(** the exporter and the name table as [write] hands them to the turn that
    exports [red_object] alone, as one file *)
Definition red_self : LwoExport :=
  set_meshes (default_export false) [data red_object].

Definition red_lookup : dict str := [(1, py "My Cube.001")].

Definition posix_write_object (self : LwoExport) (lookup : dict str)
    (filename : str) (obj : ExportObject) : result (LwoExport * str * bytes) :=
  write_object cube_scene exact_vector_eq triangle_edges posix_dirname (py "/")
    ascii_lower self lookup filename obj.

(** a triangle with a fourth vertex hanging on a wire: the bmesh has the
    three edges of the face and one edge that no face uses *)
Definition wired_edges (mesh : Mesh.t) : list BMEdge.t :=
  triangle_edges mesh ++ [ {| BMEdge.verts := (2, 3); BMEdge.link_faces := [] |} ].

(** a UV layer that gives the three corners of the triangle one UV, and one
    that moves the UV of the second corner *)
Definition flat_uv : MeshUVLoopLayer.t :=
  {| MeshUVLoopLayer.name := py "UVMap";
     MeshUVLoopLayer.data := [(0.5, 0.5); (0.5, 0.5); (0.5, 0.5)]%float |}.

Definition seam_uv : MeshUVLoopLayer.t :=
  {| MeshUVLoopLayer.name := py "UVMap";
     MeshUVLoopLayer.data := [(0.5, 0.5); (0.25, 0.5); (0.5, 0.5)]%float |}.

(** a mesh with one vertex far out: scaled by 1000, its first coordinate
    leaves the range of binary32 *)
Definition far_mesh : Mesh.t :=
  {| Mesh.id := 2;
     Mesh.vertices := [(1e38, 0.0, 0.0)]%float;
     Mesh.polygons := [];
     Mesh.materials := [Some red];
     Mesh.vertex_colors := [];
     Mesh.uv_layers := [];
     Mesh.use_auto_smooth := false;
     Mesh.auto_smooth_angle := 0.0%float |}.

Definition scaled_export : LwoExport :=
  {| filepath := py "/tmp/scene.lwo";
     option_smooth := py "FROM_OBJECT";
     option_subd := false;
     option_batch := false;
     option_scale := 1000.0%float;
     meshes := [];
     clips := [] |}.

(** ** Names on file *)

(** a literal made of ASCII characters only *)
Definition ascii_name (name : string) : bool :=
  forallb (fun a => (N_of_ascii a <? 128)%N) (list_ascii_of_string name).

(** the number of bytes UTF-8 takes for a code point *)
Definition utf8_width (c : Z) : Z :=
  if c <? 0x80 then 1
  else if c <? 0x800 then 2
  else if c <? 0x10000 then 3
  else 4.

(** the null characters [generate_nstring] appends, as bytes *)
Definition padding (s : str) : bytes :=
  if Z.even (len s) then [x00; x00] else [x00].

(** the bytes of a name and its padding, for a name that can be encoded *)
Definition name_bytes (s : str) : bytes := utf8_of s ++ padding s.

(** ** Points *)

(** the twelve bytes of a vertex: its scaled x, z and y coordinates *)
Definition point_bytes (scale : float) (co : vec3) : bytes :=
  let '(x, y, z) := co in
  f32_bytes (PrimFloat.mul x scale)
  ++ f32_bytes (PrimFloat.mul z scale)
  ++ f32_bytes (PrimFloat.mul y scale).

(** a vertex whose scaled coordinates fit binary32 *)
Definition point_packable (scale : float) (co : vec3) : bool :=
  let '(x, y, z) := co in
  negb (f32_overflow (PrimFloat.mul x scale))
  && negb (f32_overflow (PrimFloat.mul z scale))
  && negb (f32_overflow (PrimFloat.mul y scale)).

(** ** Vertex colours *)

(** the colour a layer holds for a loop *)
Definition rgba_at (layer : MeshLoopColorLayer.t) (loop : Z) : rgba :=
  nth (Z.to_nat loop) (MeshLoopColorLayer.data layer) (0.0, 0.0, 0.0, 0.0)%float.

(** the entry of corner [k] of polygon [face_idx]: vertex index, polygon
    index and the four components of the colour *)
Definition color_entry (layer : MeshLoopColorLayer.t) (face_idx : Z)
    (p : MeshPolygon.t) (k : Z) : bytes :=
  let '(r, g, b, a) := rgba_at layer (MeshPolygon.loop_start p + k) in
  vx_bytes (nth (Z.to_nat k) (MeshPolygon.vertices p) 0) ++ vx_bytes face_idx
  ++ f32_bytes r ++ f32_bytes g ++ f32_bytes b ++ f32_bytes a.

(** the entries of a layer: one for every corner of every polygon *)
Definition color_entries (layer : MeshLoopColorLayer.t) (mesh : Mesh.t)
  : list bytes :=
  flat_map (fun ip : Z * MeshPolygon.t =>
              map (color_entry layer (fst ip) (snd ip)) (corners (snd ip)))
    (enumerate (Mesh.polygons mesh)).

(** the block of a layer: none when the mesh has no corner *)
Definition color_block (layer : MeshLoopColorLayer.t) (mesh : Mesh.t)
  : list bytes :=
  if truthy (color_entries layer mesh) then
    [lit "RGBA" ++ big_endian 2 4
     ++ utf8_of (generate_nstring (MeshLoopColorLayer.name layer))
     ++ List.concat (color_entries layer mesh)]
  else [].

(** a mesh whose polygons and colour layers fit together *)
Definition colors_well_formed (mesh : Mesh.t) : Prop :=
  len (Mesh.polygons mesh) <= 0x100000000
  /\ Forall (fun p =>
       0 <= MeshPolygon.loop_start p
       /\ 0 <= MeshPolygon.loop_total p
       /\ len (MeshPolygon.vertices p) = MeshPolygon.loop_total p
       /\ Forall (fun v => 0 <= v <= 0xFFFFFFFF) (MeshPolygon.vertices p))
     (Mesh.polygons mesh)
  /\ Forall (fun layer =>
       (exists b, utf8 (generate_nstring (MeshLoopColorLayer.name layer)) = Ok b)
       /\ Forall (fun c : rgba =>
                    packable (fst (fst (fst c))) /\ packable (snd (fst (fst c)))
                    /\ packable (snd (fst c)) /\ packable (snd c))
            (MeshLoopColorLayer.data layer)
       /\ Forall (fun p =>
            MeshPolygon.loop_start p + MeshPolygon.loop_total p
            <= len (MeshLoopColorLayer.data layer))
          (Mesh.polygons mesh))
     (Mesh.vertex_colors mesh).

(** ** Surfaces on file *)

(** a sub-chunk of a surface: its four-letter tag, the length of its
    data as an unsigned 16-bit big-endian number, and the data *)
Definition subchunk_bytes (c : string * bytes) : bytes :=
  lit (fst c) ++ big_endian 2 (len (snd c)) ++ snd c.

(** a reader of the sub-chunks that follow the name of a surface *)
Fixpoint read_subchunks (fuel : nat) (b : bytes) : option (list (bytes * bytes)) :=
  match fuel with
  | O => None
  | S fuel =>
      match b with
      | [] => Some []
      | _ :: _ =>
          let n := Z.to_nat (be_value (firstn 2 (skipn 4 b))) in
          if (6 + n <=? List.length b)%nat then
            option_map (cons (firstn 4 b, firstn n (skipn 6 b)))
              (read_subchunks fuel (skipn (6 + n) b))
          else None
      end
  end.

(** the sub-chunks [generate_mesh_surface] writes after the name, for the
    values its [try] block left: an empty COLR, the colour, the four
    intensities, VCOL when the material names a colour map, and SMAN *)
Definition surface_subchunks (p : surface_params) : list (string * bytes) :=
  [ ("COLR"%string, []);
    ("COLR"%string,
     f32_bytes (fst (fst (sp_color p))) ++ f32_bytes (snd (fst (sp_color p)))
     ++ f32_bytes (snd (sp_color p)) ++ [x00; x00]);
    ("DIFF"%string, f32_bytes (sp_diff p) ++ [x00; x00]);
    ("LUMI"%string, f32_bytes (sp_lumi p) ++ [x00; x00]);
    ("SPEC"%string, f32_bytes (sp_spec p) ++ [x00; x00]);
    ("GLOS"%string, f32_bytes (sp_gloss p) ++ [x00; x00]) ]
  ++ match sp_material p with
     | Some material =>
         if str_eqb (Material.vcmenu material) (py "<none>") then []
         else [("VCOL"%string,
                f32_bytes 1.0%float ++ [x00; x00] ++ lit "RGBA"
                ++ name_bytes (Material.vcmenu material))]
     | None => []
     end
  ++ [("SMAN"%string, f32_bytes (sp_sman p))].

(** what follows the name in the surface of a material that could not be
    read: white, full diffuse, specular 0.2, everything else 0 *)
Definition fallback_body : bytes :=
  flat_map subchunk_bytes (surface_subchunks fallback_params).

(** ** Materials and their meshes *)

(** the material names a mesh contributes to the Tag Table, each paired
    with the mesh *)
Definition mesh_tags (mesh : Mesh.t) : list (Mesh.t * str) :=
  map (pair mesh) (flat_map slot_name (Mesh.materials mesh)).

(** two exporters that agree on everything the user set: they may differ
    in the attributes [write] assigns *)
Definition same_options (a b : LwoExport) : Prop :=
  filepath a = filepath b
  /\ option_smooth a = option_smooth b
  /\ option_subd a = option_subd b
  /\ option_batch a = option_batch b
  /\ option_scale a = option_scale b.

(** [mesh_object_name_lookup] as [write] fills it: for every object, in
    their order, the name of the object under the identity of its mesh *)
Definition name_lookup (objdups : list ExportObject) (d : dict str) : dict str :=
  fold_left (fun d obj => dict_set d (Mesh.id (data obj)) (orig_name obj)) objdups d.

(** the name [write] gives the file of a combined export *)
Definition combined_name (lower : str -> str) (filename : str) : str :=
  if endswith (lower filename) (py ".lwo") then filename else filename ++ py ".lwo".

(** ** Even lengths *)

(** a payload of an even number of bytes: a chunk that needs no pad byte *)
Definition even_len (b : bytes) : Prop := Z.even (len b) = true.

(** a name of ASCII characters *)
Definition ascii_str (s : str) : Prop := Forall (fun c => c < 0x80) s.

(** the names a mesh brings into a file are ASCII: those of its materials,
    of its colour layers and of its UV layers *)
Definition ascii_mesh (mesh : Mesh.t) : Prop :=
  Forall (fun slot => match slot with
                      | Some material => ascii_str (Material.name material)
                      | None => True
                      end) (Mesh.materials mesh)
  /\ Forall (fun layer => ascii_str (MeshLoopColorLayer.name layer))
       (Mesh.vertex_colors mesh)
  /\ Forall (fun l => ascii_str (MeshUVLoopLayer.name l)) (Mesh.uv_layers mesh).

(** ** A second scene *)

(** a material whose properties can be read, with a vertex colour map *)
Definition gold : Material.t :=
  {| Material.name := py "Gold";
     Material.shading :=
       Some {| Shading.diffuse_color := (1.0, 0.75, 0.0)%float;
               Shading.diffuse_intensity := 0.8%float;
               Shading.emit := 0.0%float;
               Shading.specular_intensity := 0.5%float;
               Shading.specular_hardness := 104 |};
     Material.vcmenu := py "Col" |}.

(** a material that bears the name the exporter reserves *)
Definition reserved : Material.t :=
  {| Material.name := DEFAULT_NAME;
     Material.shading := None;
     Material.vcmenu := py "<none>" |}.

(** a colour for each corner of the triangle *)
Definition paint : MeshLoopColorLayer.t :=
  {| MeshLoopColorLayer.name := py "Col";
     MeshLoopColorLayer.data :=
       [(1.0, 0.0, 0.0, 1.0); (0.0, 1.0, 0.0, 1.0); (0.0, 0.0, 1.0, 1.0)]%float |}.

(** the triangle as a second datablock, gilded and painted *)
Definition painted_triangle : Mesh.t :=
  {| Mesh.id := 2;
     Mesh.vertices := [(0.0, 0.0, 0.0); (1.0, 0.0, 0.0); (0.0, 1.0, 0.0)]%float;
     Mesh.polygons := [triangle_polygon];
     Mesh.materials := [Some gold];
     Mesh.vertex_colors := [paint];
     Mesh.uv_layers := [];
     Mesh.use_auto_smooth := true;
     Mesh.auto_smooth_angle := 0.5%float |}.

(** a mesh of nothing but an empty material slot *)
Definition hollow_mesh : Mesh.t :=
  {| Mesh.id := 3;
     Mesh.vertices := [];
     Mesh.polygons := [];
     Mesh.materials := [None];
     Mesh.vertex_colors := [];
     Mesh.uv_layers := [];
     Mesh.use_auto_smooth := false;
     Mesh.auto_smooth_angle := 0.0%float |}.

Definition studio : BlendData.t :=
  {| BlendData.materials := [red; gold];
     BlendData.objects :=
       [ {| Object.name := py "My Cube.001"; Object.location := origin |};
         {| Object.name := py "Lamp Post";
            Object.location := (1.0, 2.0, 3.0)%float |} ] |}.

Definition lamp_object : ExportObject :=
  {| orig_name := py "Lamp Post"; data := painted_triangle |}.

Definition reserved_object : ExportObject :=
  {| orig_name := py "My Cube.001"; data := triangle [Some reserved] [] |}.

Definition hollow_object : ExportObject :=
  {| orig_name := py "My Cube.001"; data := hollow_mesh |}.

(** an export of the studio on the POSIX host *)
Definition studio_write (self : LwoExport) (filename : str)
    (objdups : list ExportObject) : result (list (str * bytes)) :=
  write studio exact_vector_eq triangle_edges posix_dirname (py "/")
    ascii_lower self filename objdups.

(** ** The order of the chunks *)

(** the tags of a layer that has [nc] blocks of vertex colours and [nu]
    blocks of UV coordinates *)
Definition layer_tags (nc nu : nat) : list string :=
  ["LAYR"; "PNTS"; "BBOX"]%string ++ repeat "VMAD"%string nc
  ++ ["POLS"; "PTAG"]%string ++ repeat "VMAD"%string nu.

(** ** Properties *)

Lemma bind_ok {A B} (r : result A) (k : A -> result B) (b : B) :
  bind r k = Ok b -> exists a, r = Ok a /\ k a = Ok b.
Proof. destruct r as [a|e]; simpl; [eauto | discriminate]. Qed.

Lemma big_endian_length n z : List.length (big_endian n z) = n.
Proof. induction n; simpl; congruence. Qed.

Lemma Z_of_byte_of_Z z : Z_of_byte (byte_of_Z z) = z mod 256.
Proof.
  unfold Z_of_byte, byte_of_Z.
  assert (Hr : 0 <= z mod 256 < 256) by (apply Z.mod_pos_bound; lia).
  destruct (Byte.of_N (Z.to_N (z mod 256))) as [b|] eqn:E.
  - apply Byte.to_of_N in E. rewrite E. lia.
  - apply Byte.of_N_None_iff in E. lia.
Qed.

Lemma be_value_acc b acc :
  fold_left (fun a x => a * 256 + Z_of_byte x) b acc
  = acc * 256 ^ len b + be_value b.
Proof.
  unfold be_value, len. revert acc.
  induction b as [|x b IH]; intros acc.
  - simpl. lia.
  - cbn [fold_left List.length]. rewrite IH, (IH (0 * 256 + _)).
    rewrite Nat2Z.inj_succ, Z.pow_succ_r by lia. ring.
Qed.

Lemma be_value_cons x b : be_value (x :: b) = Z_of_byte x * 256 ^ len b + be_value b.
Proof. unfold be_value at 1. simpl. rewrite be_value_acc. reflexivity. Qed.

(** the [n] bytes of [big_endian n z] read back as [z] modulo [256^n] *)
Lemma be_value_big_endian n z : be_value (big_endian n z) = z mod 256 ^ Z.of_nat n.
Proof.
  induction n as [|k IH].
  - simpl. rewrite Z.mod_1_r. reflexivity.
  - cbn [big_endian]. rewrite be_value_cons, Z_of_byte_of_Z, IH.
    unfold len. rewrite big_endian_length.
    rewrite Z.shiftr_div_pow2 by lia.
    rewrite Nat2Z.inj_succ, Z.pow_succ_r by lia.
    replace (2 ^ (8 * Z.of_nat k)) with (256 ^ Z.of_nat k)
      by (rewrite Z.pow_mul_r by lia; reflexivity).
    assert (Hp : 0 < 256 ^ Z.of_nat k) by (apply Z.pow_pos_nonneg; lia).
    rewrite (Z.mul_comm 256), Z.rem_mul_r by lia. ring.
Qed.

Lemma be_value_small n z :
  0 <= z < 256 ^ Z.of_nat n -> be_value (big_endian n z) = z.
Proof. intros H. rewrite be_value_big_endian. apply Z.mod_small, H. Qed.

Lemma lor_top_byte i :
  0 <= i <= 0xFFFFFFFF -> Z.shiftr (Z.lor i 0xFF000000) 24 mod 256 = 255.
Proof.
  intros H.
  rewrite Z.shiftr_lor. change (Z.shiftr 0xFF000000 24) with (Z.ones 8).
  assert (Hq : 0 <= Z.shiftr i 24 < 2 ^ 8).
  { rewrite Z.shiftr_div_pow2 by lia. split.
    - apply Z.div_pos; lia.
    - apply Z.div_lt_upper_bound; lia. }
  replace (Z.lor (Z.shiftr i 24) (Z.ones 8)) with (Z.ones 8); [reflexivity|].
  apply Z.bits_inj'. intros n Hn. rewrite Z.lor_spec.
  destruct (Z.ltb_spec n 8).
  - rewrite Z.ones_spec_low by lia. symmetry. apply orb_true_r.
  - rewrite Z.ones_spec_high by lia. rewrite orb_false_r. symmetry.
    destruct (Z.eq_dec (Z.shiftr i 24) 0) as [->|Hz]; [apply Z.bits_0|].
    apply Z.bits_above_log2; [lia|].
    apply Z.lt_le_trans with 8; [|lia]. apply Z.log2_lt_pow2; lia.
Qed.

Lemma lor_marker_range i :
  0 <= i <= 0xFFFFFFFF -> 0 <= Z.lor i 0xFF000000 <= 0xFFFFFFFF.
Proof.
  intros H. split; [apply Z.lor_nonneg; lia|].
  assert (Hlt : Z.lor i 0xFF000000 < 2 ^ 32); [|lia].
  destruct (Z.eq_dec (Z.lor i 0xFF000000) 0) as [->|Hz]; [lia|].
  apply Z.log2_lt_pow2; [assert (0 <= Z.lor i 0xFF000000) by (apply Z.lor_nonneg; lia); lia|].
  rewrite Z.log2_lor by lia.
  apply Z.max_lub_lt; [|reflexivity].
  destruct (Z.eq_dec i 0) as [->|Hi]; [reflexivity|].
  apply Z.log2_lt_pow2; lia.
Qed.

Lemma generate_vx_ok i :
  0 <= i <= 0xFFFFFFFF -> generate_vx i = Ok (vx_bytes i).
Proof.
  intros H. unfold generate_vx, vx_bytes, pack_H, pack_L.
  destruct (Z.ltb_spec i 0xFF00).
  - replace ((0 <=? i) && (i <=? 0xFFFF)) with true; [reflexivity|].
    symmetry. apply andb_true_iff. split; apply Z.leb_le; lia.
  - pose proof (lor_marker_range H) as Hr.
    replace ((0 <=? Z.lor i 0xFF000000) && (Z.lor i 0xFF000000 <=? 0xFFFFFFFF))
      with true; [reflexivity|].
    symmetry. apply andb_true_iff. split; apply Z.leb_le; lia.
Qed.

(** C6, as amended: an index below [0xFF00] is written as the two bytes of
    its unsigned 16-bit big-endian encoding; an index from [0xFF00] up to
    [0xFFFFFFFF] is written as the four bytes of the unsigned 32-bit
    big-endian encoding of [i | 0xFF000000], the first of which is [0xFF]. *)
Theorem generate_vx_width (i : Z) :
  0 <= i <= 0xFFFFFFFF ->
  exists b, generate_vx i = Ok b /\
    if i <? 0xFF00
    then List.length b = 2%nat /\ be_value b = i
    else List.length b = 4%nat /\ be_value b = Z.lor i 0xFF000000
         /\ hd x00 b = xff.
Proof.
  intros H. exists (vx_bytes i). split; [apply generate_vx_ok, H|].
  unfold vx_bytes. destruct (Z.ltb_spec i 0xFF00).
  - split; [apply big_endian_length|]. apply be_value_small. simpl. lia.
  - split; [apply big_endian_length|]. split.
    + apply be_value_small. pose proof (lor_marker_range H). simpl. lia.
    + cbn [big_endian hd]. change (8 * Z.of_nat 3) with 24.
      unfold byte_of_Z. rewrite (lor_top_byte H). reflexivity.
Qed.

Lemma generate_vx_width_witness :
  generate_vx 0xFEFF = Ok [xfe; xff] /\ generate_vx 0xFF00 = Ok [xff; x00; xff; x00].
Proof.
  destruct (generate_vx_width (i := 0xFEFF)) as (b & Hb & _); [lia|].
  destruct (generate_vx_width (i := 0xFF00)) as (c & Hc & _); [lia|].
  split; reflexivity.
Defined.

(** C6, as stated, fails: an index of [2^32] is at least [0xFF00], and
    [generate_vx] raises instead of returning four bytes. *)
Lemma generate_vx_width_counterexample :
  0xFF00 <= 0x100000000 /\ generate_vx 0x100000000 = Raise StructError.
Proof. split; [lia | reflexivity]. Qed.

(** C7: [generate_nstring] appends two null characters to a string of
    even length and one to a string of odd length; the result ends with a
    null, has an even length, of at least [len(s) + 1]; the empty string
    encodes to 2 bytes, "AB" to 4 bytes and "ABC" to 4 bytes. *)
Theorem generate_nstring_padding (s : str) :
  generate_nstring s = s ++ (if Z.even (len s) then [0; 0] else [0])
  /\ last (generate_nstring s) 1 = 0
  /\ Z.even (len (generate_nstring s)) = true
  /\ len s + 1 <= len (generate_nstring s)
  /\ utf8 (generate_nstring (py "")) = Ok [x00; x00]
  /\ utf8 (generate_nstring (py "AB")) = Ok (lit "AB" ++ [x00; x00])
  /\ utf8 (generate_nstring (py "ABC")) = Ok (lit "ABC" ++ [x00]).
Proof.
  assert (E : generate_nstring s = s ++ (if Z.even (len s) then [0; 0] else [0])).
  { unfold generate_nstring. rewrite Zeven_mod.
    destruct (len s mod 2 =? 0); reflexivity. }
  split; [exact E|]. rewrite E.
  repeat split.
  - destruct (Z.even (len s)).
    + change [0; 0] with ([0] ++ [0]). rewrite app_assoc. apply last_last.
    + apply last_last.
  - unfold len. rewrite length_app, Nat2Z.inj_add. fold (len s).
    rewrite Z.even_add. destruct (Z.even (len s)); reflexivity.
  - unfold len. rewrite length_app, Nat2Z.inj_add.
    destruct (Z.even _); simpl; lia.
Qed.

(** *** Loops *)

(** a loop whose body appends [g x] to a byte stream writes the
    concatenation of the [g x] *)
Lemma for_each_emit {A B} (l : list A) (body : A -> list B -> result (list B))
    (g : A -> list B) :
  (forall x, In x l -> forall data, body x data = Ok (data ++ g x)) ->
  forall data, for_each l body data = Ok (data ++ flat_map g l).
Proof.
  induction l as [|x l IH]; intros H data; simpl.
  - rewrite app_nil_r. reflexivity.
  - rewrite (H x) by (left; reflexivity). simpl.
    rewrite IH by (intros y Hy; apply H; right; exact Hy).
    rewrite app_assoc. reflexivity.
Qed.

(** *** The Tag Table *)

Lemma used_names_of_mesh (mesh : Mesh.t) (slots : list (option Material.t))
    (matnames : list str) (matmeshes : list Mesh.t) :
  for_each slots
    (fun material '(matnames, matmeshes) =>
       match material with
       | Some material =>
           Ok (matnames ++ [Material.name material], matmeshes ++ [mesh])
       | None => Ok (matnames, matmeshes)
       end) (matnames, matmeshes)
  = Ok (matnames ++ flat_map slot_name slots,
        matmeshes ++ map (fun _ => mesh) (flat_map slot_name slots)).
Proof.
  revert matnames matmeshes.
  induction slots as [|slot slots IH]; intros matnames matmeshes; simpl.
  - rewrite !app_nil_r. reflexivity.
  - destruct slot as [material|]; simpl; rewrite IH.
    + rewrite <- !app_assoc. reflexivity.
    + reflexivity.
Qed.

Lemma truthy_nil {A} (l : list A) : truthy l = false <-> l = [].
Proof. destruct l; simpl; split; congruence. Qed.

(** the Tag Table of an export whose meshes all have a material slot *)
Lemma get_used_material_names_ok (self : LwoExport) :
  Forall (fun mesh => truthy (Mesh.materials mesh) = true) (meshes self) ->
  get_used_material_names self
  = Ok (tag_meshes (meshes self), tag_table (meshes self)).
Proof.
  intros H. unfold get_used_material_names.
  assert (G : forall ms matnames matmeshes,
    Forall (fun mesh => truthy (Mesh.materials mesh) = true) ms ->
    for_each ms
      (fun mesh '(matnames, matmeshes) =>
         if truthy (Mesh.materials mesh) then
           for_each (Mesh.materials mesh)
             (fun material '(matnames, matmeshes) =>
                match material with
                | Some material =>
                    Ok (matnames ++ [Material.name material], matmeshes ++ [mesh])
                | None => Ok (matnames, matmeshes)
                end) (matnames, matmeshes)
         else if truthy (Mesh.vertex_colors mesh) then
           nm <- getattr_name self "LWO_VCOLOR_MATERIAL" ;;
           Ok (matnames ++ [nm], matmeshes ++ [mesh])
         else
           nm <- getattr_name self "LWO_DEFAULT_MATERIAL" ;;
           Ok (matnames ++ [nm], matmeshes ++ [mesh])) (matnames, matmeshes)
    = Ok (matnames ++ tag_table ms, matmeshes ++ tag_meshes ms)).
  { induction ms as [|mesh ms IH]; intros matnames matmeshes Hall.
    - simpl. rewrite !app_nil_r. reflexivity.
    - inversion Hall as [|? ? Hm Hms]; subst. cbn [for_each].
      rewrite Hm, used_names_of_mesh. cbn [bind]. rewrite IH by assumption.
      unfold tag_table, tag_meshes. cbn [flat_map].
      rewrite <- !app_assoc. reflexivity. }
  rewrite (G _ _ _ H). reflexivity.
Qed.

(** a mesh without materials makes [get_used_material_names] raise: the
    attribute it reads for the fallback name was never assigned *)
Lemma get_used_material_names_raises (self : LwoExport) :
  Exists (fun mesh => Mesh.materials mesh = []) (meshes self) ->
  get_used_material_names self = Raise AttributeError.
Proof.
  intros H. unfold get_used_material_names.
  assert (G : forall ms acc,
    Exists (fun mesh => Mesh.materials mesh = []) ms ->
    for_each ms
      (fun mesh '(matnames, matmeshes) =>
         if truthy (Mesh.materials mesh) then
           for_each (Mesh.materials mesh)
             (fun material '(matnames, matmeshes) =>
                match material with
                | Some material =>
                    Ok (matnames ++ [Material.name material], matmeshes ++ [mesh])
                | None => Ok (matnames, matmeshes)
                end) (matnames, matmeshes)
         else if truthy (Mesh.vertex_colors mesh) then
           nm <- getattr_name self "LWO_VCOLOR_MATERIAL" ;;
           Ok (matnames ++ [nm], matmeshes ++ [mesh])
         else
           nm <- getattr_name self "LWO_DEFAULT_MATERIAL" ;;
           Ok (matnames ++ [nm], matmeshes ++ [mesh])) acc
    = Raise AttributeError).
  { induction ms as [|mesh ms IH]; intros [matnames matmeshes] Hex.
    - inversion Hex.
    - cbn [for_each]. destruct (truthy (Mesh.materials mesh)) eqn:Hm.
      + rewrite used_names_of_mesh. cbn [bind]. apply IH.
        inversion Hex as [? ? Hnil|]; subst; [|assumption].
        rewrite Hnil in Hm. discriminate.
      + destruct (truthy (Mesh.vertex_colors mesh)); reflexivity. }
  rewrite (G _ _ H). reflexivity.
Qed.

Lemma get_used_material_names_inv (self : LwoExport) matmeshes material_names :
  get_used_material_names self = Ok (matmeshes, material_names) ->
  Forall (fun mesh => truthy (Mesh.materials mesh) = true) (meshes self)
  /\ matmeshes = tag_meshes (meshes self)
  /\ material_names = tag_table (meshes self).
Proof.
  intros H.
  destruct (Forall_Exists_dec (fun mesh => truthy (Mesh.materials mesh) = true)
              (fun mesh => bool_dec _ _) (meshes self)) as [Hall|Hex].
  - rewrite get_used_material_names_ok in H by assumption.
    injection H as <- <-. auto.
  - rewrite get_used_material_names_raises in H; [discriminate|].
    eapply Exists_impl; [|exact Hex]. cbv beta. intros mesh Hm.
    apply truthy_nil. destruct (truthy (Mesh.materials mesh)); congruence.
Qed.

(** *** Sums and lengths *)

Lemma sum_acc (l : list Z) (a : Z) : fold_left Z.add l a = a + sum l.
Proof.
  unfold sum. revert a. induction l as [|x l IH]; intros a; simpl; [lia|].
  rewrite IH, (IH x). lia.
Qed.

Lemma sum_cons (x : Z) (l : list Z) : sum (x :: l) = x + sum l.
Proof. unfold sum at 1. simpl. apply sum_acc. Qed.

Lemma sum_app (l1 l2 : list Z) : sum (l1 ++ l2) = sum l1 + sum l2.
Proof.
  induction l1 as [|x l1 IH]; [reflexivity|].
  simpl app. rewrite !sum_cons, IH. lia.
Qed.

Lemma len_app {A} (l1 l2 : list A) : len (l1 ++ l2) = len l1 + len l2.
Proof. unfold len. rewrite length_app. lia. Qed.

Lemma len_cons {A} (x : A) (l : list A) : len (x :: l) = 1 + len l.
Proof. unfold len. cbn [List.length]. lia. Qed.

Lemma len_map {A B} (f : A -> B) (l : list A) : len (map f l) = len l.
Proof. unfold len. rewrite length_map. reflexivity. Qed.

Lemma len_nonneg {A} (l : list A) : 0 <= len l.
Proof. unfold len. lia. Qed.

Lemma sum_len_nonneg (chunks : list payload) : 0 <= sum (map payload_len chunks).
Proof.
  induction chunks as [|c chunks IH]; [reflexivity|].
  simpl map. rewrite sum_cons.
  assert (0 <= payload_len c) by (destruct c; apply len_nonneg). lia.
Qed.

Lemma chunk_bytes_len (c : chunk) :
  chunk_ok c -> len (chunk_bytes c) = 8 + len (snd c).
Proof.
  intros [Ht _]. unfold chunk_bytes. rewrite !len_app.
  unfold len at 1 2. rewrite Ht, big_endian_length. lia.
Qed.

Lemma chunks_bytes_len (cs : list chunk) :
  Forall chunk_ok cs ->
  len (flat_map chunk_bytes cs)
  = sum (map (fun c => payload_len (Bytes (snd c))) cs) + 8 * len cs.
Proof.
  induction 1 as [|c cs Hc _ IH]; [reflexivity|].
  cbn [flat_map map]. rewrite len_app, sum_cons, len_cons, IH, chunk_bytes_len by assumption.
  simpl payload_len. lia.
Qed.

Lemma pack_L_ok (x : Z) (b : bytes) :
  pack_L x = Ok b -> 0 <= x <= 0xFFFFFFFF /\ b = big_endian 4 x.
Proof.
  unfold pack_L. destruct (andb _ _) eqn:E; [|discriminate].
  intros H. injection H as <-. apply andb_true_iff in E. destruct E as [E1 E2].
  apply Z.leb_le in E1, E2. auto.
Qed.

Lemma pack_L_in_range (x : Z) : 0 <= x <= 0xFFFFFFFF -> pack_L x = Ok (big_endian 4 x).
Proof.
  intros H. unfold pack_L.
  replace ((0 <=? x) && (x <=? 0xFFFFFFFF)) with true; [reflexivity|].
  symmetry. apply andb_true_iff. split; apply Z.leb_le; lia.
Qed.

(** [write_chunk] of a [bytes] payload under an ASCII tag *)
Lemma write_chunk_ok (dest : bytes) (name : string) (data out : bytes) :
  utf8 (py name) = Ok (lit name) ->
  write_chunk dest (py name) (Bytes data) = Ok out ->
  len data <= 0xFFFFFFFF /\ out = dest ++ chunk_bytes (name, data).
Proof.
  intros Hn H. unfold write_chunk in H. rewrite Hn in H. cbn [bind] in H.
  apply bind_ok in H. destruct H as (size & Hs & H).
  apply pack_L_ok in Hs. destruct Hs as [Hr ->].
  cbn [stream_write payload_len] in *. injection H as <-. split; [lia|].
  unfold chunk_bytes. cbn [fst snd]. rewrite <- !app_assoc. reflexivity.
Qed.

Lemma write_chunk_in_range (dest : bytes) (name : string) (data : bytes) :
  utf8 (py name) = Ok (lit name) ->
  len data <= 0xFFFFFFFF ->
  write_chunk dest (py name) (Bytes data) = Ok (dest ++ chunk_bytes (name, data)).
Proof.
  intros Hn Hr. unfold write_chunk. rewrite Hn. cbn [bind payload_len].
  rewrite pack_L_in_range by (pose proof (len_nonneg data); lia).
  cbn [bind stream_write]. unfold chunk_bytes. cbn [fst snd]. rewrite <- !app_assoc. reflexivity.
Qed.

(** *** The per-file pass *)

Lemma emitted_nil (st : pass) : emitted [] st st.
Proof.
  unfold emitted. cbn. rewrite !app_nil_r. auto.
Qed.

Lemma emitted_trans cs1 cs2 st1 st2 st3 :
  emitted cs1 st1 st2 -> emitted cs2 st2 st3 -> emitted (cs1 ++ cs2) st1 st3.
Proof.
  intros (S1 & C1 & M1 & L1 & F1) (S2 & C2 & M2 & L2 & F2).
  unfold emitted. rewrite S2, C2, M2, L2, S1, C1, M1, L1.
  rewrite map_app, flat_map_app, <- !app_assoc.
  repeat split; try reflexivity. apply Forall_app; auto.
Qed.

Lemma emit_ok (name : string) (data : bytes) (st st' : pass) :
  utf8 (py name) = Ok (lit name) ->
  List.length (lit name) = 4%nat ->
  emit name data st = Ok st' ->
  emitted [(name, data)] st st'.
Proof.
  intros Hn Hl H. unfold emit in H.
  apply bind_ok in H. destruct H as (md & Hw & H).
  apply write_chunk_ok in Hw; [|exact Hn]. destruct Hw as [Hr ->].
  injection H as <-. unfold emitted. cbn [surfs chunks meshdata layer_index].
  cbn [map flat_map snd]. rewrite app_nil_r.
  repeat split; try reflexivity.
  constructor; [|constructor]. split; assumption.
Qed.

Lemma emit_all_ok (name : string) (datas : list bytes) (st st' : pass) :
  utf8 (py name) = Ok (lit name) ->
  List.length (lit name) = 4%nat ->
  for_each datas (emit name) st = Ok st' ->
  emitted (map (pair name) datas) st st'.
Proof.
  intros Hn Hl. revert st.
  induction datas as [|d datas IH]; intros st H.
  - injection H as <-. apply emitted_nil.
  - cbn [for_each] in H. apply bind_ok in H. destruct H as (st1 & H1 & H).
    apply (emit_ok _ _ _ Hn Hl) in H1. apply IH in H.
    apply (emitted_trans H1 H).
Qed.

(** *** Reading a file back *)

Lemma firstn_prefix {A} (n : nat) (l1 l2 : list A) :
  List.length l1 = n -> firstn n (l1 ++ l2) = l1.
Proof.
  intros <-. rewrite firstn_app, Nat.sub_diag, firstn_all. cbn [firstn].
  apply app_nil_r.
Qed.

Lemma skipn_prefix {A} (n : nat) (l1 l2 : list A) :
  List.length l1 = n -> skipn n (l1 ++ l2) = l2.
Proof.
  intros <-. rewrite skipn_app, Nat.sub_diag, skipn_all. reflexivity.
Qed.

(** the reader takes one chunk off the front *)
Lemma read_chunks_step (fuel : nat) (tag size data rest : bytes) :
  List.length tag = 4%nat ->
  List.length size = 4%nat ->
  Z.to_nat (be_value size) = List.length data ->
  read_chunks (S fuel) (tag ++ size ++ data ++ rest)
  = option_map (cons (tag, data)) (read_chunks fuel rest).
Proof.
  intros Ht Hs Hn.
  assert (Eshape : exists x b', tag ++ size ++ data ++ rest = x :: b').
  { destruct tag as [|x tag']; [discriminate|]. cbn [app]. eauto. }
  destruct Eshape as (x & b' & Eshape).
  rewrite Eshape. cbn [read_chunks]. rewrite <- Eshape. clear Eshape.
  assert (E4 : skipn 4 (tag ++ size ++ data ++ rest) = size ++ data ++ rest)
    by (apply skipn_prefix, Ht).
  assert (E8 : skipn 8 (tag ++ size ++ data ++ rest) = data ++ rest).
  { rewrite (app_assoc tag). apply skipn_prefix. rewrite length_app. lia. }
  rewrite E4, (firstn_prefix _ _ Hs), Hn, E8, (firstn_prefix _ _ eq_refl).
  rewrite (firstn_prefix _ _ Ht).
  replace (8 + List.length data <=? _)%nat with true
    by (symmetry; apply Nat.leb_le; rewrite !length_app; lia).
  replace (skipn (8 + List.length data) (tag ++ size ++ data ++ rest)) with rest;
    [reflexivity|].
  rewrite (app_assoc tag), (app_assoc (tag ++ size)). symmetry.
  apply skipn_prefix. rewrite !length_app. lia.
Qed.

(** the reader finds the chunks that were written *)
Lemma read_chunks_written (cs : list chunk) :
  Forall chunk_ok cs ->
  read_chunks (S (List.length cs)) (flat_map chunk_bytes cs)
  = Some (map (fun c => (lit (fst c), snd c)) cs).
Proof.
  induction 1 as [|c cs [Ht Hl] _ IH]; [reflexivity|].
  cbn [flat_map List.length map]. unfold chunk_bytes at 1.
  rewrite <- !app_assoc, read_chunks_step, IH; [reflexivity | exact Ht | | ].
  - apply big_endian_length.
  - rewrite be_value_small.
    + unfold len. apply Nat2Z.id.
    + pose proof (len_nonneg (snd c)). simpl. lia.
Qed.

(** *** Writing the file *)

Lemma write_header_ok (dest : bytes) (chunks : list payload) (out : bytes) :
  write_header dest chunks = Ok out ->
  form_size chunks <= 0xFFFFFFFF
  /\ out = dest ++ lit "FORM" ++ big_endian 4 (form_size chunks) ++ lit "LWO2".
Proof.
  unfold write_header. cbv zeta.
  replace (sum (map payload_len chunks) + len chunks * 8 + len (py "FORM"))
    with (form_size chunks)
    by (unfold form_size; change (len (py "FORM")) with 4; ring).
  intros H. apply bind_ok in H. destruct H as (size & Hs & H).
  apply pack_L_ok in Hs. destruct Hs as [Hr ->]. injection H as <-.
  split; [lia | reflexivity].
Qed.

Lemma write_header_in_range (dest : bytes) (chunks : list payload) :
  form_size chunks <= 0xFFFFFFFF ->
  write_header dest chunks
  = Ok (dest ++ lit "FORM" ++ big_endian 4 (form_size chunks) ++ lit "LWO2").
Proof.
  intros Hr. unfold write_header. cbv zeta.
  replace (sum (map payload_len chunks) + len chunks * 8 + len (py "FORM"))
    with (form_size chunks)
    by (unfold form_size; change (len (py "FORM")) with 4; ring).
  rewrite pack_L_in_range; [reflexivity|].
  split; [|exact Hr]. unfold form_size.
  pose proof (sum_len_nonneg chunks). pose proof (len_nonneg chunks). lia.
Qed.

Lemma write_surfs_ok (ss : list bytes) (outfile out : bytes) :
  for_each ss (fun surf outfile => write_chunk outfile (py "SURF") (Bytes surf))
    outfile = Ok out ->
  out = outfile ++ flat_map chunk_bytes (map (pair "SURF"%string) ss)
  /\ Forall chunk_ok (map (pair "SURF"%string) ss).
Proof.
  revert outfile. induction ss as [|surf ss IH]; intros outfile H.
  - injection H as <-. cbn. rewrite app_nil_r. auto.
  - cbn [for_each] in H. apply bind_ok in H. destruct H as (o1 & H1 & H).
    apply write_chunk_ok in H1; [|reflexivity]. destruct H1 as [Hr ->].
    apply IH in H. destruct H as [-> F].
    cbn [map flat_map]. rewrite <- app_assoc. split; [reflexivity|].
    constructor; [|exact F]. split; [reflexivity | exact Hr].
Qed.

Lemma write_surfs_in_range (ss : list bytes) (outfile : bytes) :
  Forall (fun surf => len surf <= 0xFFFFFFFF) ss ->
  for_each ss (fun surf outfile => write_chunk outfile (py "SURF") (Bytes surf))
    outfile
  = Ok (outfile ++ flat_map chunk_bytes (map (pair "SURF"%string) ss)).
Proof.
  intros F. revert outfile.
  induction F as [|surf ss Hr _ IH]; intros outfile.
  - cbn. rewrite app_nil_r. reflexivity.
  - cbn [for_each]. rewrite write_chunk_in_range by (reflexivity || exact Hr).
    cbn [bind]. rewrite IH. cbn [map flat_map]. rewrite <- app_assoc. reflexivity.
Qed.

Lemma file_chunks_payloads tb css ss :
  map (fun c : chunk => Bytes (snd c)) (file_chunks tb css ss)
  = Bytes tb :: map (fun c : chunk => Bytes (snd c)) (List.concat css) ++ map Bytes ss.
Proof.
  unfold file_chunks. cbn [map snd]. rewrite map_app, map_map. reflexivity.
Qed.

Lemma file_chunks_tags tb css ss :
  Forall (fun c : chunk => In (fst c) written_tags) (List.concat css) ->
  Forall (fun c : chunk => In (fst c) written_tags) (file_chunks tb css ss).
Proof.
  intros F. unfold file_chunks. constructor; [cbn; auto 10|].
  apply Forall_app. split; [exact F|].
  apply Forall_forall. intros c Hc. apply in_map_iff in Hc.
  destruct Hc as (d & <- & _). cbn. auto 10.
Qed.

Lemma written_size (header : bytes) (cs : list chunk) :
  len header = 12 ->
  Forall chunk_ok cs ->
  len (header ++ flat_map chunk_bytes cs)
  = form_size (map (fun c => Bytes (snd c)) cs) + 8.
Proof.
  intros Hh F. rewrite len_app, Hh, chunks_bytes_len by exact F.
  unfold form_size. rewrite map_map, len_map. cbv beta. lia.
Qed.

Lemma payload_len_le_sum (c : payload) (chunks : list payload) :
  In c chunks -> payload_len c <= sum (map payload_len chunks).
Proof.
  induction chunks as [|d chunks IH]; intros Hin; [contradiction|].
  cbn [map]. rewrite sum_cons. pose proof (sum_len_nonneg chunks).
  assert (0 <= payload_len d) by (destruct d; apply len_nonneg).
  destruct Hin as [->|Hin]; [lia|]. apply IH in Hin. lia.
Qed.

Lemma payload_len_le_form_size (c : payload) (chunks : list payload) :
  In c chunks -> payload_len c <= form_size chunks.
Proof.
  intros Hin. apply payload_len_le_sum in Hin. unfold form_size.
  pose proof (len_nonneg chunks). lia.
Qed.

(** the file the [with open] block writes, when no clip is pending *)
Lemma write_file_ok self tags st css outfile :
  clips self = [] ->
  chunks st = tags :: map (fun c : chunk => Bytes (snd c)) (List.concat css)
              ++ map Bytes (surfs st) ->
  meshdata st = flat_map chunk_bytes (List.concat css) ->
  Forall chunk_ok (List.concat css) ->
  write_file self tags st = Ok outfile ->
  exists tb,
    tags = Bytes tb
    /\ form_size (chunks st) <= 0xFFFFFFFF
    /\ outfile = (lit "FORM" ++ big_endian 4 (form_size (chunks st)) ++ lit "LWO2")
                 ++ flat_map chunk_bytes (file_chunks tb css (surfs st))
    /\ Forall chunk_ok (file_chunks tb css (surfs st)).
Proof.
  intros Hc Hch Hmd F H. unfold write_file in H. rewrite Hc in H.
  apply bind_ok in H. destruct H as (o1 & H1 & H).
  apply write_header_ok in H1. destruct H1 as [Hr ->].
  apply bind_ok in H. destruct H as (o2 & H2 & H).
  destruct tags as [tb|s].
  2:{ unfold write_chunk in H2. apply bind_ok in H2. destruct H2 as (? & _ & H2).
      apply bind_ok in H2. destruct H2 as (? & _ & H2). discriminate. }
  apply write_chunk_ok in H2; [|reflexivity]. destruct H2 as [Hrt ->].
  cbn [for_each bind] in H.
  apply write_surfs_ok in H. destruct H as [-> Fs].
  exists tb. split; [reflexivity|]. split; [exact Hr|]. split.
  - unfold file_chunks. cbn [flat_map]. rewrite flat_map_app, Hmd.
    cbn [app]. rewrite <- !app_assoc. reflexivity.
  - unfold file_chunks. constructor; [split; [reflexivity | exact Hrt]|].
    apply Forall_app. split; assumption.
Qed.

Lemma write_file_in_range self tb st css :
  clips self = [] ->
  chunks st = Bytes tb :: map (fun c : chunk => Bytes (snd c)) (List.concat css)
              ++ map Bytes (surfs st) ->
  meshdata st = flat_map chunk_bytes (List.concat css) ->
  form_size (chunks st) <= 0xFFFFFFFF ->
  write_file self (Bytes tb) st
  = Ok ((lit "FORM" ++ big_endian 4 (form_size (chunks st)) ++ lit "LWO2")
        ++ flat_map chunk_bytes (file_chunks tb css (surfs st))).
Proof.
  intros Hc Hch Hmd Hr. unfold write_file. rewrite Hc.
  rewrite write_header_in_range by exact Hr. cbn [bind].
  assert (Hin : forall c, In c (chunks st) -> payload_len c <= 0xFFFFFFFF).
  { intros c Hin. apply payload_len_le_form_size in Hin. lia. }
  rewrite write_chunk_in_range; [|reflexivity|].
  2:{ apply (Hin (Bytes tb)). rewrite Hch. left. reflexivity. }
  cbn [bind for_each]. rewrite write_surfs_in_range.
  2:{ apply Forall_forall. intros surf Hs. apply (Hin (Bytes surf)).
      rewrite Hch. right. apply in_or_app. right. apply in_map, Hs. }
  f_equal. unfold file_chunks. cbn [flat_map]. rewrite flat_map_app, Hmd.
  cbn [app]. rewrite <- !app_assoc. reflexivity.
Qed.

(** *** Lists and indices *)

Lemma getitem_nth {A} (l : list A) (k : nat) (d : A) :
  (k < List.length l)%nat -> getitem l (Z.of_nat k) = Ok (nth k l d).
Proof.
  intros Hk. unfold getitem.
  destruct (Z.ltb_spec (Z.of_nat k) 0); [lia|].
  destruct (Z.ltb_spec (Z.of_nat k) 0); [lia|].
  rewrite Nat2Z.id.
  destruct (nth_error l k) as [a|] eqn:E.
  - rewrite (nth_error_nth _ _ d E). reflexivity.
  - apply nth_error_None in E. lia.
Qed.

Lemma pack_H_in_range (x : Z) : 0 <= x <= 0xFFFF -> pack_H x = Ok (big_endian 2 x).
Proof.
  intros H. unfold pack_H.
  replace ((0 <=? x) && (x <=? 0xFFFF)) with true; [reflexivity|].
  symmetry. apply andb_true_iff. split; apply Z.leb_le; lia.
Qed.

Lemma pack_H_ok (x : Z) (b : bytes) :
  pack_H x = Ok b -> 0 <= x <= 0xFFFF /\ b = big_endian 2 x.
Proof.
  unfold pack_H. destruct (andb _ _) eqn:E; [|discriminate].
  intros H. injection H as <-. apply andb_true_iff in E. destruct E as [E1 E2].
  apply Z.leb_le in E1, E2. auto.
Qed.

Lemma map_nth_seq {A} (l : list A) (d : A) :
  map (fun k => nth k l d) (seq 0 (List.length l)) = l.
Proof.
  induction l as [|x l IH]; [reflexivity|].
  cbn [List.length seq map nth]. f_equal.
  rewrite <- seq_shift, map_map. exact IH.
Qed.

Lemma flat_map_map {A B C} (f : B -> list C) (h : A -> B) (l : list A) :
  flat_map f (map h l) = flat_map (fun x => f (h x)) l.
Proof. induction l as [|x l IH]; simpl; congruence. Qed.

Lemma flat_map_nil {A B} (f : A -> list B) (l : list A) :
  (forall x, In x l -> f x = []) -> flat_map f l = [].
Proof.
  induction l as [|x l IH]; intros H; [reflexivity|]. cbn [flat_map].
  rewrite (H x) by (left; reflexivity).
  rewrite IH by (intros y Hy; apply H; right; exact Hy). reflexivity.
Qed.

Lemma flat_map_filter {A B} (p : A -> bool) (g : A -> list B) (l : list A) :
  flat_map (fun x => if p x then g x else []) l = flat_map g (filter p l).
Proof.
  induction l as [|x l IH]; [reflexivity|]. simpl.
  destruct (p x); simpl; congruence.
Qed.

Lemma combine_snd {A B} (l1 : list A) (l2 : list B) :
  List.length l1 = List.length l2 -> map snd (combine l1 l2) = l2.
Proof.
  revert l2. induction l1 as [|x l1 IH]; intros [|y l2] H; try discriminate.
  - reflexivity.
  - simpl. f_equal. apply IH. simpl in H. lia.
Qed.

Lemma enumerate_snd {A} (l : list A) : map snd (enumerate l) = l.
Proof.
  unfold enumerate. apply combine_snd. rewrite length_map, length_seq. reflexivity.
Qed.

(** the vertices of a polygon, written last to first *)
Lemma reversed_indices (p_vi : list Z) (data : bytes) :
  Forall (fun v => 0 <= v <= 0xFFFFFFFF) p_vi ->
  for_each (rev (map Z.of_nat (seq 0 (Z.to_nat (len p_vi)))))
    (fun j data => vj <- getitem p_vi j ;; b <- generate_vx vj ;; Ok (data ++ b))
    data
  = Ok (data ++ flat_map vx_bytes (rev p_vi)).
Proof.
  intros F. unfold len. rewrite Nat2Z.id.
  rewrite (for_each_emit _ _ (fun j => vx_bytes (nth (Z.to_nat j) p_vi 0))).
  - f_equal. f_equal. rewrite <- (flat_map_map vx_bytes (fun j => nth (Z.to_nat j) p_vi 0)).
    rewrite map_rev, map_map. f_equal. f_equal.
    transitivity (map (fun k => nth k p_vi 0) (seq 0 (List.length p_vi)));
      [|apply map_nth_seq].
    apply map_ext. intros k. rewrite Nat2Z.id. reflexivity.
  - intros j Hj d. apply in_rev, in_map_iff in Hj. destruct Hj as (k & <- & Hk).
    apply in_seq in Hk. rewrite (getitem_nth _ 0) by lia. cbn [bind].
    rewrite Nat2Z.id, generate_vx_ok; [reflexivity|].
    rewrite Forall_forall in F. apply F, nth_In. lia.
Qed.

(** *** Surface indices *)

Lemma str_eqb_eq (a b : str) : str_eqb a b = true <-> a = b.
Proof.
  unfold str_eqb. destruct (list_eq_dec Z.eq_dec a b); split; congruence.
Qed.

Lemma list_index_first (names : list str) (name : str) (k : Z) :
  list_index str_eqb names name = Ok k -> first_position names name k.
Proof.
  revert k. induction names as [|n names IH]; intros k H; [discriminate|].
  cbn [list_index] in H. destruct (str_eqb n name) eqn:E.
  - injection H as <-. apply str_eqb_eq in E. subst n.
    split; [lia|]. split; [reflexivity|]. intros j Hj. simpl in Hj. lia.
  - apply bind_ok in H. destruct H as (i & Hi & H). injection H as <-.
    destruct (IH i Hi) as (H0 & Hn & Hfirst).
    assert (Hs : Z.to_nat (i + 1) = S (Z.to_nat i)) by lia.
    split; [lia|]. rewrite Hs. split; [exact Hn|].
    intros [|j] Hj; cbn [nth_error].
    + intros Heq. injection Heq as ->.
      assert (str_eqb name name = true) by (apply str_eqb_eq; reflexivity).
      congruence.
    + apply Hfirst. lia.
Qed.

Lemma list_index_in (names : list str) (name : str) :
  In name names ->
  exists k, list_index str_eqb names name = Ok k /\ 0 <= k < len names.
Proof.
  induction names as [|n names IH]; intros Hin; [contradiction|].
  cbn [list_index]. rewrite len_cons. destruct (str_eqb n name) eqn:E.
  - exists 0. pose proof (len_nonneg names). split; [reflexivity | lia].
  - destruct Hin as [->|Hin].
    + assert (str_eqb name name = true) by (apply str_eqb_eq; reflexivity).
      congruence.
    + destruct (IH Hin) as (k & Hk & Hr). exists (k + 1). rewrite Hk.
      split; [reflexivity | lia].
Qed.

Lemma getitem_in {A} (l : list A) (i : Z) (x : A) : getitem l i = Ok x -> In x l.
Proof.
  unfold getitem. destruct (_ <? 0); [discriminate|].
  destruct (nth_error l _) eqn:E; [|discriminate].
  intros H. injection H as <-. eapply nth_error_In, E.
Qed.

Lemma tag_table_in (ms : list Mesh.t) (mesh : Mesh.t) (material : Material.t) :
  In mesh ms -> In (Some material) (Mesh.materials mesh) ->
  In (Material.name material) (tag_table ms).
Proof.
  intros Hm Hs. unfold tag_table. apply in_flat_map. exists mesh. split; [exact Hm|].
  apply in_flat_map. exists (Some material). split; [exact Hs|]. left. reflexivity.
Qed.

Ltac in_tags := cbn; repeat ((left; reflexivity) || right).

Ltac solve_forall :=
  repeat first [ apply Forall_nil | apply Forall_cons | split | (cbn; lia) ].

(** *** The order of floats *)

Lemma SFltb_trans (a b c : spec_float) :
  SFltb a b = true -> SFltb b c = true -> SFltb a c = true.
Proof.
  unfold SFltb, SFcompare.
  destruct a as [sa|sa| |sa ma ea], b as [sb|sb| |sb mb eb],
           c as [sc|sc| |sc mc ec];
    repeat match goal with s : bool |- _ => destruct s end;
    intros H1 H2; try discriminate; try reflexivity.
  all: change (Pos.compare_cont Eq) with Pos.compare in *;
    destruct (Z.compare_spec ea eb), (Z.compare_spec eb ec),
             (Z.compare_spec ea ec);
    try discriminate; try reflexivity; try lia;
    destruct (Pos.compare_spec ma mb), (Pos.compare_spec mb mc),
             (Pos.compare_spec ma mc);
    cbn in *; try discriminate; try reflexivity; try lia.
Qed.

Lemma ltb_trans (a b c : float) :
  PrimFloat.ltb a b = true -> PrimFloat.ltb b c = true -> PrimFloat.ltb a c = true.
Proof. rewrite !ltb_spec. apply SFltb_trans. Qed.

Lemma SFltb_irrefl (a : spec_float) : SFltb a a = false.
Proof.
  unfold SFltb, SFcompare. destruct a as [s|s| |s m e]; try destruct s; try reflexivity.
  - rewrite Z.compare_refl. change (Pos.compare_cont Eq m m) with (Pos.compare m m).
    rewrite Pos.compare_refl. reflexivity.
  - rewrite Z.compare_refl. change (Pos.compare_cont Eq m m) with (Pos.compare m m).
    rewrite Pos.compare_refl. reflexivity.
Qed.

Lemma ltb_irrefl (a : float) : PrimFloat.ltb a a = false.
Proof. rewrite ltb_spec. apply SFltb_irrefl. Qed.

(** the running minimum of Python's [min]: an element seen so far that
    none of them is below *)
Lemma running_min (rest seen : list float) (m : float) :
  minimum seen m ->
  minimum (seen ++ rest)
    (fold_left (fun m item => if PrimFloat.ltb item m then item else m) rest m).
Proof.
  revert seen m. induction rest as [|item rest IH]; intros seen m [Hin Hlow].
  - rewrite app_nil_r. split; assumption.
  - cbn [fold_left].
    replace (seen ++ item :: rest) with ((seen ++ [item]) ++ rest)
      by (rewrite <- app_assoc; reflexivity).
    apply IH. destruct (PrimFloat.ltb item m) eqn:E.
    + split; [apply in_or_app; right; left; reflexivity|].
      apply Forall_app. split.
      * rewrite Forall_forall in *. intros x Hx.
        destruct (PrimFloat.ltb x item) eqn:Ex; [|reflexivity].
        rewrite <- (Hlow x Hx). symmetry. eapply ltb_trans; eassumption.
      * constructor; [apply ltb_irrefl | constructor].
    + split; [apply in_or_app; left; exact Hin|].
      apply Forall_app. split; [exact Hlow|].
      constructor; [exact E | constructor].
Qed.

Lemma running_max (rest seen : list float) (m : float) :
  maximum seen m ->
  maximum (seen ++ rest)
    (fold_left (fun m item => if PrimFloat.ltb m item then item else m) rest m).
Proof.
  revert seen m. induction rest as [|item rest IH]; intros seen m [Hin Hup].
  - rewrite app_nil_r. split; assumption.
  - cbn [fold_left].
    replace (seen ++ item :: rest) with ((seen ++ [item]) ++ rest)
      by (rewrite <- app_assoc; reflexivity).
    apply IH. destruct (PrimFloat.ltb m item) eqn:E.
    + split; [apply in_or_app; right; left; reflexivity|].
      apply Forall_app. split.
      * rewrite Forall_forall in *. intros x Hx.
        destruct (PrimFloat.ltb item x) eqn:Ex; [|reflexivity].
        rewrite <- (Hup x Hx). symmetry. eapply ltb_trans; eassumption.
      * constructor; [apply ltb_irrefl | constructor].
    + split; [apply in_or_app; left; exact Hin|].
      apply Forall_app. split; [exact Hup|].
      constructor; [exact E | constructor].
Qed.

(** [min] and [max] of a non-empty list do not raise *)
Lemma py_min_ok (l : list float) :
  l <> [] -> exists m, py_min l = Ok m /\ minimum l m.
Proof.
  destruct l as [|x rest]; [congruence|]. intros _. eexists. split; [reflexivity|].
  apply (@running_min rest [x] x). split; [left; reflexivity|].
  constructor; [apply ltb_irrefl | constructor].
Qed.

Lemma py_max_ok (l : list float) :
  l <> [] -> exists m, py_max l = Ok m /\ maximum l m.
Proof.
  destruct l as [|x rest]; [congruence|]. intros _. eexists. split; [reflexivity|].
  apply (@running_max rest [x] x). split; [left; reflexivity|].
  constructor; [apply ltb_irrefl | constructor].
Qed.

(** *** Packing floats *)

Lemma pack_f_ok (x : float) (b : bytes) : pack_f x = Ok b -> b = f32_bytes x.
Proof.
  unfold pack_f. destruct (f32_overflow x); intros H; [discriminate|].
  injection H as <-. reflexivity.
Qed.

Lemma f32_bytes_length (x : float) : List.length (f32_bytes x) = 4%nat.
Proof. apply big_endian_length. Qed.

Lemma floats_length (l : list float) :
  List.length (flat_map f32_bytes l) = (4 * List.length l)%nat.
Proof.
  induction l as [|x l IH]; [reflexivity|].
  cbn [flat_map List.length]. rewrite length_app, f32_bytes_length, IH. lia.
Qed.

Lemma pack_floats_ok (l : list float) (b : bytes) :
  pack_floats l = Ok b -> Forall packable l /\ b = flat_map f32_bytes l.
Proof.
  revert b. induction l as [|x l IH]; intros b H.
  - injection H as <-. split; [constructor | reflexivity].
  - cbn [pack_floats] in H. apply bind_ok in H. destruct H as (bx & Hx & H).
    apply bind_ok in H. destruct H as (bs & Hs & H). injection H as <-.
    destruct (IH _ Hs) as [F ->]. pose proof (pack_f_ok _ Hx) as ->.
    split; [constructor; assumption | reflexivity].
Qed.

Lemma pack_floats_in_range (l : list float) :
  Forall packable l -> pack_floats l = Ok (flat_map f32_bytes l).
Proof.
  induction 1 as [|x l Hx _ IH]; [reflexivity|].
  cbn [pack_floats flat_map]. rewrite Hx. cbn [bind]. rewrite IH. reflexivity.
Qed.

Lemma for_each_ok_each {A S} (l : list A) (body : A -> S -> result S) (s s' : S) :
  for_each l body s = Ok s' ->
  Forall (fun x => exists s1 s2, body x s1 = Ok s2) l.
Proof.
  revert s. induction l as [|x l IH]; intros s H; [constructor|].
  cbn [for_each] in H. apply bind_ok in H. destruct H as (s1 & H1 & H).
  constructor; [eauto | eapply IH, H].
Qed.

(** when the points of a mesh were written, every scaled coordinate fits
    binary32 *)
Lemma generate_pnts_packable (self : LwoExport) (mesh : Mesh.t) (pnts : bytes) :
  generate_pnts self mesh = Ok pnts ->
  Forall (fun co : vec3 =>
            packable (PrimFloat.mul (fst (fst co)) (option_scale self))
            /\ packable (PrimFloat.mul (snd (fst co)) (option_scale self))
            /\ packable (PrimFloat.mul (snd co) (option_scale self)))
    (Mesh.vertices mesh).
Proof.
  unfold generate_pnts. intros H. apply for_each_ok_each in H.
  eapply Forall_impl; [|exact H]. cbv beta.
  intros [[x y] z] (s1 & s2 & Hb). cbn [fst snd].
  apply bind_ok in Hb. destruct Hb as (b & Hb & _).
  apply pack_floats_ok in Hb. destruct Hb as [F _].
  inversion F as [|? ? Hx F1]; subst. inversion F1 as [|? ? Hz F2]; subst.
  inversion F2 as [|? ? Hy _]; subst. auto.
Qed.

(** C9: the bounding-box block consists of six big-endian f32 values, the
    minima of the scaled x, z and y coordinates and then their maxima;
    [min] and [max] never see an empty list, and for a mesh with no
    vertices the six values are 0.  The block is written whenever the six
    values fit binary32, which they do once the points of the mesh, the
    same scaled coordinates, have been packed. *)
Theorem generate_bbox_block (self : LwoExport) (mesh : Mesh.t) :
  exists x0 z0 y0 x1 z1 y1,
    (let '(xx, yy, zz) := bbox_axes self mesh in
     minimum xx x0 /\ minimum zz z0 /\ minimum yy y0
     /\ maximum xx x1 /\ maximum zz z1 /\ maximum yy y1)
    /\ generate_bbox self mesh = pack_floats [x0; z0; y0; x1; z1; y1]
    /\ (forall b, generate_bbox self mesh = Ok b ->
          b = flat_map f32_bytes [x0; z0; y0; x1; z1; y1]
          /\ List.length b = 24%nat)
    /\ (forall pnts, generate_pnts self mesh = Ok pnts ->
          generate_bbox self mesh
          = Ok (flat_map f32_bytes [x0; z0; y0; x1; z1; y1]))
    /\ (Mesh.vertices mesh <> [] ->
        bbox_axes self mesh
        = (map (fun co => PrimFloat.mul (fst (fst co)) (option_scale self))
             (Mesh.vertices mesh),
           map (fun co => PrimFloat.mul (snd (fst co)) (option_scale self))
             (Mesh.vertices mesh),
           map (fun co => PrimFloat.mul (snd co) (option_scale self))
             (Mesh.vertices mesh)))
    /\ (Mesh.vertices mesh = [] ->
        [x0; z0; y0; x1; z1; y1] = repeat 0.0%float 6
        /\ generate_bbox self mesh = Ok (repeat x00 24)).
Proof.
  assert (Hlen : forall l b, pack_floats l = Ok b -> List.length l = 6%nat ->
                             List.length b = 24%nat).
  { intros l b Hb Hl. apply pack_floats_ok in Hb. destruct Hb as [_ Hb].
    rewrite Hb, floats_length, Hl. reflexivity. }
  unfold generate_bbox, bbox_axes.
  destruct (Mesh.vertices mesh) as [|co cos] eqn:Ev.
  - exists 0.0%float, 0.0%float, 0.0%float, 0.0%float, 0.0%float, 0.0%float.
    cbn [truthy].
    assert (Hm : minimum [0.0%float] 0.0%float)
      by (split; [left; reflexivity | constructor; [apply ltb_irrefl | constructor]]).
    assert (HM : maximum [0.0%float] 0.0%float)
      by (split; [left; reflexivity | constructor; [apply ltb_irrefl | constructor]]).
    assert (E : (x0 <- py_min [0.0%float] ;; z0 <- py_min [0.0%float] ;;
                 y0 <- py_min [0.0%float] ;; x1 <- py_max [0.0%float] ;;
                 z1 <- py_max [0.0%float] ;; y1 <- py_max [0.0%float] ;;
                 pack_floats [x0; z0; y0; x1; z1; y1])
                = pack_floats (repeat 0.0%float 6)) by reflexivity.
    rewrite E.
    assert (Z0 : pack_floats (repeat 0.0%float 6) = Ok (repeat x00 24))
      by (vm_compute; reflexivity).
    split; [exact (conj Hm (conj Hm (conj Hm (conj HM (conj HM HM)))))|].
    split; [reflexivity|].
    split.
    { intros b Hb. split; [|eapply Hlen; [exact Hb | reflexivity]].
      apply pack_floats_ok in Hb. apply Hb. }
    split.
    { intros pnts _. apply pack_floats_in_range.
      pose proof (pack_floats_ok _ Z0) as [F _]. exact F. }
    split; [congruence|]. intros _. split; [reflexivity | exact Z0].
  - cbn [truthy].
    set (xx := map (fun co => PrimFloat.mul (fst (fst co)) (option_scale self)) (co :: cos)).
    set (yy := map (fun co => PrimFloat.mul (snd (fst co)) (option_scale self)) (co :: cos)).
    set (zz := map (fun co => PrimFloat.mul (snd co) (option_scale self)) (co :: cos)).
    destruct (@py_min_ok xx) as (x0 & Ex0 & Hx0); [discriminate|].
    destruct (@py_min_ok zz) as (z0 & Ez0 & Hz0); [discriminate|].
    destruct (@py_min_ok yy) as (y0 & Ey0 & Hy0); [discriminate|].
    destruct (@py_max_ok xx) as (x1 & Ex1 & Hx1); [discriminate|].
    destruct (@py_max_ok zz) as (z1 & Ez1 & Hz1); [discriminate|].
    destruct (@py_max_ok yy) as (y1 & Ey1 & Hy1); [discriminate|].
    exists x0, z0, y0, x1, z1, y1.
    rewrite Ex0, Ez0, Ey0, Ex1, Ez1, Ey1. cbn [bind].
    split; [exact (conj Hx0 (conj Hz0 (conj Hy0 (conj Hx1 (conj Hz1 Hy1)))))|].
    split; [reflexivity|].
    split.
    { intros b Hb. split; [|eapply Hlen; [exact Hb | reflexivity]].
      apply pack_floats_ok in Hb. apply Hb. }
    split.
    { intros pnts Hp. apply generate_pnts_packable in Hp. rewrite Ev in Hp.
      assert (Px : forall x, In x xx -> packable x).
      { intros x Hx. apply in_map_iff in Hx. destruct Hx as (c & <- & Hc).
        rewrite Forall_forall in Hp. apply (Hp c Hc). }
      assert (Py : forall x, In x yy -> packable x).
      { intros x Hx. apply in_map_iff in Hx. destruct Hx as (c & <- & Hc).
        rewrite Forall_forall in Hp. apply (Hp c Hc). }
      assert (Pz : forall x, In x zz -> packable x).
      { intros x Hx. apply in_map_iff in Hx. destruct Hx as (c & <- & Hc).
        rewrite Forall_forall in Hp. apply (Hp c Hc). }
      apply pack_floats_in_range.
      repeat (apply Forall_cons || apply Forall_nil);
        [apply Px, Hx0 | apply Pz, Hz0 | apply Py, Hy0
        | apply Px, Hx1 | apply Pz, Hz1 | apply Py, Hy1]. }
    split; [reflexivity | discriminate].
Qed.

(** *** Corners *)

Lemma truthy_app {A} (l1 l2 : list A) : truthy (l1 ++ l2) = truthy l1 || truthy l2.
Proof. destruct l1; reflexivity. Qed.

(** a loop that appends the entries [ent x] and records whether there was
    one *)
Lemma for_each_entries {A} (l : list A) (body : A -> bytes * bool -> result (bytes * bool))
    (ent : A -> list bytes) :
  (forall x, In x l -> forall d f,
     body x (d, f) = Ok (d ++ List.concat (ent x), f || truthy (ent x))) ->
  forall d f,
    for_each l body (d, f)
    = Ok (d ++ List.concat (flat_map ent l), f || truthy (flat_map ent l)).
Proof.
  induction l as [|x l IH]; intros H d f.
  - cbn. rewrite app_nil_r, orb_false_r. reflexivity.
  - cbn [for_each flat_map]. rewrite (H x) by (left; reflexivity). cbn [bind].
    rewrite IH by (intros y Hy; apply H; right; exact Hy).
    rewrite concat_app, truthy_app, app_assoc, orb_assoc. reflexivity.
Qed.

Lemma getitem_Z {A} (l : list A) (i : Z) (d : A) :
  0 <= i < len l -> getitem l i = Ok (nth (Z.to_nat i) l d).
Proof.
  intros H. rewrite <- (Z2Nat.id i) at 1 by lia.
  apply getitem_nth. unfold len in H. lia.
Qed.

(** the loop indices of a polygon, as a list *)
Lemma loop_indices_nth (p : MeshPolygon.t) (j : nat) :
  (j < Z.to_nat (MeshPolygon.loop_total p))%nat ->
  nth_error (MeshPolygon.loop_indices p) j
  = Some (MeshPolygon.loop_start p + Z.of_nat j).
Proof.
  intros H. unfold MeshPolygon.loop_indices.
  rewrite nth_error_map, nth_error_seq.
  apply Nat.ltb_lt in H. rewrite H. reflexivity.
Qed.

Lemma loop_indices_length (p : MeshPolygon.t) :
  List.length (MeshPolygon.loop_indices p) = Z.to_nat (MeshPolygon.loop_total p).
Proof. unfold MeshPolygon.loop_indices. rewrite length_map, length_seq. reflexivity. Qed.

(** the position of a loop in the doubled list is the corner it belongs to *)
Lemma list_index_loop (s : Z) (n a k : nat) (rest : list Z) :
  (k < n)%nat ->
  list_index Z.eqb (map (fun j => s + Z.of_nat j) (seq a n) ++ rest)
    (s + Z.of_nat (a + k))
  = Ok (Z.of_nat k).
Proof.
  revert a k. induction n as [|n IH]; intros a k Hk; [lia|].
  cbn [seq map app list_index].
  destruct k as [|k].
  - rewrite Nat.add_0_r, Z.eqb_refl. reflexivity.
  - destruct (Z.eqb_spec (s + Z.of_nat a) (s + Z.of_nat (a + S k))); [lia|].
    replace (a + S k)%nat with (S a + k)%nat by lia.
    rewrite IH by lia. cbn [bind]. f_equal. lia.
Qed.

(** the doubled list of loop indices, read at any position *)
Lemma searchl_nth (p : MeshPolygon.t) (j : Z) :
  0 < MeshPolygon.loop_total p ->
  0 <= j < 2 * MeshPolygon.loop_total p ->
  getitem (MeshPolygon.loop_indices p ++ MeshPolygon.loop_indices p) j
  = Ok (MeshPolygon.loop_start p + j mod MeshPolygon.loop_total p).
Proof.
  intros Hn Hj. set (n := MeshPolygon.loop_total p) in *.
  unfold getitem. destruct (Z.ltb_spec j 0); [lia|].
  destruct (Z.ltb_spec j 0); [lia|].
  destruct (Z.ltb_spec j n).
  - rewrite nth_error_app1 by (rewrite loop_indices_length; fold n; lia).
    rewrite loop_indices_nth by (fold n; lia).
    rewrite Z.mod_small by lia. rewrite Z2Nat.id by lia. reflexivity.
  - rewrite nth_error_app2 by (rewrite loop_indices_length; fold n; lia).
    rewrite loop_indices_length. fold n.
    rewrite loop_indices_nth by (fold n; lia).
    replace (j mod n) with (j - n).
    + f_equal. f_equal. lia.
    + apply (Z.mod_unique j n 1 (j - n)); [left; lia | lia].
Qed.

Lemma getitem_negative {A} (l : list A) (i : Z) :
  i < 0 -> 0 <= len l + i -> getitem l i = getitem l (len l + i).
Proof.
  intros Hi Hj. unfold getitem. cbv zeta.
  apply Z.ltb_lt in Hi. rewrite Hi.
  assert (E : (len l + i <? 0) = false) by (apply Z.ltb_ge; lia).
  rewrite !E. reflexivity.
Qed.

Lemma corner_loop_range (p : MeshPolygon.t) (j : Z) :
  0 < MeshPolygon.loop_total p ->
  MeshPolygon.loop_start p <= corner_loop p j
  < MeshPolygon.loop_start p + MeshPolygon.loop_total p.
Proof.
  intros Hn. unfold corner_loop.
  pose proof (Z.mod_pos_bound j (MeshPolygon.loop_total p) Hn). lia.
Qed.

(** the neighbours of corner [k] in the doubled list are the previous and
    the next corner around the polygon *)
Lemma searchl_neighbour (p : MeshPolygon.t) (k j : Z) :
  0 <= k < MeshPolygon.loop_total p ->
  j = k - 1 \/ j = k + 1 ->
  getitem (MeshPolygon.loop_indices p ++ MeshPolygon.loop_indices p) j
  = Ok (corner_loop p j).
Proof.
  intros Hk Hj. unfold corner_loop.
  destruct (Z.ltb_spec j 0) as [Hneg|Hpos].
  - assert (j = -1) by lia. subst j.
    rewrite getitem_negative; [| lia |].
    + unfold len. rewrite length_app, loop_indices_length.
      rewrite searchl_nth by lia. f_equal. f_equal.
      replace (Z.of_nat (Z.to_nat (MeshPolygon.loop_total p)
                         + Z.to_nat (MeshPolygon.loop_total p)) + -1)
        with (-1 + 2 * MeshPolygon.loop_total p) by lia.
      apply Z.mod_add. lia.
    + unfold len. rewrite length_app, loop_indices_length. lia.
  - apply searchl_nth; lia.
Qed.

Lemma getitem_uv (l : MeshUVLoopLayer.t) (p : MeshPolygon.t) (j : Z) :
  0 <= MeshPolygon.loop_start p ->
  0 < MeshPolygon.loop_total p ->
  MeshPolygon.loop_start p + MeshPolygon.loop_total p
  <= len (MeshUVLoopLayer.data l) ->
  getitem (MeshUVLoopLayer.data l) (corner_loop p j) = Ok (uv_at l (corner_loop p j)).
Proof.
  intros Hs Hn Hd. pose proof (corner_loop_range p j Hn).
  apply getitem_Z. lia.
Qed.

Lemma combine_seq {A B} (l1 : list A) (g : nat -> B) (d : A) (a : nat) :
  combine l1 (map g (seq a (List.length l1)))
  = map (fun j => (nth (j - a) l1 d, g j)) (seq a (List.length l1)).
Proof.
  revert a. induction l1 as [|x l1 IH]; intros a; [reflexivity|].
  cbn [List.length seq map combine]. rewrite Nat.sub_diag. cbn [nth]. f_equal.
  rewrite IH. apply map_ext_in. intros j Hj. apply in_seq in Hj.
  replace (j - a)%nat with (S (j - S a)) by lia. reflexivity.
Qed.

Lemma for_each_map {A B S} (h : A -> B) (l : list A) (body : B -> S -> result S)
    (s : S) :
  for_each (map h l) body s = for_each l (fun x => body (h x)) s.
Proof.
  revert s. induction l as [|x l IH]; intros s; [reflexivity|].
  cbn [map for_each]. destruct (body (h x) s); cbn [bind]; [apply IH | reflexivity].
Qed.

Lemma enumerate_in {A} (l : list A) (i : Z) (x : A) :
  In (i, x) (enumerate l) -> 0 <= i < len l /\ In x l.
Proof.
  unfold enumerate. intros H. split.
  - apply in_combine_l in H. apply in_map_iff in H. destruct H as (k & <- & Hk).
    apply in_seq in Hk. unfold len. lia.
  - apply in_combine_r in H. exact H.
Qed.

(** well-formedness of a concrete scene, by evaluation *)
Ltac solve_wf :=
  repeat match goal with
    | |- _ /\ _ => split
    | |- Forall _ [] => apply Forall_nil
    | |- Forall _ (_ :: _) => apply Forall_cons
    | |- Forall _ _ =>
        progress cbn [Mesh.polygons Mesh.uv_layers MeshUVLoopLayer.data
                      MeshPolygon.vertices]
    | |- exists _, _ => eexists; vm_compute; reflexivity
    | |- packable _ => vm_compute; reflexivity
    | |- _ <= _ => vm_compute; discriminate
    | |- _ = _ => vm_compute; reflexivity
    end.

(** *** File names in batch mode *)

Lemma replace_length old new s : List.length (replace old new s) = List.length s.
Proof. apply length_map. Qed.

Lemma replace_nth old new s k c :
  nth_error s k = Some c ->
  nth_error (replace old new s) k = Some (if c =? old then new else c).
Proof. intros H. unfold replace. rewrite nth_error_map, H. reflexivity. Qed.

Lemma replace_removes old new s : old <> new -> ~ In old (replace old new s).
Proof.
  intros Hneq Hin. apply in_map_iff in Hin. destruct Hin as (c & Hc & _).
  destruct (Z.eqb_spec c old); congruence.
Qed.

Lemma replace_keeps old new s c : c <> old -> In c s -> In c (replace old new s).
Proof.
  intros Hneq Hin. apply in_map_iff. exists c. split; [|exact Hin].
  destruct (Z.eqb_spec c old); congruence.
Qed.

Section ExporterProperties.

Variable bpy_data : BlendData.t.
Variable vector_eq : vec2 -> vec2 -> bool.
Variable bm_edges : Mesh.t -> list BMEdge.t.
Variable os_path_dirname : str -> str.
Variable os_sep : str.
Variable lower : str -> str.

Lemma output_filename_batch self filename obj :
  option_batch self = true ->
  output_filename os_path_dirname os_sep lower self filename obj
  = batch_name os_path_dirname os_sep lower filename obj.
Proof.
  intros Hb. unfold output_filename, batch_name. rewrite Hb.
  destruct (endswith _ _); reflexivity.
Qed.

Lemma generate_chunks_options self lookup self' tags st :
  generate_chunks bpy_data vector_eq bm_edges self lookup = Ok (self', tags, st) ->
  self' = set_clips self [].
Proof using bpy_data vector_eq bm_edges.
  unfold generate_chunks. intros H.
  apply bind_ok in H. destruct H as ([matmeshes names] & _ & H).
  apply bind_ok in H. destruct H as (tg & _ & H).
  apply bind_ok in H. destruct H as (st' & _ & H).
  congruence.
Qed.

Lemma write_object_name self lookup filename obj self' filename' outfile :
  write_object bpy_data vector_eq bm_edges os_path_dirname os_sep lower
    self lookup filename obj = Ok (self', filename', outfile) ->
  option_batch self' = option_batch self
  /\ filename' = output_filename os_path_dirname os_sep lower self filename obj.
Proof.
  unfold write_object. intros H.
  apply bind_ok in H. destruct H as ([[self1 tags] st] & Hg & H).
  apply bind_ok in H. destruct H as (out & _ & H).
  apply generate_chunks_options in Hg. subst self1.
  injection H as <- <- _.
  unfold output_filename.
  destruct (option_batch self) eqn:E; cbn; rewrite E; split; reflexivity.
Qed.

(** C8, as amended: in batch mode the file of each exported object is named
    after the directory of the previous file name (at first, of the path
    the user chose), the separator and the object's name with its periods
    replaced by underscores; every other character of the name, a space
    too, is kept; the extension is appended unless the name, in lower
    case, ends with it already. *)
Theorem batch_file_names self lookup filename objdups files :
  option_batch self = true ->
  write_objects bpy_data vector_eq bm_edges os_path_dirname os_sep lower
    self lookup filename objdups = Ok files ->
  map fst files = batch_names os_path_dirname os_sep lower filename objdups
  /\ Forall (fun obj =>
       let name := replace 46 95 (orig_name obj) in
       List.length name = List.length (orig_name obj)
       /\ (forall k c, nth_error (orig_name obj) k = Some c ->
             nth_error name k = Some (if c =? 46 then 95 else c))
       /\ ~ In 46 name
       /\ (In 32 (orig_name obj) -> In 32 name)) objdups.
Proof.
  intros Hb H. split.
  - revert self filename files Hb H.
    induction objdups as [|obj rest IH]; intros self filename files Hb H.
    + injection H as <-. reflexivity.
    + cbn [write_objects] in H.
      apply bind_ok in H. destruct H as ([[self' filename'] outfile] & Ho & H).
      apply write_object_name in Ho. destruct Ho as (Hb' & ->).
      rewrite Hb' , Hb in H. cbn [negb] in H.
      apply bind_ok in H. destruct H as (files' & Hr & H). injection H as <-.
      rewrite output_filename_batch in * by assumption.
      cbn [map fst batch_names]. f_equal.
      apply (IH self'); [congruence | exact Hr].
  - apply Forall_forall. intros obj _. cbv zeta. repeat split.
    + apply replace_length.
    + intros k c. apply replace_nth.
    + apply replace_removes. lia.
    + apply replace_keeps. lia.
Qed.

(** *** The layout of a file *)

Lemma write_mesh_layout self lookup matmeshes material_names mesh st st' :
  write_mesh bpy_data vector_eq bm_edges self lookup matmeshes material_names
    mesh st = Ok st' ->
  exists cs,
    layer_chunks bpy_data vector_eq bm_edges self lookup material_names
      (layer_index st) mesh = Ok cs
    /\ chunks st' = chunks st ++ map (fun c => Bytes (snd c)) cs
    /\ meshdata st' = meshdata st ++ flat_map chunk_bytes cs
    /\ layer_index st' = layer_index st + 1
    /\ Forall chunk_ok cs
    /\ Forall (fun c => In (fst c) written_tags) cs.
Proof using bpy_data vector_eq bm_edges.
  unfold write_mesh. intros H.
  apply bind_ok in H. destruct H as (surfs' & _ & H).
  apply bind_ok in H. destruct H as (name & Hname & H).
  apply bind_ok in H. destruct H as (layr & Hlayr & H).
  apply bind_ok in H. destruct H as (pnts & Hpnts & H).
  apply bind_ok in H. destruct H as (bbox & Hbbox & H).
  apply bind_ok in H. destruct H as (pols & Hpols & H).
  apply bind_ok in H. destruct H as (ptag & Hptag & H).
  apply bind_ok in H. destruct H as (uvs & Huvs & H).
  apply bind_ok in H. destruct H as (st1 & H1 & H).
  apply bind_ok in H. destruct H as (st2 & H2 & H).
  apply bind_ok in H. destruct H as (st3 & H3 & H).
  apply bind_ok in H. destruct H as (st4 & H4 & H).
  apply bind_ok in H. destruct H as (st5 & H5 & H).
  apply bind_ok in H. destruct H as (st6 & H6 & H).
  apply bind_ok in H. destruct H as (st7 & H7 & H).
  injection H as <-.
  apply emit_ok in H1, H2, H3, H5, H6; try reflexivity.
  assert (Hvc : exists vcs,
    (if truthy (Mesh.vertex_colors mesh) then generate_vertex_colors mesh
     else Ok []) = Ok vcs /\ emitted (map (pair "VMAD"%string) vcs) st3 st4).
  { destruct (truthy (Mesh.vertex_colors mesh)).
    - apply bind_ok in H4. destruct H4 as (vcs & Hg & H4).
      exists vcs. split; [exact Hg|]. apply emit_all_ok; auto.
    - injection H4 as <-. exists []. split; [reflexivity | apply emitted_nil]. }
  destruct Hvc as (vcs & Hvcs & E4).
  assert (E7 : emitted (map (pair "VMAD"%string) uvs) st6 st7).
  { destruct (truthy (Mesh.uv_layers mesh)).
    - apply emit_all_ok; auto.
    - injection Huvs as <-. injection H7 as <-. apply emitted_nil. }
  pose proof (emitted_trans (emitted_trans (emitted_trans (emitted_trans
    (emitted_trans (emitted_trans H1 H2) H3) E4) H5) H6) E7) as E.
  destruct E as (_ & EC & EM & EL & EF).
  cbn [surfs chunks meshdata layer_index] in EC, EM, EL.
  eexists. split.
  - unfold layer_chunks. rewrite Hname. cbn [bind]. rewrite Hlayr. cbn [bind].
    rewrite Hpnts. cbn [bind]. rewrite Hbbox. cbn [bind]. rewrite Hpols.
    cbn [bind]. rewrite Hptag. cbn [bind]. rewrite Huvs. cbn [bind].
    rewrite Hvcs. cbn [bind]. reflexivity.
  - cbn [surfs chunks meshdata layer_index].
    rewrite EC, EM, EL.
    repeat split.
    + f_equal. f_equal. cbn [app]. rewrite <- !app_assoc. reflexivity.
    + f_equal. f_equal. cbn [app]. rewrite <- !app_assoc. reflexivity.
    + revert EF. cbn [app]. rewrite <- !app_assoc. cbn [app]. exact (fun x => x).
    + assert (V : forall l : list bytes,
        Forall (fun c : chunk => In (fst c) written_tags) (map (pair "VMAD"%string) l)).
      { intros l. apply Forall_forall. intros c Hc. apply in_map_iff in Hc.
        destruct Hc as (d & <- & _). in_tags. }
      apply Forall_app. split.
      { apply Forall_cons; [in_tags|]. apply Forall_cons; [in_tags|].
        apply Forall_cons; [in_tags|]. apply Forall_nil. }
      apply Forall_app. split; [apply V|].
      apply Forall_app. split; [|apply V].
      apply Forall_cons; [in_tags|]. apply Forall_cons; [in_tags|].
      apply Forall_nil.
Qed.

Lemma write_meshes_layout self lookup matmeshes material_names ms st st' :
  for_each ms
    (write_mesh bpy_data vector_eq bm_edges self lookup matmeshes material_names)
    st = Ok st' ->
  exists css,
    layers_chunks bpy_data vector_eq bm_edges self lookup material_names
      (layer_index st) ms = Ok css
    /\ chunks st' = chunks st ++ map (fun c => Bytes (snd c)) (List.concat css)
    /\ meshdata st' = meshdata st ++ flat_map chunk_bytes (List.concat css)
    /\ Forall chunk_ok (List.concat css)
    /\ Forall (fun c => In (fst c) written_tags) (List.concat css).
Proof using bpy_data vector_eq bm_edges.
  revert st. induction ms as [|mesh ms IH]; intros st H.
  - injection H as <-. exists []. cbn. rewrite !app_nil_r. auto.
  - cbn [for_each] in H. apply bind_ok in H. destruct H as (st1 & H1 & H).
    apply write_mesh_layout in H1.
    destruct H1 as (cs & Hcs & C1 & M1 & L1 & F1 & T1).
    apply IH in H. destruct H as (css & Hcss & C2 & M2 & F2 & T2).
    exists (cs :: css). cbn [layers_chunks List.concat].
    rewrite Hcs. cbn [bind]. rewrite <- L1, Hcss. cbn [bind].
    rewrite C2, M2, C1, M1, map_app, flat_map_app, <- !app_assoc.
    repeat split; try reflexivity; apply Forall_app; auto.
Qed.

(** the chunks of a file and the bytes of its layers, as
    [generate_chunks] leaves them: [chunks] lists the Tag Table, the chunks
    of every layer and the surfaces; no clip is among them *)
Lemma generate_chunks_layout self lookup self' tags st :
  generate_chunks bpy_data vector_eq bm_edges self lookup = Ok (self', tags, st) ->
  exists matmeshes material_names css,
    get_used_material_names self = Ok (matmeshes, material_names)
    /\ generate_tags material_names = Ok tags
    /\ self' = set_clips self []
    /\ layers_chunks bpy_data vector_eq bm_edges (set_clips self []) lookup
         material_names 0 (meshes self) = Ok css
    /\ chunks st = tags :: map (fun c => Bytes (snd c)) (List.concat css)
                   ++ map Bytes (surfs st)
    /\ meshdata st = flat_map chunk_bytes (List.concat css)
    /\ Forall chunk_ok (List.concat css)
    /\ Forall (fun c => In (fst c) written_tags) (List.concat css).
Proof using bpy_data vector_eq bm_edges.
  unfold generate_chunks. intros H.
  apply bind_ok in H. destruct H as ([matmeshes names] & Hn & H).
  apply bind_ok in H. destruct H as (tg & Ht & H).
  apply bind_ok in H. destruct H as (st' & Hm & H).
  injection H as <- <- <-.
  apply write_meshes_layout in Hm. destruct Hm as (css & Hcss & C & M & F & T).
  cbn [chunks meshdata layer_index surfs clips set_clips] in *.
  exists matmeshes, names, css.
  repeat split; try assumption.
  rewrite C. cbn [map app]. rewrite !app_nil_r. reflexivity.
Qed.

Lemma write_object_inv self lookup filename obj self' filename' outfile :
  write_object bpy_data vector_eq bm_edges os_path_dirname os_sep lower
    self lookup filename obj = Ok (self', filename', outfile) ->
  exists tags st,
    generate_chunks bpy_data vector_eq bm_edges (turn_self self obj) lookup
      = Ok (self', tags, st)
    /\ write_file self' tags st = Ok outfile.
Proof.
  unfold write_object. fold (turn_self self obj). intros H.
  apply bind_ok in H. destruct H as ([[self1 tags] st] & Hg & H).
  apply bind_ok in H. destruct H as (out & Hw & H).
  injection H as <- _ <-. eauto.
Qed.

(** C2: the file starts with 'FORM', the big-endian u32 [formSize] and
    'LWO2', where [formSize] is the sum of the lengths of the chunk
    payloads plus 8 for each chunk plus 4, and the file is [formSize + 8]
    bytes long; the file is written whenever [formSize] fits 32 bits. *)
Theorem header_size_law self lookup filename obj :
  (forall self' filename' outfile,
     write_object bpy_data vector_eq bm_edges os_path_dirname os_sep lower
       self lookup filename obj = Ok (self', filename', outfile) ->
     exists tags st,
       generate_chunks bpy_data vector_eq bm_edges (turn_self self obj) lookup
         = Ok (self', tags, st)
       /\ form_size (chunks st)
          = sum (map payload_len (chunks st)) + 8 * len (chunks st) + 4
       /\ firstn 12 outfile
          = lit "FORM" ++ big_endian 4 (form_size (chunks st)) ++ lit "LWO2"
       /\ be_value (big_endian 4 (form_size (chunks st))) = form_size (chunks st)
       /\ len outfile = form_size (chunks st) + 8)
  /\ (forall self' tb st,
        generate_chunks bpy_data vector_eq bm_edges (turn_self self obj) lookup
          = Ok (self', Bytes tb, st) ->
        form_size (chunks st) <= 0xFFFFFFFF ->
        exists outfile,
          write_object bpy_data vector_eq bm_edges os_path_dirname os_sep lower
            self lookup filename obj
          = Ok (self',
                output_filename os_path_dirname os_sep lower self' filename obj,
                outfile)).
Proof.
  split.
  - intros self' filename' outfile H.
    apply write_object_inv in H. destruct H as (tags & st & Hg & Hw).
    exists tags, st. split; [exact Hg|]. split; [reflexivity|].
    apply generate_chunks_layout in Hg.
    destruct Hg as (mm & names & css & _ & _ & -> & _ & Hch & Hmd & F & _).
    eapply write_file_ok in Hw; eauto.
    destruct Hw as (tb & -> & Hr & -> & Fa).
    split; [|split].
    + apply firstn_prefix. rewrite !length_app, big_endian_length. reflexivity.
    + apply be_value_small. split; [|simpl; lia]. unfold form_size.
      pose proof (sum_len_nonneg (chunks st)). pose proof (len_nonneg (chunks st)). lia.
    + rewrite written_size; [| |exact Fa].
      * rewrite file_chunks_payloads, <- Hch. reflexivity.
      * unfold len. rewrite !length_app, big_endian_length. reflexivity.
  - intros self' tb st Hg Hr. unfold write_object. fold (turn_self self obj).
    rewrite Hg. cbn [bind].
    apply generate_chunks_layout in Hg.
    destruct Hg as (mm & names & css & _ & _ & -> & _ & Hch & Hmd & F & _).
    erewrite write_file_in_range; eauto. cbn [bind]. eauto.
Qed.

(** C10: the exporter leaves the list of clips empty, and a reader of a
    file it wrote meets the tags TAGS, LAYR, PNTS, BBOX, VMAD, POLS, PTAG
    and SURF only, never CLIP. *)
Theorem no_clip_chunk self lookup filename obj self' filename' outfile :
  write_object bpy_data vector_eq bm_edges os_path_dirname os_sep lower
    self lookup filename obj = Ok (self', filename', outfile) ->
  clips self' = []
  /\ exists cs : list chunk,
       skipn 12 outfile = flat_map chunk_bytes cs
       /\ read_chunks (S (List.length cs)) (skipn 12 outfile)
          = Some (map (fun c => (lit (fst c), snd c)) cs)
       /\ Forall (fun c => In (fst c) written_tags) cs
       /\ ~ In "CLIP"%string (map fst cs).
Proof.
  intros H. apply write_object_inv in H. destruct H as (tags & st & Hg & Hw).
  apply generate_chunks_layout in Hg.
  destruct Hg as (mm & names & css & _ & _ & -> & _ & Hch & Hmd & F & T).
  split; [reflexivity|].
  eapply write_file_ok in Hw; eauto.
  destruct Hw as (tb & -> & Hr & -> & Fa).
  exists (file_chunks tb css (surfs st)).
  assert (E : skipn 12 ((lit "FORM" ++ big_endian 4 (form_size (chunks st)) ++ lit "LWO2")
                        ++ flat_map chunk_bytes (file_chunks tb css (surfs st)))
              = flat_map chunk_bytes (file_chunks tb css (surfs st))).
  { apply skipn_prefix. rewrite !length_app, big_endian_length. reflexivity. }
  rewrite E. split; [reflexivity|]. split; [apply read_chunks_written, Fa|].
  pose proof (@file_chunks_tags tb css (surfs st) T) as Ft.
  split; [exact Ft|].
  intros Hin. apply in_map_iff in Hin. destruct Hin as (c & Hc & Hin).
  rewrite Forall_forall in Ft. apply Ft in Hin. rewrite Hc in Hin.
  cbn in Hin. repeat (destruct Hin as [Hin|Hin]; [discriminate|]). exact Hin.
Qed.

(** *** Polygons *)

(** C4: the POLS payload is the tag 'FACE' ('SUBD' in subpatch mode);
    then, for each polygon in mesh order, its vertex count as a u16 and its
    vertex indices in reverse of the authored order, each in the
    variable-width encoding; then, for every edge linked to no face, a u16
    of value 2 and the two vertex indices of the edge. *)
Theorem generate_pols_layout (mesh : Mesh.t) (subd : bool) :
  Forall (fun p => len (MeshPolygon.vertices p) <= 0xFFFF
                   /\ Forall (fun v => 0 <= v <= 0xFFFFFFFF) (MeshPolygon.vertices p))
    (Mesh.polygons mesh) ->
  Forall (fun e => 0 <= fst (BMEdge.verts e) <= 0xFFFFFFFF
                   /\ 0 <= snd (BMEdge.verts e) <= 0xFFFFFFFF)
    (filter loose (bm_edges mesh)) ->
  generate_pols bm_edges mesh subd
  = Ok (lit (if subd then "SUBD" else "FACE")
        ++ flat_map (fun p =>
             big_endian 2 (len (MeshPolygon.vertices p))
             ++ flat_map vx_bytes (rev (MeshPolygon.vertices p)))
           (Mesh.polygons mesh)
        ++ flat_map (fun e =>
             big_endian 2 2
             ++ vx_bytes (fst (BMEdge.verts e))
             ++ vx_bytes (snd (BMEdge.verts e)))
           (filter loose (bm_edges mesh))).
Proof.
  intros Fp Fe. unfold generate_pols.
  rewrite (for_each_emit _ _ (fun ip : Z * MeshPolygon.t =>
    big_endian 2 (len (MeshPolygon.vertices (snd ip)))
    ++ flat_map vx_bytes (rev (MeshPolygon.vertices (snd ip))))).
  2:{ intros [i p] Hin d. cbn [snd].
      assert (Hp : In p (Mesh.polygons mesh)).
      { rewrite <- (enumerate_snd (Mesh.polygons mesh)).
        apply in_map_iff. exists (i, p). auto. }
      rewrite Forall_forall in Fp. destruct (Fp p Hp) as [Hn Hv].
      rewrite pack_H_in_range by (pose proof (len_nonneg (MeshPolygon.vertices p)); lia).
      cbn [bind]. rewrite reversed_indices by exact Hv.
      rewrite <- app_assoc. reflexivity. }
  cbn [bind].
  rewrite (for_each_emit _ _ (fun e =>
    if loose e then big_endian 2 2 ++ vx_bytes (fst (BMEdge.verts e))
                    ++ vx_bytes (snd (BMEdge.verts e))
    else [])).
  2:{ intros e Hin d. fold (loose e). destruct (loose e) eqn:El.
      - rewrite Forall_forall in Fe.
        destruct (Fe e) as [H0 H1]; [apply filter_In; auto|].
        rewrite !generate_vx_ok by assumption. reflexivity.
      - rewrite app_nil_r. reflexivity. }
  rewrite (flat_map_filter loose (fun e =>
    big_endian 2 2 ++ vx_bytes (fst (BMEdge.verts e))
    ++ vx_bytes (snd (BMEdge.verts e)))), <- app_assoc.
  rewrite <- (flat_map_map (fun p => big_endian 2 (len (MeshPolygon.vertices p))
                ++ flat_map vx_bytes (rev (MeshPolygon.vertices p))) snd).
  rewrite enumerate_snd. destruct subd; reflexivity.
Qed.

(** *** Surface indices *)

Lemma layers_ptag self lookup material_names idx ms css :
  layers_chunks bpy_data vector_eq bm_edges self lookup material_names idx ms
    = Ok css ->
  Forall2 (fun mesh cs =>
             exists ptag, generate_ptag mesh material_names = Ok ptag
                          /\ In ("PTAG"%string, ptag) cs) ms css.
Proof.
  revert idx css. induction ms as [|mesh ms IH]; intros idx css H.
  - injection H as <-. constructor.
  - cbn [layers_chunks] in H. apply bind_ok in H. destruct H as (cs & Hcs & H).
    apply bind_ok in H. destruct H as (css' & Hcss & H). injection H as <-.
    constructor; [|eapply IH, Hcss].
    unfold layer_chunks in Hcs.
    apply bind_ok in Hcs. destruct Hcs as (name & _ & Hcs).
    apply bind_ok in Hcs. destruct Hcs as (layr & _ & Hcs).
    apply bind_ok in Hcs. destruct Hcs as (pnts & _ & Hcs).
    apply bind_ok in Hcs. destruct Hcs as (bbox & _ & Hcs).
    apply bind_ok in Hcs. destruct Hcs as (pols & _ & Hcs).
    apply bind_ok in Hcs. destruct Hcs as (ptag & Hptag & Hcs).
    apply bind_ok in Hcs. destruct Hcs as (uvs & _ & Hcs).
    apply bind_ok in Hcs. destruct Hcs as (vcs & _ & Hcs).
    injection Hcs as <-. exists ptag. split; [exact Hptag|].
    right. right. right. apply in_or_app. right. right. left. reflexivity.
Qed.

(** C3: for every polygon of an exported mesh, in the order of the mesh's
    polygons, the PTAG chunk holds the variable-width polygon index and, as
    a u16, the first position of the name of the polygon's material in the
    Tag Table; that table is built once for the file by
    [get_used_material_names] and is the one written as the TAGS chunk and
    handed to the PTAG chunk of every layer; for a mesh without materials
    the u16 is 0. *)
Theorem ptag_surface_index :
  (forall (self : LwoExport) matmeshes material_names mesh,
     get_used_material_names self = Ok (matmeshes, material_names) ->
     In mesh (meshes self) ->
     len material_names <= 0x10000 ->
     Forall (fun poly =>
               0 <= MeshPolygon.index poly <= 0xFFFFFFFF
               /\ exists material,
                    getitem (Mesh.materials mesh) (MeshPolygon.material_index poly)
                    = Ok (Some material))
       (Mesh.polygons mesh) ->
     generate_ptag mesh material_names
     = Ok (lit "SURF"
           ++ flat_map (fun poly =>
                vx_bytes (MeshPolygon.index poly)
                ++ big_endian 2 (surface_index mesh material_names poly))
              (Mesh.polygons mesh))
     /\ forall poly, In poly (Mesh.polygons mesh) ->
          exists material,
            getitem (Mesh.materials mesh) (MeshPolygon.material_index poly)
            = Ok (Some material)
            /\ first_position material_names (Material.name material)
                 (surface_index mesh material_names poly)
            /\ be_value (big_endian 2 (surface_index mesh material_names poly))
               = surface_index mesh material_names poly)
  /\ (forall mesh material_names,
        Mesh.materials mesh = [] ->
        Forall (fun poly => 0 <= MeshPolygon.index poly <= 0xFFFFFFFF)
          (Mesh.polygons mesh) ->
        generate_ptag mesh material_names
        = Ok (lit "SURF"
              ++ flat_map (fun poly =>
                   vx_bytes (MeshPolygon.index poly) ++ big_endian 2 0)
                 (Mesh.polygons mesh)))
  /\ (forall self lookup self' tags st,
        generate_chunks bpy_data vector_eq bm_edges self lookup = Ok (self', tags, st) ->
        exists matmeshes material_names css,
          get_used_material_names self = Ok (matmeshes, material_names)
          /\ generate_tags material_names = Ok tags
          /\ layers_chunks bpy_data vector_eq bm_edges self' lookup
               material_names 0 (meshes self) = Ok css
          /\ Forall2 (fun mesh cs =>
                 exists ptag, generate_ptag mesh material_names = Ok ptag
                              /\ In ("PTAG"%string, ptag) cs)
               (meshes self) css).
Proof using bpy_data vector_eq bm_edges.
  split; [|split].
  - intros self matmeshes material_names mesh Hn Hmesh Hlen Fp.
    apply get_used_material_names_inv in Hn. destruct Hn as (Ft & _ & ->).
    rewrite Forall_forall in Ft. pose proof (Ft mesh Hmesh) as Htruthy.
    rewrite Forall_forall in Fp.
    assert (Hpoly : forall poly, In poly (Mesh.polygons mesh) ->
      exists material k,
        getitem (Mesh.materials mesh) (MeshPolygon.material_index poly)
        = Ok (Some material)
        /\ list_index str_eqb (tag_table (meshes self)) (Material.name material) = Ok k
        /\ 0 <= k <= 0xFFFF
        /\ surface_index mesh (tag_table (meshes self)) poly = k).
    { intros poly Hp. destruct (Fp poly Hp) as (_ & material & Hg).
      destruct (list_index_in (tag_table (meshes self)) (Material.name material))
        as (k & Hk & Hr).
      { apply (tag_table_in _ _ _ Hmesh). apply getitem_in in Hg. exact Hg. }
      exists material, k. unfold surface_index. rewrite Hg, Hk.
      repeat split; try assumption; lia. }
    split.
    + unfold generate_ptag. apply for_each_emit. intros poly Hp d.
      rewrite Htruthy. destruct (Hpoly poly Hp) as (material & k & Hg & Hk & Hr & Hs).
      destruct (Fp poly Hp) as (Hi & _).
      rewrite Hg. cbn [bind]. rewrite Hk. cbn [bind].
      rewrite generate_vx_ok by exact Hi. cbn [bind].
      rewrite pack_H_in_range by exact Hr. cbn [bind]. rewrite Hs. reflexivity.
    + intros poly Hp. destruct (Hpoly poly Hp) as (material & k & Hg & Hk & Hr & Hs).
      exists material. rewrite Hs. split; [exact Hg|]. split.
      * apply list_index_first, Hk.
      * apply be_value_small. simpl. lia.
  - intros mesh material_names Hnil Fp. unfold generate_ptag.
    apply for_each_emit. intros poly Hp d. rewrite Hnil. cbn [truthy].
    rewrite Forall_forall in Fp. rewrite generate_vx_ok by (apply Fp, Hp).
    reflexivity.
  - intros self lookup self' tags st Hg. apply generate_chunks_layout in Hg.
    destruct Hg as (mm & names & css & Hn & Ht & -> & Hcss & _).
    exists mm, names, css. repeat split; try assumption.
    eapply layers_ptag, Hcss.
Qed.

(** *** UV seams *)

Lemma vmad_uv_corner_entry l i p (k : nat) d f :
  0 <= i <= 0xFFFFFFFF ->
  0 <= MeshPolygon.loop_start p ->
  (k < Z.to_nat (MeshPolygon.loop_total p))%nat ->
  Forall (fun v => 0 <= v <= 0xFFFFFFFF) (MeshPolygon.vertices p) ->
  len (MeshPolygon.vertices p) = MeshPolygon.loop_total p ->
  MeshPolygon.loop_start p + MeshPolygon.loop_total p
  <= len (MeshUVLoopLayer.data l) ->
  Forall (fun uv : vec2 => packable (fst uv) /\ packable (snd uv))
    (MeshUVLoopLayer.data l) ->
  let ent := if smooth_corner vector_eq l p (Z.of_nat k) then []
             else [uv_entry l i p (Z.of_nat k)] in
  vmad_uv_corner vector_eq l i p (nth k (MeshPolygon.vertices p) 0)
    (MeshPolygon.loop_start p + Z.of_nat k) (d, f)
  = Ok (d ++ List.concat ent, f || truthy ent).
Proof using.
  intros Hi Hs Hk Fv Hlen Hdata Fuv ent.
  assert (Hn : 0 < MeshPolygon.loop_total p) by lia.
  assert (Hloop : MeshPolygon.loop_start p + Z.of_nat k = corner_loop p (Z.of_nat k)).
  { unfold corner_loop. rewrite Z.mod_small by lia. reflexivity. }
  unfold vmad_uv_corner.
  change (MeshPolygon.loop_start p + Z.of_nat k)
    with (MeshPolygon.loop_start p + Z.of_nat (0 + k)) at 1.
  unfold MeshPolygon.loop_indices at 1.
  rewrite list_index_loop by exact Hk. cbn [bind].
  fold (MeshPolygon.loop_indices p).
  rewrite (@searchl_neighbour p (Z.of_nat k) (Z.of_nat k - 1)) by lia. cbn [bind].
  rewrite (@searchl_neighbour p (Z.of_nat k) (Z.of_nat k + 1)) by lia. cbn [bind].
  rewrite Hloop, !getitem_uv by assumption. cbn [bind].
  assert (Hskip :
    (if vector_eq (uv_at l (corner_loop p (Z.of_nat k - 1)))
          (uv_at l (corner_loop p (Z.of_nat k)))
     then Ok (vector_eq (uv_at l (corner_loop p (Z.of_nat k)))
                (uv_at l (corner_loop p (Z.of_nat k + 1))))
     else Ok false)
    = Ok (smooth_corner vector_eq l p (Z.of_nat k))).
  { unfold smooth_corner. destruct (vector_eq _ _); reflexivity. }
  rewrite Hskip. cbn [bind]. subst ent.
  destruct (smooth_corner vector_eq l p (Z.of_nat k)).
  - cbn [List.concat truthy]. rewrite app_nil_r, orb_false_r. reflexivity.
  - rewrite generate_vx_ok
      by (rewrite Forall_forall in Fv; apply Fv, nth_In; unfold len in Hlen; lia).
    cbn [bind]. rewrite generate_vx_ok by exact Hi. cbn [bind].
    assert (Hp : packable (fst (uv_at l (corner_loop p (Z.of_nat k))))
                 /\ packable (snd (uv_at l (corner_loop p (Z.of_nat k))))).
    { rewrite Forall_forall in Fuv. apply Fuv. unfold uv_at. apply nth_In.
      pose proof (corner_loop_range p (Z.of_nat k) Hn). unfold len in Hdata. lia. }
    destruct Hp as [Hp1 Hp2].
    rewrite pack_floats_in_range by (repeat constructor; assumption).
    cbn [bind flat_map List.concat truthy]. rewrite orb_true_r, !app_nil_r.
    unfold uv_entry. cbv zeta. rewrite Nat2Z.id. reflexivity.
Qed.

Lemma vmad_uv_polygon_entries l i p d f :
  0 <= i <= 0xFFFFFFFF ->
  0 <= MeshPolygon.loop_start p ->
  0 <= MeshPolygon.loop_total p ->
  Forall (fun v => 0 <= v <= 0xFFFFFFFF) (MeshPolygon.vertices p) ->
  len (MeshPolygon.vertices p) = MeshPolygon.loop_total p ->
  MeshPolygon.loop_start p + MeshPolygon.loop_total p
  <= len (MeshUVLoopLayer.data l) ->
  Forall (fun uv : vec2 => packable (fst uv) /\ packable (snd uv))
    (MeshUVLoopLayer.data l) ->
  let ents := flat_map (fun k => if smooth_corner vector_eq l p k then []
                                 else [uv_entry l i p k]) (corners p) in
  for_each (combine (MeshPolygon.vertices p) (MeshPolygon.loop_indices p))
    (fun '(v, loop) st => vmad_uv_corner vector_eq l i p v loop st) (d, f)
  = Ok (d ++ List.concat ents, f || truthy ents).
Proof using.
  intros Hi Hs Hn Fv Hlen Hdata Fuv ents.
  assert (Hl : Z.to_nat (MeshPolygon.loop_total p)
               = List.length (MeshPolygon.vertices p))
    by (unfold len in Hlen; lia).
  unfold MeshPolygon.loop_indices. rewrite Hl.
  rewrite (combine_seq _ _ 0), for_each_map.
  rewrite (for_each_entries _ _
    (fun j => if smooth_corner vector_eq l p (Z.of_nat j) then []
              else [uv_entry l i p (Z.of_nat j)])).
  - subst ents. unfold corners. rewrite Hl, flat_map_map. reflexivity.
  - intros j Hj d' f'. apply in_seq in Hj. rewrite Nat.sub_0_r.
    apply vmad_uv_corner_entry; try assumption. lia.
Qed.

(** C5: the block of a UV layer holds an entry for a corner if and only if
    the UV of the corner differs from the UV of the previous corner or from
    the UV of the next corner of its polygon; a layer without such a
    corner has no block, so a mesh whose corners all have the UV of their
    neighbours, a single triangle with one UV for instance, has none. *)
Theorem uv_seam_entries (mesh : Mesh.t) :
  uv_well_formed mesh ->
  generate_vmad_uv vector_eq mesh
  = Ok (flat_map (fun l => uv_block vector_eq l mesh) (Mesh.uv_layers mesh))
  /\ ((forall l p k, In l (Mesh.uv_layers mesh) -> In p (Mesh.polygons mesh) ->
         0 <= k < MeshPolygon.loop_total p ->
         smooth_corner vector_eq l p k = true) ->
      generate_vmad_uv vector_eq mesh = Ok []).
Proof using.
  intros (Hcount & Fp & Fl).
  assert (Main : generate_vmad_uv vector_eq mesh
    = Ok (flat_map (fun l => uv_block vector_eq l mesh) (Mesh.uv_layers mesh))).
  { unfold generate_vmad_uv. cbv zeta.
    rewrite (for_each_emit _ _ (fun l => uv_block vector_eq l mesh));
      [reflexivity|].
    intros l Hl alldata. rewrite Forall_forall in Fl.
    destruct (Fl l Hl) as ((nm & Hnm) & Fuv & Fd).
    rewrite pack_H_in_range by lia. cbn [bind]. rewrite Hnm. cbn [bind].
    rewrite (for_each_entries _ _
      (fun ip : Z * MeshPolygon.t =>
         flat_map (fun k => if smooth_corner vector_eq l (snd ip) k then []
                            else [uv_entry l (fst ip) (snd ip) k])
           (corners (snd ip)))).
    - cbn [bind orb]. fold (uv_entries vector_eq l mesh). unfold uv_block.
      unfold utf8_of. rewrite Hnm.
      destruct (truthy (uv_entries vector_eq l mesh)).
      + rewrite <- !app_assoc. reflexivity.
      + rewrite app_nil_r. reflexivity.
    - intros [i p] Hip d f. apply enumerate_in in Hip. destruct Hip as [Hi Hp].
      rewrite Forall_forall in Fp, Fd.
      destruct (Fp p Hp) as (Hs & Hn & Hlen & Fv). cbn [fst snd].
      apply vmad_uv_polygon_entries; try assumption; [lia | apply Fd, Hp]. }
  split; [exact Main|].
  intros Hsmooth. rewrite Main.
  assert (E : forall l, In l (Mesh.uv_layers mesh) -> uv_block vector_eq l mesh = []).
  { intros l Hl. unfold uv_block.
    replace (uv_entries vector_eq l mesh) with (@nil bytes); [reflexivity|].
    symmetry. unfold uv_entries. apply flat_map_nil.
    intros [i p] Hip. apply enumerate_in in Hip.
    destruct Hip as [_ Hp]. cbn [fst snd].
    apply flat_map_nil. intros k Hk.
    unfold corners in Hk. apply in_map_iff in Hk. destruct Hk as (j & <- & Hj).
    apply in_seq in Hj. rewrite Hsmooth; [reflexivity | assumption.. | lia]. }
  f_equal. apply flat_map_nil. exact E.
Qed.

(** *** Meshes without materials *)

(** an export whose first object has a mesh without materials raises,
    whatever else is exported *)
Lemma write_without_materials self filename obj rest :
  Mesh.materials (data obj) = [] ->
  write bpy_data vector_eq bm_edges os_path_dirname os_sep lower
    self filename (obj :: rest) = Raise AttributeError.
Proof using.
  intros Hnil. unfold write. cbn [write_objects]. unfold write_object, generate_chunks.
  rewrite get_used_material_names_raises; [reflexivity|].
  destruct (option_batch self) eqn:Hb; cbn [set_meshes option_batch meshes];
    rewrite ?Hb; cbn [set_meshes meshes map];
    apply Exists_cons_hd; exact Hnil.
Qed.

End ExporterProperties.

(** ** Further properties of the helper functions *)

(** *** Tags and chunk streams *)

Lemma byte_of_ascii_code (a : ascii) :
  byte_of_Z (Z.of_N (N_of_ascii a)) = byte_of_ascii a.
Proof.
  destruct a as [[] [] [] [] [] [] [] []]; vm_compute; reflexivity.
Qed.

(** an ASCII literal is encoded as its own bytes *)
Lemma utf8_ascii (name : string) :
  ascii_name name = true -> utf8 (py name) = Ok (lit name).
Proof.
  unfold ascii_name, py, lit.
  induction name as [|a name IH]; [reflexivity|].
  cbn [list_ascii_of_string forallb map utf8].
  intros H. apply andb_true_iff in H. destruct H as [Ha Hn].
  apply N.ltb_lt in Ha.
  unfold utf8_char.
  destruct (Z.ltb_spec (Z.of_N (N_of_ascii a)) 0x80); [|lia].
  cbn [bind]. rewrite (IH Hn). cbn [bind app].
  rewrite byte_of_ascii_code. reflexivity.
Qed.

Lemma lit_length (name : string) : List.length (lit name) = String.length name.
Proof.
  unfold lit. induction name as [|a name IH]; [reflexivity|].
  cbn. f_equal. exact IH.
Qed.

(** X1: a run of [write_chunk] calls under four-letter ASCII tags writes
    the chunks one after the other, each as its tag, the length of its
    payload as a big-endian u32 and the payload; a reader of that stream
    finds the same tags and payloads again.  The run succeeds exactly when
    every payload is shorter than 2^32 bytes. *)
Theorem write_chunks_read_back (cs : list (string * bytes)) :
  Forall (fun c => String.length (fst c) = 4%nat /\ ascii_name (fst c) = true) cs ->
  (forall out,
     for_each cs (fun c dest => write_chunk dest (py (fst c)) (Bytes (snd c))) []
       = Ok out ->
     out = flat_map chunk_bytes cs
     /\ read_chunks (S (List.length cs)) out
        = Some (map (fun c => (lit (fst c), snd c)) cs)
     /\ Forall (fun c => len (snd c) <= 0xFFFFFFFF) cs)
  /\ (Forall (fun c => len (snd c) <= 0xFFFFFFFF) cs ->
      for_each cs (fun c dest => write_chunk dest (py (fst c)) (Bytes (snd c))) []
      = Ok (flat_map chunk_bytes cs)).
Proof.
  intros Ftag.
  assert (Run : forall dest out,
    for_each cs (fun c dest => write_chunk dest (py (fst c)) (Bytes (snd c))) dest
      = Ok out ->
    out = dest ++ flat_map chunk_bytes cs
    /\ Forall (fun c => len (snd c) <= 0xFFFFFFFF) cs).
  { induction Ftag as [|[name data] cs [_ Ha] _ IH]; intros dest out H.
    - injection H as <-. rewrite app_nil_r. auto.
    - cbn [for_each fst snd] in H. apply bind_ok in H. destruct H as (o1 & H1 & H).
      apply write_chunk_ok in H1; [|apply utf8_ascii, Ha]. destruct H1 as [Hr ->].
      apply IH in H. destruct H as [-> F].
      cbn [flat_map]. rewrite <- app_assoc. split; [reflexivity|].
      constructor; assumption. }
  split.
  - intros out H. apply Run in H. destruct H as [-> F].
    split; [reflexivity|]. split; [|exact F].
    apply read_chunks_written.
    rewrite Forall_forall in *. intros c Hc. destruct (Ftag c Hc) as [Hl _].
    split; [rewrite lit_length; exact Hl | apply F, Hc].
  - clear Run. intros F.
    assert (G : forall dest,
      for_each cs (fun c dest => write_chunk dest (py (fst c)) (Bytes (snd c))) dest
      = Ok (dest ++ flat_map chunk_bytes cs)); [|apply (G [])].
    revert F. induction Ftag as [|[name data] cs [_ Ha] _ IH]; intros F dest.
    + cbn. rewrite app_nil_r. reflexivity.
    + inversion F as [|? ? Hr F']; subst. cbn [for_each fst snd] in *.
      rewrite write_chunk_in_range by (apply utf8_ascii, Ha || exact Hr).
      cbn [bind]. rewrite (IH F'). cbn [flat_map]. rewrite <- app_assoc. reflexivity.
Qed.

(** *** Indices *)

Lemma app_same_length {A} (a b r s : list A) :
  List.length a = List.length b -> a ++ r = b ++ s -> a = b /\ r = s.
Proof.
  revert b. induction a as [|x a IH]; intros [|y b] Hl H; try discriminate.
  - auto.
  - cbn in H. injection H as -> H. cbn in Hl.
    destruct (IH b) as [-> ->]; [lia | exact H | auto].
Qed.

Lemma big_endian_inj (n : nat) (x y : Z) :
  0 <= x < 256 ^ Z.of_nat n -> 0 <= y < 256 ^ Z.of_nat n ->
  big_endian n x = big_endian n y -> x = y.
Proof.
  intros Hx Hy E. rewrite <- (be_value_small n Hx), <- (be_value_small n Hy), E.
  reflexivity.
Qed.

(** below 2^24 the marker byte is added to the index *)
Lemma lor_marker_add (i : Z) :
  0 <= i < 0x1000000 -> Z.lor i 0xFF000000 = i + 0xFF000000.
Proof.
  intros H. rewrite <- Z.add_lor_land.
  replace (Z.land i 0xFF000000) with 0; [lia|].
  symmetry. apply Z.bits_inj'. intros n Hn.
  rewrite Z.land_spec, Z.bits_0.
  destruct (Z.ltb_spec n 24).
  - change 0xFF000000 with (Z.shiftl 255 24).
    rewrite Z.shiftl_spec_low by lia. apply andb_false_r.
  - destruct (Z.eq_dec i 0) as [->|Hi]; [rewrite Z.bits_0; reflexivity|].
    rewrite Z.bits_above_log2; [reflexivity | lia |].
    apply Z.lt_le_trans with 24; [|lia]. apply Z.log2_lt_pow2; lia.
Qed.

Lemma vx_bytes_length (i : Z) :
  List.length (vx_bytes i) = if i <? 0xFF00 then 2%nat else 4%nat.
Proof. unfold vx_bytes. destruct (i <? 0xFF00); apply big_endian_length. Qed.

(** the first byte tells the two forms apart *)
Lemma vx_bytes_head (i : Z) :
  0 <= i <= 0xFFFFFFFF ->
  (Z_of_byte (hd x00 (vx_bytes i)) =? 255) = negb (i <? 0xFF00).
Proof.
  intros H. unfold vx_bytes. destruct (Z.ltb_spec i 0xFF00).
  - cbn [big_endian hd negb]. change (8 * Z.of_nat 1) with 8.
    rewrite Z_of_byte_of_Z, Z.shiftr_div_pow2 by lia.
    assert (0 <= i / 2 ^ 8 < 255).
    { split; [apply Z.div_pos; lia | apply Z.div_lt_upper_bound; lia]. }
    rewrite Z.mod_small by lia. apply Z.eqb_neq. lia.
  - cbn [big_endian hd negb]. change (8 * Z.of_nat 3) with 24.
    rewrite Z_of_byte_of_Z, (lor_top_byte H). reflexivity.
Qed.

(** X2: the encodings of the indices below 2^24 can be told apart, also
    when more bytes follow: if two streams that start with the encoding of
    an index are equal, the indices are equal and so are the rests.  From
    [0xFF00] on, an index and the index with the top byte set are written
    as the same four bytes, so beyond 2^24 the index is not recoverable. *)
Theorem generate_vx_prefix_free (i j : Z) (a b r s : bytes) :
  0 <= i < 0x1000000 -> 0 <= j < 0x1000000 ->
  generate_vx i = Ok a -> generate_vx j = Ok b ->
  (a ++ r = b ++ s -> i = j /\ r = s)
  /\ (0xFF00 <= i -> generate_vx (Z.lor i 0xFF000000) = Ok a
                     /\ Z.lor i 0xFF000000 <> i).
Proof.
  intros Hi Hj Ha Hb.
  rewrite generate_vx_ok in Ha, Hb by lia.
  injection Ha as <-. injection Hb as <-.
  split.
  - intros E.
    assert (Hh : hd x00 (vx_bytes i) = hd x00 (vx_bytes j)).
    { pose proof (vx_bytes_length i) as Li. pose proof (vx_bytes_length j) as Lj.
      destruct (vx_bytes i) as [|x a']; [destruct (i <? 0xFF00); discriminate|].
      destruct (vx_bytes j) as [|y b']; [destruct (j <? 0xFF00); discriminate|].
      cbn in E. injection E as -> _. reflexivity. }
    assert (Hform : (i <? 0xFF00) = (j <? 0xFF00)).
    { pose proof (@vx_bytes_head i ltac:(lia)) as Bi.
      pose proof (@vx_bytes_head j ltac:(lia)) as Bj.
      rewrite Hh, Bj in Bi.
      destruct (i <? 0xFF00), (j <? 0xFF00); cbn in Bi; congruence. }
    apply app_same_length in E.
    2:{ rewrite !vx_bytes_length, Hform. reflexivity. }
    destruct E as [E ->]. split; [|reflexivity].
    unfold vx_bytes in E. rewrite <- Hform in E.
    destruct (Z.ltb_spec i 0xFF00) as [Hlow|Hhigh];
      symmetry in Hform; [apply Z.ltb_lt in Hform | apply Z.ltb_ge in Hform].
    + apply big_endian_inj in E; [exact E | simpl; lia | simpl; lia].
    + rewrite !lor_marker_add in E by lia.
      apply big_endian_inj in E; [lia | simpl; lia | simpl; lia].
  - intros Hhigh.
    assert (Hr : 0 <= Z.lor i 0xFF000000 <= 0xFFFFFFFF) by (apply lor_marker_range; lia).
    rewrite lor_marker_add in * by lia. split; [|lia].
    unfold generate_vx, vx_bytes.
    destruct (Z.ltb_spec (i + 0xFF000000) 0xFF00); [lia|].
    destruct (Z.ltb_spec i 0xFF00); [lia|].
    rewrite <- (lor_marker_add Hi), <- Z.lor_assoc, Z.lor_diag.
    apply pack_L_in_range. apply lor_marker_range. lia.
Qed.

Lemma generate_vx_raises (i : Z) :
  ~ 0 <= i <= 0xFFFFFFFF -> generate_vx i = Raise StructError.
Proof.
  intros Hn. unfold generate_vx, pack_H, pack_L.
  destruct (Z.ltb_spec i 0xFF00).
  - assert (i < 0) by lia.
    replace (0 <=? i) with false by (symmetry; apply Z.leb_gt; lia).
    reflexivity.
  - assert (Hbig : 0xFFFFFFFF < i) by lia.
    assert (Hge : i <= Z.lor i 0xFF000000).
    { pose proof (Z.add_lor_land i 0xFF000000) as E.
      assert (Z.land i 0xFF000000 <= 0xFF000000); [|lia].
      rewrite Z.land_comm.
      apply Z.ldiff_le; [lia|].
      apply Z.bits_inj'. intros n Hn'.
      rewrite Z.ldiff_spec, Z.land_spec, Z.bits_0.
      destruct (Z.testbit 0xFF000000 n), (Z.testbit i n); reflexivity. }
    replace (Z.lor i 0xFF000000 <=? 0xFFFFFFFF) with false
      by (symmetry; apply Z.leb_gt; lia).
    rewrite andb_false_r. reflexivity.
Qed.

Lemma generate_vx_inv (i : Z) (b : bytes) :
  generate_vx i = Ok b -> 0 <= i <= 0xFFFFFFFF /\ b = vx_bytes i.
Proof.
  intros H.
  assert (Hr : 0 <= i <= 0xFFFFFFFF).
  { destruct (Z_le_dec 0 i) as [H0|H0], (Z_le_dec i 0xFFFFFFFF) as [H1|H1];
      try (rewrite generate_vx_raises in H by lia; discriminate). lia. }
  split; [exact Hr|]. rewrite (generate_vx_ok Hr) in H. congruence.
Qed.

(** X3: [generate_vx] returns for the indices from 0 to 2^32 - 1 and
    for no other: a negative index and an index of 2^32 or more make
    [struct.pack] raise. *)
Theorem generate_vx_domain (i : Z) :
  ((exists b, generate_vx i = Ok b) <-> 0 <= i <= 0xFFFFFFFF)
  /\ (~ 0 <= i <= 0xFFFFFFFF -> generate_vx i = Raise StructError).
Proof.
  split; [|apply generate_vx_raises]. split.
  - intros [b Hb]. apply generate_vx_inv in Hb. apply Hb.
  - intros H. exists (vx_bytes i). apply generate_vx_ok, H.
Qed.

(** *** Names *)

Lemma utf8_app (s1 s2 : str) :
  utf8 (s1 ++ s2) = (b1 <- utf8 s1 ;; b2 <- utf8 s2 ;; Ok (b1 ++ b2)).
Proof.
  induction s1 as [|c s1 IH].
  - cbn. destruct (utf8 s2); reflexivity.
  - cbn [app utf8]. rewrite IH.
    destruct (utf8_char c) as [b|e]; [|reflexivity]. cbn [bind].
    destruct (utf8 s1) as [b1|e]; [|reflexivity]. cbn [bind].
    destruct (utf8 s2) as [b2|e]; [|reflexivity]. cbn [bind].
    rewrite app_assoc. reflexivity.
Qed.

Lemma utf8_char_width (c : Z) (b : bytes) :
  utf8_char c = Ok b -> len b = utf8_width c.
Proof.
  unfold utf8_char, utf8_width.
  destruct (c <? 0x80); [intros H; injection H as <-; reflexivity|].
  destruct (c <? 0x800); [intros H; injection H as <-; reflexivity|].
  destruct (andb _ _); [discriminate|].
  destruct (c <? 0x10000); intros H; injection H as <-; reflexivity.
Qed.

Lemma utf8_width_sum (s : str) (b : bytes) :
  utf8 s = Ok b -> len b = sum (map utf8_width s).
Proof.
  revert b. induction s as [|c s IH]; intros b H.
  - injection H as <-. reflexivity.
  - cbn [utf8] in H. apply bind_ok in H. destruct H as (bc & Hc & H).
    apply bind_ok in H. destruct H as (bs & Hs & H). injection H as <-.
    cbn [map]. rewrite len_app, sum_cons, (utf8_char_width _ Hc), (IH _ Hs).
    reflexivity.
Qed.

(** the padded name on file: the encoded name and the padding *)
Lemma utf8_nstring (s : str) (b : bytes) :
  utf8 (generate_nstring s) = Ok b ->
  exists body, utf8 s = Ok body /\ b = body ++ padding s.
Proof.
  unfold generate_nstring, padding. rewrite Zeven_mod. intros H.
  destruct (len s mod 2 =? 0); rewrite utf8_app in H;
    apply bind_ok in H; destruct H as (body & Hbody & H);
    exists body; (split; [exact Hbody|]);
    cbn in H; injection H as <-; reflexivity.
Qed.

Lemma utf8_nstring_ok (s : str) (body : bytes) :
  utf8 s = Ok body -> utf8 (generate_nstring s) = Ok (body ++ padding s).
Proof.
  intros H. unfold generate_nstring, padding. rewrite Zeven_mod.
  destruct (len s mod 2 =? 0); rewrite utf8_app, H; reflexivity.
Qed.

Lemma sum_const (k : Z) (l : list Z) :
  Forall (fun x => x = k) l -> sum l = k * len l.
Proof.
  induction 1 as [|x l -> _ IH]; [cbn; lia|].
  rewrite sum_cons, len_cons, IH. lia.
Qed.

(** X4: the bytes written for a name are its UTF-8 encoding followed by
    two null bytes when the name has an even number of characters and by
    one when it has an odd number.  The padding goes by characters, not by
    bytes: an ASCII name gets an even number of bytes, a name of an odd
    number of two-byte characters an odd number. *)
Theorem encoded_name_length (s : str) (b : bytes) :
  utf8 (generate_nstring s) = Ok b ->
  exists body,
    utf8 s = Ok body
    /\ b = body ++ (if Z.even (len s) then [x00; x00] else [x00])
    /\ len b = sum (map utf8_width s) + (if Z.even (len s) then 2 else 1)
    /\ (Forall (fun c => c < 0x80) s ->
        Z.even (len b) = true /\ len b = len (generate_nstring s))
    /\ (Forall (fun c => 0x80 <= c < 0x800) s -> Z.even (len b) = Z.even (len s)).
Proof.
  intros H. apply utf8_nstring in H. destruct H as (body & Hbody & ->).
  exists body. split; [exact Hbody|]. split; [reflexivity|].
  assert (Hlen : len (body ++ padding s)
                 = sum (map utf8_width s) + (if Z.even (len s) then 2 else 1)).
  { rewrite len_app, (utf8_width_sum _ Hbody). unfold padding.
    destruct (Z.even (len s)); reflexivity. }
  split; [exact Hlen|]. rewrite Hlen. split.
  - intros F.
    assert (E : sum (map utf8_width s) = 1 * len (map utf8_width s)).
    { apply sum_const. apply Forall_map. eapply Forall_impl; [|exact F].
      cbv beta. intros c Hc. unfold utf8_width.
      destruct (Z.ltb_spec c 0x80); [reflexivity | lia]. }
    rewrite E, len_map.
    assert (P : len (generate_nstring s) = len s + (if Z.even (len s) then 2 else 1)).
    { unfold generate_nstring. rewrite Zeven_mod.
      destruct (len s mod 2 =? 0); rewrite len_app; reflexivity. }
    rewrite P. split; [|lia].
    replace (1 * len s) with (len s) by lia.
    rewrite Z.even_add. destruct (Z.even (len s)); reflexivity.
  - intros F.
    assert (E : sum (map utf8_width s) = 2 * len (map utf8_width s)).
    { apply sum_const. apply Forall_map. eapply Forall_impl; [|exact F].
      cbv beta. intros c Hc. unfold utf8_width.
      destruct (Z.ltb_spec c 0x80); [lia|].
      destruct (Z.ltb_spec c 0x800); [reflexivity | lia]. }
    rewrite E, len_map, Z.even_add, Z.even_mul.
    destruct (Z.even (len s)); reflexivity.
Qed.

(** *** The Tag Table on file *)

Lemma utf8_of_ok (s : str) (b : bytes) : utf8 s = Ok b -> utf8_of s = b.
Proof. unfold utf8_of. intros ->. reflexivity. Qed.

Lemma name_bytes_ok (s : str) (b : bytes) :
  utf8 (generate_nstring s) = Ok b -> b = name_bytes s.
Proof.
  intros H. apply utf8_nstring in H. destruct H as (body & Hb & ->).
  unfold name_bytes. rewrite (utf8_of_ok _ Hb). reflexivity.
Qed.

Lemma name_bytes_in_range (s : str) :
  (exists b, utf8 s = Ok b) -> utf8 (generate_nstring s) = Ok (name_bytes s).
Proof.
  intros [b Hb]. unfold name_bytes. rewrite (utf8_of_ok _ Hb).
  apply utf8_nstring_ok, Hb.
Qed.

Lemma padding_length (s : str) : 1 <= len (padding s) <= 2.
Proof. unfold padding. destruct (Z.even (len s)); cbn; lia. Qed.

(** the loop of [generate_tags] *)
Lemma tags_loop (names : list str) (data out : bytes) :
  for_each names (fun mat data => b <- utf8 (generate_nstring mat) ;; Ok (data ++ b))
    data = Ok out ->
  out = data ++ flat_map name_bytes names
  /\ Forall (fun n => exists b, utf8 n = Ok b) names.
Proof.
  revert data. induction names as [|n names IH]; intros data H.
  - injection H as <-. rewrite app_nil_r. auto.
  - cbn [for_each] in H. apply bind_ok in H. destruct H as (d1 & H1 & H).
    apply bind_ok in H1. destruct H1 as (b & Hb & H1). injection H1 as <-.
    apply IH in H. destruct H as [-> F].
    pose proof (name_bytes_ok _ Hb) as ->.
    cbn [flat_map]. rewrite <- app_assoc. split; [reflexivity|].
    constructor; [|exact F].
    apply utf8_nstring in Hb. destruct Hb as (body & Hbody & _). eauto.
Qed.

Lemma tags_loop_in_range (names : list str) (data : bytes) :
  Forall (fun n => exists b, utf8 n = Ok b) names ->
  for_each names (fun mat data => b <- utf8 (generate_nstring mat) ;; Ok (data ++ b))
    data = Ok (data ++ flat_map name_bytes names).
Proof.
  intros F. apply for_each_emit. intros n Hn d.
  rewrite Forall_forall in F. rewrite (name_bytes_in_range _ (F n Hn)). reflexivity.
Qed.

Lemma flat_map_length_ge {A B} (f : A -> list B) (l : list A) (k : Z) :
  (forall x, k <= len (f x)) -> k * len l <= len (flat_map f l).
Proof.
  intros H. induction l as [|x l IH]; [cbn; lia|].
  cbn [flat_map]. rewrite len_app, len_cons. pose proof (H x). lia.
Qed.

Lemma generate_tags_bytes (material_names : list str) (tb : bytes) :
  generate_tags material_names = Ok (Bytes tb) ->
  material_names <> []
  /\ Forall (fun n => exists b, utf8 n = Ok b) material_names
  /\ tb = flat_map name_bytes material_names.
Proof.
  intros H. unfold generate_tags in H.
  destruct material_names as [|n names]; [discriminate|]. cbn [truthy] in H.
  apply bind_ok in H. destruct H as (data & Hd & H). injection H as <-.
  apply tags_loop in Hd. destruct Hd as [-> F].
  split; [discriminate|]. split; [exact F | reflexivity].
Qed.

(** X5: the payload of the TAGS chunk is, name after name in the order
    of the list, the UTF-8 bytes of the name and its one or two null
    bytes; it is produced whenever every name can be encoded, and takes at
    least one byte for each name.  For an empty list of names the function
    returns a [str] of two null characters instead of [bytes]. *)
Theorem generate_tags_payload (material_names : list str) :
  (material_names = [] -> generate_tags material_names = Ok (Str [0; 0]))
  /\ (material_names <> [] ->
      Forall (fun n => exists b, utf8 n = Ok b) material_names ->
      generate_tags material_names
      = Ok (Bytes (flat_map name_bytes material_names)))
  /\ (forall tb, generate_tags material_names = Ok (Bytes tb) ->
        material_names <> []
        /\ Forall (fun n => exists b, utf8 n = Ok b) material_names
        /\ tb = flat_map name_bytes material_names
        /\ len material_names <= len tb).
Proof.
  split; [intros ->; reflexivity|]. split.
  - intros Hne F. unfold generate_tags.
    destruct material_names as [|n names]; [congruence|]. cbn [truthy].
    rewrite tags_loop_in_range by exact F. reflexivity.
  - intros tb H. apply generate_tags_bytes in H. destruct H as (Hne & F & ->).
    split; [exact Hne|]. split; [exact F|]. split; [reflexivity|].
    pose proof (@flat_map_length_ge _ _ name_bytes material_names 1) as L.
    rewrite Z.mul_1_l in L. apply L. intros s. unfold name_bytes.
    rewrite len_app. pose proof (padding_length s). pose proof (len_nonneg (utf8_of s)).
    lia.
Qed.

Lemma byte_of_Z_inj (x y : Z) :
  0 <= x < 256 -> 0 <= y < 256 -> byte_of_Z x = byte_of_Z y -> x = y.
Proof.
  intros Hx Hy E. apply (f_equal Z_of_byte) in E.
  rewrite !Z_of_byte_of_Z, !Z.mod_small in E by lia. exact E.
Qed.

Lemma utf8_ascii_str (s : str) :
  Forall (fun c => 0 < c < 0x80) s -> utf8 s = Ok (map byte_of_Z s).
Proof.
  induction 1 as [|c s Hc _ IH]; [reflexivity|].
  cbn [utf8 map]. unfold utf8_char.
  destruct (Z.ltb_spec c 0x80); [|lia]. cbn [bind]. rewrite IH. reflexivity.
Qed.

(** two names without a null byte, each followed by one: the first null
    byte of the stream ends the name *)
Lemma null_terminated (a b r s : bytes) :
  ~ In x00 a -> ~ In x00 b -> a ++ x00 :: r = b ++ x00 :: s -> a = b /\ r = s.
Proof.
  revert b. induction a as [|x a IH]; intros [|y b] Ha Hb E; cbn in E.
  - injection E as ->. auto.
  - injection E as <- _. exfalso. apply Hb. left. reflexivity.
  - injection E as -> _. exfalso. apply Ha. left. reflexivity.
  - injection E as -> E. destruct (IH b) as [-> ->]; try exact E; auto.
    + intros Hin. apply Ha. right. exact Hin.
    + intros Hin. apply Hb. right. exact Hin.
Qed.

Lemma ascii_bytes_null_free (s : str) :
  Forall (fun c => 0 < c < 0x80) s -> ~ In x00 (map byte_of_Z s).
Proof.
  intros F Hin. apply in_map_iff in Hin. destruct Hin as (c & Hc & Hin).
  rewrite Forall_forall in F. pose proof (F c Hin) as Hr.
  change x00 with (byte_of_Z 0) in Hc. apply byte_of_Z_inj in Hc; lia.
Qed.

Lemma ascii_bytes_inj (s t : str) :
  Forall (fun c => 0 < c < 0x80) s -> Forall (fun c => 0 < c < 0x80) t ->
  map byte_of_Z s = map byte_of_Z t -> s = t.
Proof.
  intros Fs. revert t. induction Fs as [|c s Hc _ IH]; intros t Ft E.
  - destruct t; [reflexivity | discriminate].
  - destruct Ft as [|d t Hd Ft]; [discriminate|]. cbn in E. injection E as Ecd E.
    apply byte_of_Z_inj in Ecd; [|lia|lia]. subst d. f_equal. apply IH; assumption.
Qed.

Lemma name_bytes_ascii (s : str) :
  Forall (fun c => 0 < c < 0x80) s ->
  name_bytes s = map byte_of_Z s ++ x00 :: (if Z.even (len s) then [x00] else []).
Proof.
  intros F. unfold name_bytes, padding. rewrite (utf8_of_ok _ (utf8_ascii_str F)).
  destruct (Z.even (len s)); reflexivity.
Qed.

(** X6: two lists of names that are written with the same TAGS payload
    are the same list, for names of ASCII characters other than the null
    character: the Tag Table can be read back from the chunk, and with it
    the surface a polygon tag refers to. *)
Theorem tags_payload_injective (names1 names2 : list str) (tb : bytes) :
  Forall (Forall (fun c => 0 < c < 0x80)) names1 ->
  Forall (Forall (fun c => 0 < c < 0x80)) names2 ->
  generate_tags names1 = Ok (Bytes tb) ->
  generate_tags names2 = Ok (Bytes tb) ->
  names1 = names2.
Proof.
  intros F1 F2 H1 H2.
  apply generate_tags_bytes in H1, H2.
  destruct H1 as (_ & _ & E1). destruct H2 as (_ & _ & E2).
  rewrite E1 in E2. clear - F1 F2 E2.
  revert names2 F2 E2. induction F1 as [|n1 l1 Hn1 _ IH]; intros names2 F2 E.
  - destruct F2 as [|n2 l2 Hn2 _]; [reflexivity|].
    cbn [flat_map] in E. rewrite (name_bytes_ascii Hn2) in E.
    destruct (map byte_of_Z n2); discriminate.
  - destruct F2 as [|n2 l2 Hn2 F2].
    { cbn [flat_map] in E. rewrite (name_bytes_ascii Hn1) in E.
      destruct (map byte_of_Z n1); discriminate. }
    cbn [flat_map] in E.
    rewrite (name_bytes_ascii Hn1), (name_bytes_ascii Hn2), <- !app_assoc in E.
    cbn [app] in E.
    apply null_terminated in E; try (apply ascii_bytes_null_free; assumption).
    destruct E as [En E]. apply ascii_bytes_inj in En; try assumption. subst n2.
    apply app_inv_head in E. f_equal. apply IH; assumption.
Qed.

(** *** Points *)

Lemma point_bytes_length (scale : float) (co : vec3) :
  List.length (point_bytes scale co) = 12%nat.
Proof.
  destruct co as [[x y] z]. unfold point_bytes.
  rewrite !length_app, !f32_bytes_length. reflexivity.
Qed.

Lemma flat_map_length_const {A B} (f : A -> list B) (l : list A) (k : nat) :
  (forall x, List.length (f x) = k) ->
  List.length (flat_map f l) = (k * List.length l)%nat.
Proof.
  intros H. induction l as [|x l IH]; [cbn; lia|].
  cbn [flat_map List.length]. rewrite length_app, H, IH. lia.
Qed.

(** X7: the PNTS payload holds twelve bytes for each vertex, in the
    order of the mesh: the x, the z and the y coordinate, each multiplied
    by the scale of the export and written as a big-endian binary32.  The
    function raises [OverflowError] exactly when one of these products is
    a finite number beyond the range of binary32. *)
Theorem generate_pnts_layout (self : LwoExport) (mesh : Mesh.t) :
  generate_pnts self mesh
  = (if forallb (point_packable (option_scale self)) (Mesh.vertices mesh)
     then Ok (flat_map (point_bytes (option_scale self)) (Mesh.vertices mesh))
     else Raise OverflowError)
  /\ List.length (flat_map (point_bytes (option_scale self)) (Mesh.vertices mesh))
     = (12 * List.length (Mesh.vertices mesh))%nat.
Proof.
  split; [|apply flat_map_length_const; intros co; apply point_bytes_length].
  unfold generate_pnts. generalize (option_scale self). intros scale.
  change (flat_map (point_bytes scale) (Mesh.vertices mesh))
    with ([] ++ flat_map (point_bytes scale) (Mesh.vertices mesh)).
  generalize (@nil byte).
  induction (Mesh.vertices mesh) as [|[[x y] z] vs IH]; intros data.
  - cbn. rewrite app_nil_r. reflexivity.
  - cbn [for_each forallb flat_map point_packable point_bytes pack_floats].
    unfold pack_f.
    destruct (f32_overflow (PrimFloat.mul x scale)); [reflexivity|].
    destruct (f32_overflow (PrimFloat.mul z scale)); [reflexivity|].
    destruct (f32_overflow (PrimFloat.mul y scale)); [reflexivity|].
    cbn [bind negb andb]. rewrite IH.
    destruct (forallb (point_packable scale) vs); [|reflexivity].
    rewrite app_nil_r, <- !app_assoc. reflexivity.
Qed.

(** *** Vertex colours *)

Lemma flat_map_single {A B} (f : A -> B) (l : list A) :
  flat_map (fun x => [f x]) l = map f l.
Proof. induction l as [|x l IH]; cbn; congruence. Qed.

Lemma color_corner_entry (layer : MeshLoopColorLayer.t) (i : Z) (p : MeshPolygon.t)
    (k : nat) (d : bytes) (f : bool) :
  0 <= i <= 0xFFFFFFFF ->
  0 <= MeshPolygon.loop_start p ->
  (k < Z.to_nat (MeshPolygon.loop_total p))%nat ->
  Forall (fun v => 0 <= v <= 0xFFFFFFFF) (MeshPolygon.vertices p) ->
  len (MeshPolygon.vertices p) = MeshPolygon.loop_total p ->
  MeshPolygon.loop_start p + MeshPolygon.loop_total p
  <= len (MeshLoopColorLayer.data layer) ->
  Forall (fun c : rgba =>
            packable (fst (fst (fst c))) /\ packable (snd (fst (fst c)))
            /\ packable (snd (fst c)) /\ packable (snd c))
    (MeshLoopColorLayer.data layer) ->
  ('(r, g, b, a) <- getitem (MeshLoopColorLayer.data layer)
                      (MeshPolygon.loop_start p + Z.of_nat k) ;;
   vx1 <- generate_vx (nth k (MeshPolygon.vertices p) 0) ;;
   vx2 <- generate_vx i ;;
   col <- pack_floats [r; g; b; a] ;;
   Ok (d ++ vx1 ++ vx2 ++ col, true))
  = Ok (d ++ List.concat [color_entry layer i p (Z.of_nat k)],
        f || truthy [color_entry layer i p (Z.of_nat k)]).
Proof.
  intros Hi Hs Hk Fv Hlen Hdata Fc.
  rewrite (@getitem_Z rgba (MeshLoopColorLayer.data layer) _ (0.0, 0.0, 0.0, 0.0)%float)
    by lia.
  fold (rgba_at layer (MeshPolygon.loop_start p + Z.of_nat k)).
  cbn [bind truthy List.concat]. rewrite orb_true_r, app_nil_r.
  unfold color_entry. rewrite Nat2Z.id.
  assert (Hp : In (rgba_at layer (MeshPolygon.loop_start p + Z.of_nat k))
                  (MeshLoopColorLayer.data layer)).
  { unfold rgba_at. apply nth_In. unfold len in Hdata. lia. }
  rewrite Forall_forall in Fc. apply Fc in Hp.
  destruct (rgba_at layer (MeshPolygon.loop_start p + Z.of_nat k)) as [[[r g] b] a].
  cbn [fst snd] in Hp. destruct Hp as (Pr & Pg & Pb & Pa).
  rewrite generate_vx_ok
    by (rewrite Forall_forall in Fv; apply Fv, nth_In; unfold len in Hlen; lia).
  cbn [bind]. rewrite generate_vx_ok by exact Hi. cbn [bind].
  rewrite pack_floats_in_range by (repeat constructor; assumption).
  cbn [bind flat_map]. rewrite app_nil_r. reflexivity.
Qed.

Lemma color_polygon_entries (layer : MeshLoopColorLayer.t) (i : Z)
    (p : MeshPolygon.t) (d : bytes) (f : bool) :
  0 <= i <= 0xFFFFFFFF ->
  0 <= MeshPolygon.loop_start p ->
  0 <= MeshPolygon.loop_total p ->
  Forall (fun v => 0 <= v <= 0xFFFFFFFF) (MeshPolygon.vertices p) ->
  len (MeshPolygon.vertices p) = MeshPolygon.loop_total p ->
  MeshPolygon.loop_start p + MeshPolygon.loop_total p
  <= len (MeshLoopColorLayer.data layer) ->
  Forall (fun c : rgba =>
            packable (fst (fst (fst c))) /\ packable (snd (fst (fst c)))
            /\ packable (snd (fst c)) /\ packable (snd c))
    (MeshLoopColorLayer.data layer) ->
  let ents := map (color_entry layer i p) (corners p) in
  for_each (combine (MeshPolygon.vertices p) (MeshPolygon.loop_indices p))
    (fun '(vert_idx, loop) '(data, found) =>
       '(r, g, b, a) <- getitem (MeshLoopColorLayer.data layer) loop ;;
       vx1 <- generate_vx vert_idx ;;
       vx2 <- generate_vx i ;;
       col <- pack_floats [r; g; b; a] ;;
       Ok (data ++ vx1 ++ vx2 ++ col, true)) (d, f)
  = Ok (d ++ List.concat ents, f || truthy ents).
Proof.
  intros Hi Hs Hn Fv Hlen Hdata Fc ents.
  assert (Hl : Z.to_nat (MeshPolygon.loop_total p)
               = List.length (MeshPolygon.vertices p))
    by (unfold len in Hlen; lia).
  unfold MeshPolygon.loop_indices. rewrite Hl.
  rewrite (combine_seq _ _ 0), for_each_map.
  rewrite (for_each_entries _ _ (fun j => [color_entry layer i p (Z.of_nat j)])).
  - subst ents. unfold corners. rewrite Hl, flat_map_single, map_map. reflexivity.
  - intros j Hj d' f'. apply in_seq in Hj. rewrite Nat.sub_0_r.
    apply color_corner_entry; try assumption. lia.
Qed.

Lemma color_entries_length (layer : MeshLoopColorLayer.t) (ps : list (Z * MeshPolygon.t)) :
  Forall (fun ip => 0 <= MeshPolygon.loop_total (snd ip)) ps ->
  len (flat_map (fun ip : Z * MeshPolygon.t =>
                   map (color_entry layer (fst ip) (snd ip)) (corners (snd ip))) ps)
  = sum (map (fun ip => MeshPolygon.loop_total (snd ip)) ps).
Proof.
  induction 1 as [|ip ps Hn _ IH]; [reflexivity|].
  cbn [flat_map map]. rewrite len_app, sum_cons, IH, len_map.
  unfold corners, len. rewrite length_map, length_seq. lia.
Qed.

(** X8: for a mesh whose polygons and colour layers fit together,
    [generate_vertex_colors] returns one block for each colour layer: the
    type 'RGBA', the dimension 4, the padded name of the layer and an entry
    for every corner of every polygon (vertex index, polygon index and the
    four components as binary32), as many entries as the mesh has loops.
    No corner is left out; a mesh without corners gets no block. *)
Theorem generate_vertex_colors_layout (mesh : Mesh.t) :
  colors_well_formed mesh ->
  generate_vertex_colors mesh
  = Ok (flat_map (fun layer => color_block layer mesh) (Mesh.vertex_colors mesh))
  /\ (forall layer,
        len (color_entries layer mesh)
        = sum (map MeshPolygon.loop_total (Mesh.polygons mesh)))
  /\ (sum (map MeshPolygon.loop_total (Mesh.polygons mesh)) = 0 ->
      generate_vertex_colors mesh = Ok []).
Proof.
  intros (Hcount & Fp & Fl).
  assert (Main : generate_vertex_colors mesh
    = Ok (flat_map (fun layer => color_block layer mesh) (Mesh.vertex_colors mesh))).
  { unfold generate_vertex_colors.
    rewrite (for_each_emit _ _ (fun layer => color_block layer mesh));
      [reflexivity|].
    intros layer Hl alldata. rewrite Forall_forall in Fl.
    destruct (Fl layer Hl) as ((nm & Hnm) & Fc & Fd).
    rewrite pack_H_in_range by lia. cbn [bind]. rewrite Hnm. cbn [bind].
    rewrite (for_each_entries _ _
      (fun ip : Z * MeshPolygon.t =>
         map (color_entry layer (fst ip) (snd ip)) (corners (snd ip)))).
    - cbn [bind orb]. fold (color_entries layer mesh). unfold color_block.
      unfold utf8_of. rewrite Hnm.
      destruct (truthy (color_entries layer mesh)).
      + rewrite <- !app_assoc. reflexivity.
      + rewrite app_nil_r. reflexivity.
    - intros [i p] Hip d f. apply enumerate_in in Hip. destruct Hip as [Hi Hp].
      rewrite Forall_forall in Fp, Fd.
      destruct (Fp p Hp) as (Hs & Hn & Hlen & Fv). cbn [fst snd].
      apply color_polygon_entries; try assumption; [lia | apply Fd, Hp]. }
  assert (Count : forall layer,
    len (color_entries layer mesh)
    = sum (map MeshPolygon.loop_total (Mesh.polygons mesh))).
  { intros layer. unfold color_entries. rewrite color_entries_length.
    - rewrite <- (enumerate_snd (Mesh.polygons mesh)) at 2. rewrite map_map.
      reflexivity.
    - apply Forall_forall. intros [i p] Hip. apply enumerate_in in Hip.
      rewrite Forall_forall in Fp. cbn [snd]. apply (Fp p), Hip. }
  split; [exact Main|]. split; [exact Count|].
  intros Hz. rewrite Main. f_equal. apply flat_map_nil. intros layer _.
  unfold color_block. specialize (Count layer). rewrite Hz in Count.
  destruct (color_entries layer mesh); [reflexivity | rewrite len_cons in Count].
  pose proof (len_nonneg l). lia.
Qed.

(** *** Sub-chunks *)

Lemma read_subchunks_step (fuel : nat) (tag size data rest : bytes) :
  List.length tag = 4%nat ->
  List.length size = 2%nat ->
  Z.to_nat (be_value size) = List.length data ->
  read_subchunks (S fuel) (tag ++ size ++ data ++ rest)
  = option_map (cons (tag, data)) (read_subchunks fuel rest).
Proof.
  intros Ht Hs Hn.
  assert (Eshape : exists x b', tag ++ size ++ data ++ rest = x :: b').
  { destruct tag as [|x tag']; [discriminate|]. cbn [app]. eauto. }
  destruct Eshape as (x & b' & Eshape).
  rewrite Eshape. cbn [read_subchunks]. rewrite <- Eshape. clear Eshape.
  assert (E4 : skipn 4 (tag ++ size ++ data ++ rest) = size ++ data ++ rest)
    by (apply skipn_prefix, Ht).
  assert (E6 : skipn 6 (tag ++ size ++ data ++ rest) = data ++ rest).
  { rewrite (app_assoc tag). apply skipn_prefix. rewrite length_app. lia. }
  rewrite E4, (firstn_prefix _ _ Hs), Hn, E6, (firstn_prefix _ _ eq_refl).
  rewrite (firstn_prefix _ _ Ht).
  replace (6 + List.length data <=? _)%nat with true
    by (symmetry; apply Nat.leb_le; rewrite !length_app; lia).
  replace (skipn (6 + List.length data) (tag ++ size ++ data ++ rest)) with rest;
    [reflexivity|].
  rewrite (app_assoc tag), (app_assoc (tag ++ size)). symmetry.
  apply skipn_prefix. rewrite !length_app. lia.
Qed.

Lemma read_subchunks_written (cs : list (string * bytes)) :
  Forall (fun c => List.length (lit (fst c)) = 4%nat /\ len (snd c) <= 0xFFFF) cs ->
  read_subchunks (S (List.length cs)) (flat_map subchunk_bytes cs)
  = Some (map (fun c => (lit (fst c), snd c)) cs).
Proof.
  induction 1 as [|c cs [Ht Hl] _ IH]; [reflexivity|].
  cbn [flat_map List.length map]. unfold subchunk_bytes at 1.
  rewrite <- !app_assoc, read_subchunks_step, IH; [reflexivity | exact Ht | | ].
  - apply big_endian_length.
  - rewrite be_value_small.
    + unfold len. apply Nat2Z.id.
    + pose proof (len_nonneg (snd c)). change (256 ^ Z.of_nat 2) with 65536.
      unfold bytes in *. lia.
Qed.

Tactic Notation "bind_step" hyp(H) ident(x) ident(Hx) :=
  apply bind_ok in H; destruct H as (x & Hx & H).

Section SceneProperties.

Variable bpy_data : BlendData.t.
Variable vector_eq : vec2 -> vec2 -> bool.
Variable bm_edges : Mesh.t -> list BMEdge.t.
Variable os_path_dirname : str -> str.
Variable os_sep : str.
Variable lower : str -> str.

(** *** Layers *)

Lemma generate_layr_ok (name : str) (idx : Z) (b : bytes) :
  generate_layr bpy_data name idx = Ok b ->
  exists o,
    objects_get bpy_data name = Some o
    /\ -0x8000 <= idx <= 0x7FFF
    /\ b = big_endian 2 idx ++ [x00; x00]
           ++ f32_bytes (fst (fst (Object.location o)))
           ++ f32_bytes (snd (Object.location o))
           ++ f32_bytes (snd (fst (Object.location o)))
           ++ name_bytes (normalized_name name).
Proof using.
  unfold generate_layr. intros H.
  destruct (objects_get bpy_data name) as [o|]; [|discriminate].
  exists o. split; [reflexivity|].
  destruct (Object.location o) as [[px py_] pz]. cbn [fst snd].
  bind_step H layer Hlayer. bind_step H flags Hflags.
  bind_step H pivot Hpivot. bind_step H nm Hnm. injection H as <-.
  unfold pack_h in Hlayer. destruct (andb _ _) eqn:E in Hlayer; [|discriminate].
  injection Hlayer as <-. injection Hflags as <-.
  apply andb_true_iff in E. destruct E as [E1 E2]. apply Z.leb_le in E1, E2.
  apply pack_floats_ok in Hpivot. destruct Hpivot as [_ ->].
  apply name_bytes_ok in Hnm. subst nm. fold (normalized_name name).
  split; [lia|].
  cbn [flat_map]. rewrite app_nil_r, <- !app_assoc. reflexivity.
Qed.

Lemma generate_layr_in_range (name : str) (idx : Z) (o : Object.t) :
  objects_get bpy_data name = Some o ->
  -0x8000 <= idx <= 0x7FFF ->
  packable (fst (fst (Object.location o))) ->
  packable (snd (fst (Object.location o))) ->
  packable (snd (Object.location o)) ->
  (exists b, utf8 (normalized_name name) = Ok b) ->
  generate_layr bpy_data name idx
  = Ok (big_endian 2 idx ++ [x00; x00]
        ++ f32_bytes (fst (fst (Object.location o)))
        ++ f32_bytes (snd (Object.location o))
        ++ f32_bytes (snd (fst (Object.location o)))
        ++ name_bytes (normalized_name name)).
Proof using.
  intros Ho Hr Px Py Pz Hn. unfold generate_layr. rewrite Ho.
  destruct (Object.location o) as [[px py_] pz]. cbn [fst snd] in *.
  unfold pack_h.
  replace ((-0x8000 <=? idx) && (idx <=? 0x7FFF)) with true
    by (symmetry; apply andb_true_iff; split; apply Z.leb_le; lia).
  cbn [bind].
  rewrite pack_floats_in_range by (repeat constructor; assumption).
  cbn [bind]. fold (normalized_name name).
  rewrite (name_bytes_in_range _ Hn). cbn [bind flat_map].
  rewrite app_nil_r, <- !app_assoc. reflexivity.
Qed.

(** X9: the LAYR payload is the layer number as a signed 16-bit
    big-endian number, two zero bytes of flags, the pivot (the x, the z and
    the y of the location of the object of that name) as three binary32
    values, and the padded name of the object with every space and every
    period replaced by an underscore.  It is produced when [bpy.data] knows
    the object, the number fits 16 bits, the location fits binary32 and the
    name can be encoded; an object that [bpy.data] does not know makes the
    function raise [AttributeError]. *)
Theorem generate_layr_layout (name : str) (idx : Z) :
  (objects_get bpy_data name = None ->
   generate_layr bpy_data name idx = Raise AttributeError)
  /\ (forall b, generate_layr bpy_data name idx = Ok b ->
        exists o,
          objects_get bpy_data name = Some o
          /\ -0x8000 <= idx <= 0x7FFF
          /\ b = big_endian 2 idx ++ [x00; x00]
                 ++ f32_bytes (fst (fst (Object.location o)))
                 ++ f32_bytes (snd (Object.location o))
                 ++ f32_bytes (snd (fst (Object.location o)))
                 ++ name_bytes (normalized_name name)
          /\ len b = 16 + len (name_bytes (normalized_name name))
          /\ ~ In 32 (normalized_name name)
          /\ ~ In 46 (normalized_name name)
          /\ List.length (normalized_name name) = List.length name)
  /\ (forall o,
        objects_get bpy_data name = Some o ->
        -0x8000 <= idx <= 0x7FFF ->
        packable (fst (fst (Object.location o))) ->
        packable (snd (fst (Object.location o))) ->
        packable (snd (Object.location o)) ->
        (exists b, utf8 (normalized_name name) = Ok b) ->
        exists b, generate_layr bpy_data name idx = Ok b).
Proof using.
  split; [unfold generate_layr; intros ->; reflexivity|]. split.
  - intros b H. apply generate_layr_ok in H. destruct H as (o & Ho & Hr & ->).
    exists o. split; [exact Ho|]. split; [exact Hr|]. split; [reflexivity|].
    split.
    { rewrite !len_app. unfold len at 1 2 3 4 5.
      rewrite big_endian_length, !f32_bytes_length. cbn [List.length]. lia. }
    unfold normalized_name. split; [|split].
    + intros Hin. apply in_map_iff in Hin. destruct Hin as (c & Hc & Hin).
      destruct (Z.eqb_spec c 46); [discriminate|]. subst c.
      revert Hin. apply replace_removes. lia.
    + apply replace_removes. lia.
    + rewrite !replace_length. reflexivity.
  - intros o Ho Hr Px Py Pz Hn. eexists.
    apply generate_layr_in_range; eassumption.
Qed.

(** *** Surfaces *)

Lemma subchunk_fixed (tag : string) (x : float) :
  lit tag ++ big_endian 2 6 ++ f32_bytes x ++ big_endian 2 0
  = subchunk_bytes (tag, f32_bytes x ++ [x00; x00]).
Proof.
  unfold subchunk_bytes. cbn [fst snd]. rewrite len_app. unfold len.
  rewrite f32_bytes_length. reflexivity.
Qed.

(** the bytes of a surface, by the values its [try] block left *)
Lemma generate_mesh_surface_ok (mesh : Mesh.t) (material_name : str) (b : bytes) :
  generate_mesh_surface bpy_data mesh material_name = Ok b ->
  let subs := surface_subchunks (read_material bpy_data mesh material_name) in
  b = name_bytes material_name ++ flat_map subchunk_bytes subs
  /\ Forall (fun c => List.length (lit (fst c)) = 4%nat /\ len (snd c) <= 0xFFFF) subs.
Proof using.
  unfold generate_mesh_surface. intros H.
  set (p := read_material bpy_data mesh material_name) in *.
  bind_step H nm Hnm. apply name_bytes_ok in Hnm. subst nm.
  destruct (sp_color p) as [[R G] B] eqn:Ecol.
  bind_step H colr0_len H0. injection H0 as <-.
  bind_step H colr_len H1. injection H1 as <-.
  bind_step H colr H2. apply pack_floats_ok in H2. destruct H2 as [_ ->].
  bind_step H colr_r H3. injection H3 as <-.
  bind_step H diff_len H4. injection H4 as <-.
  bind_step H diff H5. apply pack_f_ok in H5. subst diff.
  bind_step H diff_r H6. injection H6 as <-.
  bind_step H lumi_len H7. injection H7 as <-.
  bind_step H lumi H8. apply pack_f_ok in H8. subst lumi.
  bind_step H lumi_r H9. injection H9 as <-.
  bind_step H spec_len H10. injection H10 as <-.
  bind_step H spec H11. apply pack_f_ok in H11. subst spec.
  bind_step H spec_r H12. injection H12 as <-.
  bind_step H glos_len H13. injection H13 as <-.
  bind_step H glos H14. apply pack_f_ok in H14. subst glos.
  bind_step H glos_r H15. injection H15 as <-.
  bind_step H vcol Hvcol.
  bind_step H sman_len H16. injection H16 as <-.
  bind_step H sman H17. apply pack_f_ok in H17. subst sman.
  injection H as <-.
  assert (V : exists vs,
    match sp_material p with
    | Some material =>
        if str_eqb (Material.vcmenu material) (py "<none>") then []
        else [("VCOL"%string,
               f32_bytes 1.0%float ++ [x00; x00] ++ lit "RGBA"
               ++ name_bytes (Material.vcmenu material))]
    | None => []
    end = vs
    /\ vcol = flat_map subchunk_bytes vs
    /\ Forall (fun c => List.length (lit (fst c)) = 4%nat /\ len (snd c) <= 0xFFFF) vs).
  { destruct (sp_material p) as [material|].
    - destruct (str_eqb (Material.vcmenu material) (py "<none>")).
      + injection Hvcol as <-. exists []. repeat split. constructor.
      + bind_step Hvcol intensity Hi. apply pack_f_ok in Hi. subst intensity.
        bind_step Hvcol envelope He. injection He as <-.
        bind_step Hvcol vn Hvn. apply name_bytes_ok in Hvn. subst vn.
        bind_step Hvcol vlen Hl. apply pack_H_ok in Hl. destruct Hl as [Hr ->].
        injection Hvcol as <-. eexists. split; [reflexivity|]. split.
        * cbn [flat_map]. unfold subchunk_bytes. cbn [fst snd].
          rewrite app_nil_r. reflexivity.
        * constructor; [|constructor]. cbn [fst snd]. split; [reflexivity|].
          exact (proj2 Hr).
    - injection Hvcol as <-. exists []. repeat split. constructor. }
  destruct V as (vs & Evs & -> & Fvs).
  unfold surface_subchunks. rewrite Evs, Ecol. cbn [fst snd]. split.
  - rewrite !flat_map_app. cbn [flat_map app].
    rewrite <- !subchunk_fixed. unfold subchunk_bytes. cbn [fst snd].
    rewrite !len_app. unfold len. rewrite !f32_bytes_length.
    cbn [List.length app flat_map]. rewrite !app_nil_r, <- !app_assoc.
    reflexivity.
  - apply Forall_app. split; [|apply Forall_app; split; [exact Fvs|]].
    + repeat (apply Forall_cons || apply Forall_nil); cbn [fst snd];
        (split; [reflexivity|]); rewrite ?len_app; unfold len;
        rewrite ?f32_bytes_length; cbn [List.length]; lia.
    + constructor; [|constructor]. cbn [fst snd]. split; [reflexivity|].
      unfold len. rewrite f32_bytes_length. lia.
Qed.

(** X10: a surface block is the padded name of the material followed
    by sub-chunks whose 16-bit length fields agree with their data: a
    reader that walks from tag to tag finds an empty COLR, the COLR of 14
    bytes, DIFF, LUMI, SPEC and GLOS of 6 bytes each, VCOL when the
    material names a vertex colour map, and SMAN of 4 bytes, and nothing
    else. *)
Theorem surface_subchunks_read_back (mesh : Mesh.t) (material_name : str) (b : bytes) :
  generate_mesh_surface bpy_data mesh material_name = Ok b ->
  let subs := surface_subchunks (read_material bpy_data mesh material_name) in
  b = name_bytes material_name ++ flat_map subchunk_bytes subs
  /\ read_subchunks (S (List.length subs))
       (skipn (List.length (name_bytes material_name)) b)
     = Some (map (fun c => (lit (fst c), snd c)) subs)
  /\ exists vcol,
       map fst subs
       = ["COLR"; "COLR"; "DIFF"; "LUMI"; "SPEC"; "GLOS"]%string
         ++ vcol ++ ["SMAN"%string]
       /\ (vcol = [] \/ vcol = ["VCOL"%string]).
Proof using.
  intros H subs. apply generate_mesh_surface_ok in H. destruct H as [-> F].
  fold subs. split; [reflexivity|]. split.
  - rewrite (skipn_prefix _ _ eq_refl). apply read_subchunks_written, F.
  - subst subs. unfold surface_subchunks.
    destruct (sp_material _) as [material|].
    + destruct (str_eqb _ _).
      * exists []. split; [reflexivity | left; reflexivity].
      * exists ["VCOL"%string]. split; [reflexivity | right; reflexivity].
    + exists []. split; [reflexivity | left; reflexivity].
Qed.

Lemma read_material_fallback (mesh : Mesh.t) (material_name : str) :
  (forall material sh,
     materials_get bpy_data material_name = Some material ->
     Material.shading material = Some sh ->
     Shading.specular_hardness sh < 4) ->
  read_material bpy_data mesh material_name = fallback_params.
Proof using.
  intros H. unfold read_material.
  destruct (materials_get bpy_data material_name) as [material|]; [|reflexivity].
  destruct (Material.shading material) as [sh|] eqn:Esh; [|reflexivity].
  specialize (H material sh eq_refl Esh).
  destruct (Z.ltb_spec (Shading.specular_hardness sh - 4) 0); [reflexivity | lia].
Qed.

(** X11: when the material of a surface cannot be read (no material of
    that name in [bpy.data], a property the exporter reads is missing, or
    the specular hardness is below 4, so that the square root fails), the
    export goes on with fixed values: the block is the padded name and a
    body of 84 bytes that does not depend on the material or the mesh. *)
Theorem generate_mesh_surface_fallback (mesh : Mesh.t) (material_name : str) :
  (exists b, utf8 material_name = Ok b) ->
  (forall material sh,
     materials_get bpy_data material_name = Some material ->
     Material.shading material = Some sh ->
     Shading.specular_hardness sh < 4) ->
  generate_mesh_surface bpy_data mesh material_name
  = Ok (name_bytes material_name ++ fallback_body)
  /\ List.length fallback_body = 84%nat.
Proof using.
  intros Hn Hm. split; [|vm_compute; reflexivity].
  unfold generate_mesh_surface.
  rewrite (name_bytes_in_range _ Hn), (read_material_fallback mesh _ Hm).
  cbn [bind]. generalize (name_bytes material_name). intros nm.
  vm_compute. reflexivity.
Qed.

(** *** Material names and their meshes *)

Lemma combine_blocks {A B} (a1 a2 : list A) (b1 b2 : list B) :
  List.length a1 = List.length b1 ->
  combine (a1 ++ a2) (b1 ++ b2) = combine a1 b1 ++ combine a2 b2.
Proof.
  revert b1. induction a1 as [|x a1 IH]; intros [|y b1] H; try discriminate.
  - reflexivity.
  - cbn. f_equal. apply IH. cbn in H. lia.
Qed.

Lemma combine_const {A B} (x : A) (l : list B) :
  combine (map (fun _ => x) l) l = map (pair x) l.
Proof. induction l as [|y l IH]; cbn; congruence. Qed.

(** the two lists of [get_used_material_names], side by side *)
Lemma combine_tags (ms : list Mesh.t) :
  combine (tag_meshes ms) (tag_table ms) = flat_map mesh_tags ms.
Proof.
  unfold tag_meshes, tag_table.
  induction ms as [|mesh ms IH]; [reflexivity|].
  cbn [flat_map]. rewrite combine_blocks by apply length_map.
  rewrite IH, combine_const. reflexivity.
Qed.

Lemma tag_lists_length (ms : list Mesh.t) :
  List.length (tag_meshes ms) = List.length (tag_table ms).
Proof.
  unfold tag_meshes, tag_table.
  induction ms as [|mesh ms IH]; [reflexivity|].
  cbn [flat_map]. rewrite !length_app, length_map, IH. reflexivity.
Qed.

Lemma in_slot_names (slots : list (option Material.t)) (name : str) :
  In name (flat_map slot_name slots)
  <-> exists material, In (Some material) slots /\ Material.name material = name.
Proof.
  rewrite in_flat_map. split.
  - intros ([material|] & Hin & Hn); [|contradiction].
    destruct Hn as [<-|[]]. eauto.
  - intros (material & Hin & <-). exists (Some material).
    split; [exact Hin | left; reflexivity].
Qed.

Lemma in_mesh_tags (mesh m : Mesh.t) (name : str) :
  In (m, name) (mesh_tags mesh)
  <-> m = mesh
      /\ exists material,
           In (Some material) (Mesh.materials mesh) /\ Material.name material = name.
Proof.
  unfold mesh_tags. rewrite in_map_iff, <- in_slot_names. split.
  - intros (n & E & Hin). injection E as <- <-. auto.
  - intros (-> & Hin). eauto.
Qed.

(** X12: [get_used_material_names] returns exactly when every mesh of
    the export has a material slot, and raises [AttributeError] as soon as
    one has none.  The two lists it returns have the same length and pair,
    mesh after mesh and slot after slot, the name of the material in every
    filled slot with the mesh; an empty slot contributes nothing, and a
    name used twice is listed twice. *)
Theorem used_material_names (self : LwoExport) :
  (Forall (fun mesh => Mesh.materials mesh <> []) (meshes self) ->
   get_used_material_names self
   = Ok (tag_meshes (meshes self), tag_table (meshes self)))
  /\ (Exists (fun mesh => Mesh.materials mesh = []) (meshes self) ->
      get_used_material_names self = Raise AttributeError)
  /\ List.length (tag_meshes (meshes self)) = List.length (tag_table (meshes self))
  /\ combine (tag_meshes (meshes self)) (tag_table (meshes self))
     = flat_map (fun mesh => map (pair mesh) (flat_map slot_name (Mesh.materials mesh)))
         (meshes self)
  /\ (forall mesh name,
        In (mesh, name) (combine (tag_meshes (meshes self)) (tag_table (meshes self)))
        <-> In mesh (meshes self)
            /\ exists material,
                 In (Some material) (Mesh.materials mesh)
                 /\ Material.name material = name).
Proof using.
  split; [|split; [|split; [|split]]].
  - intros F. apply get_used_material_names_ok.
    eapply Forall_impl; [|exact F]. cbv beta. intros mesh Hm.
    destruct (Mesh.materials mesh); [congruence | reflexivity].
  - apply get_used_material_names_raises.
  - apply tag_lists_length.
  - apply combine_tags.
  - intros mesh name. rewrite combine_tags, in_flat_map. split.
    + intros (m & Hm & Hin). apply in_mesh_tags in Hin. destruct Hin as [-> Hin].
      auto.
    + intros (Hm & Hin). exists mesh. split; [exact Hm|].
      apply in_mesh_tags. auto.
Qed.

(** *** Surfaces of a file *)

Lemma getitem_nth_error {A} (l : list A) (k : nat) (x : A) :
  getitem l (Z.of_nat k) = Ok x -> nth_error l k = Some x.
Proof.
  unfold getitem. destruct (Z.ltb_spec (Z.of_nat k) 0); [lia|].
  destruct (Z.ltb_spec (Z.of_nat k) 0); [lia|]. rewrite Nat2Z.id.
  destruct (nth_error l k); [congruence | discriminate].
Qed.

Lemma skipn_nth_error {A} (l : list A) (k : nat) :
  skipn k l = match nth_error l k with
              | Some x => x :: skipn (S k) l
              | None => []
              end.
Proof.
  revert k. induction l as [|y l IH]; intros [|k]; try reflexivity.
  cbn [nth_error]. rewrite <- IH. reflexivity.
Qed.

(** the loop that collects the surfaces of a mesh: one for every entry of
    [matmeshes] that is the mesh, under the name at the same position *)
Lemma surfaces_loop (self : LwoExport) (mesh : Mesh.t) (names : list str)
    (mm : list Mesh.t) (a : nat) (surfs out : list bytes) :
  for_each (combine (map Z.of_nat (seq a (List.length mm))) mm)
    (fun '(j, m) surfs =>
       if Mesh.eqb m mesh then
         nm <- getitem names j ;;
         surf <- generate_surface bpy_data self m nm ;;
         Ok (surfs ++ [surf])
       else Ok surfs) surfs = Ok out ->
  exists ss,
    out = surfs ++ ss
    /\ Forall2 (fun mn surf => generate_surface bpy_data self (fst mn) (snd mn) = Ok surf)
         (filter (fun mn => Mesh.eqb (fst mn) mesh) (combine mm (skipn a names))) ss.
Proof using.
  revert a surfs. induction mm as [|m mm IH]; intros a surfs H.
  - injection H as <-. exists []. rewrite app_nil_r. split; [reflexivity | constructor].
  - cbn [List.length seq map combine for_each] in H.
    bind_step H s1 H1. apply IH in H. destruct H as (ss & -> & F).
    rewrite (skipn_nth_error names a).
    destruct (Mesh.eqb m mesh) eqn:Em.
    + bind_step H1 nm Hnm. bind_step H1 surf Hs. injection H1 as <-.
      apply getitem_nth_error in Hnm. rewrite Hnm. cbn [combine filter fst].
      rewrite Em. exists (surf :: ss). rewrite <- app_assoc.
      split; [reflexivity|]. constructor; [exact Hs | exact F].
    + injection H1 as <-. exists ss. split; [reflexivity|].
      destruct (nth_error names a) as [n|] eqn:En.
      * cbn [combine filter fst]. rewrite Em. exact F.
      * apply nth_error_None in En.
        rewrite (skipn_all2 names) in F by lia.
        destruct mm; exact F.
Qed.

Lemma emitted_surfs (cs : list (string * bytes)) (st st' : pass) :
  emitted cs st st' -> surfs st' = surfs st.
Proof. intros (S & _). exact S. Qed.

(** the surfaces a layer adds to the file *)
Lemma write_mesh_surfs self lookup matmeshes material_names mesh st st' :
  write_mesh bpy_data vector_eq bm_edges self lookup matmeshes material_names
    mesh st = Ok st' ->
  exists ss,
    surfs st' = surfs st ++ ss
    /\ Forall2 (fun mn surf => generate_surface bpy_data self (fst mn) (snd mn) = Ok surf)
         (filter (fun mn => Mesh.eqb (fst mn) mesh) (combine matmeshes material_names))
         ss.
Proof using.
  unfold write_mesh. intros H.
  bind_step H surfs' Hs. unfold enumerate in Hs.
  apply surfaces_loop in Hs. destruct Hs as (ss & -> & F). cbn [skipn] in F.
  exists ss. split; [|exact F].
  bind_step H name Hname. bind_step H layr Hlayr. bind_step H pnts Hpnts.
  bind_step H bbox Hbbox. bind_step H pols Hpols. bind_step H ptag Hptag.
  bind_step H uvs Huvs.
  bind_step H st1 H1. bind_step H st2 H2. bind_step H st3 H3.
  bind_step H st4 H4. bind_step H st5 H5. bind_step H st6 H6.
  bind_step H st7 H7. injection H as <-. cbn [surfs].
  apply emit_ok in H1, H2, H3, H5, H6; try reflexivity.
  apply emitted_surfs in H1, H2, H3, H5, H6. cbn [surfs] in H1.
  assert (E4 : surfs st4 = surfs st3).
  { destruct (truthy (Mesh.vertex_colors mesh)).
    - bind_step H4 vcs Hg. apply emit_all_ok in H4; try reflexivity.
      apply emitted_surfs in H4. exact H4.
    - injection H4 as <-. reflexivity. }
  assert (E7 : surfs st7 = surfs st6).
  { destruct (truthy (Mesh.uv_layers mesh)).
    - apply emit_all_ok in H7; try reflexivity. apply emitted_surfs in H7. exact H7.
    - injection H7 as <-. reflexivity. }
  congruence.
Qed.

Lemma write_meshes_surfs self lookup matmeshes material_names ms st st' :
  for_each ms
    (write_mesh bpy_data vector_eq bm_edges self lookup matmeshes material_names)
    st = Ok st' ->
  exists ss,
    surfs st' = surfs st ++ ss
    /\ Forall2 (fun mn surf => generate_surface bpy_data self (fst mn) (snd mn) = Ok surf)
         (flat_map (fun mesh =>
                      filter (fun mn => Mesh.eqb (fst mn) mesh)
                        (combine matmeshes material_names)) ms)
         ss.
Proof using.
  revert st. induction ms as [|mesh ms IH]; intros st H.
  - injection H as <-. exists []. rewrite app_nil_r. split; [reflexivity | constructor].
  - cbn [for_each] in H. bind_step H st1 H1.
    apply write_mesh_surfs in H1. destruct H1 as (s1 & E1 & F1).
    apply IH in H. destruct H as (s2 & E2 & F2).
    exists (s1 ++ s2). rewrite E2, E1, <- app_assoc. split; [reflexivity|].
    cbn [flat_map]. apply Forall2_app; assumption.
Qed.

(** the surfaces of a file: for every mesh, in their order, those entries
    of the Tag Table that belong to a mesh of the same identity *)
Lemma generate_chunks_surfs self lookup self' tags st :
  generate_chunks bpy_data vector_eq bm_edges self lookup = Ok (self', tags, st) ->
  Forall2 (fun mn surf => generate_surface bpy_data self' (fst mn) (snd mn) = Ok surf)
    (flat_map (fun mesh =>
                 filter (fun mn => Mesh.eqb (fst mn) mesh)
                   (flat_map mesh_tags (meshes self))) (meshes self))
    (surfs st).
Proof using.
  unfold generate_chunks. intros H.
  bind_step H mn Hn. destruct mn as [matmeshes names].
  bind_step H tg Ht. bind_step H st' Hm. injection H as <- <- <-.
  apply get_used_material_names_inv in Hn. destruct Hn as (_ & -> & ->).
  apply write_meshes_surfs in Hm. destruct Hm as (ss & E & F).
  cbn [surfs app] in *. rewrite E. rewrite combine_tags in F. exact F.
Qed.

Lemma filter_mesh_tags (m mesh : Mesh.t) :
  filter (fun mn => Mesh.eqb (fst mn) mesh) (mesh_tags m)
  = if Mesh.eqb m mesh then mesh_tags m else [].
Proof.
  unfold mesh_tags. induction (flat_map slot_name (Mesh.materials m)) as [|n l IH].
  - destruct (Mesh.eqb m mesh); reflexivity.
  - cbn [map filter fst]. rewrite IH. destruct (Mesh.eqb m mesh); reflexivity.
Qed.

Lemma filter_foreign_tags (ms : list Mesh.t) (mesh : Mesh.t) :
  ~ In (Mesh.id mesh) (map Mesh.id ms) ->
  filter (fun mn => Mesh.eqb (fst mn) mesh) (flat_map mesh_tags ms) = [].
Proof.
  induction ms as [|m ms IH]; intros Hn; [reflexivity|].
  cbn [flat_map]. rewrite filter_app, filter_mesh_tags, IH.
  - unfold Mesh.eqb. destruct (Z.eqb_spec (Mesh.id m) (Mesh.id mesh)) as [E|]; [|reflexivity].
    exfalso. apply Hn. left. exact E.
  - intros Hin. apply Hn. right. exact Hin.
Qed.

(** among meshes of distinct identities, the entries that belong to a
    mesh are the ones it contributed *)
Lemma filter_own_tags (ms : list Mesh.t) (mesh : Mesh.t) :
  NoDup (map Mesh.id ms) -> In mesh ms ->
  filter (fun mn => Mesh.eqb (fst mn) mesh) (flat_map mesh_tags ms) = mesh_tags mesh.
Proof.
  induction ms as [|m ms IH]; intros Hnd Hin; [contradiction|].
  cbn [map] in Hnd. inversion Hnd as [|? ? Hm Hnd']; subst.
  cbn [flat_map]. rewrite filter_app, filter_mesh_tags.
  destruct Hin as [->|Hin].
  - unfold Mesh.eqb at 1. rewrite Z.eqb_refl.
    rewrite filter_foreign_tags by exact Hm. apply app_nil_r.
  - rewrite IH by assumption.
    unfold Mesh.eqb. destruct (Z.eqb_spec (Mesh.id m) (Mesh.id mesh)) as [E|]; [|reflexivity].
    exfalso. apply Hm. rewrite E. apply in_map, Hin.
Qed.

Lemma flat_map_eq_in {A B} (f g : A -> list B) (l : list A) :
  (forall x, In x l -> f x = g x) -> flat_map f l = flat_map g l.
Proof.
  induction l as [|x l IH]; intros H; [reflexivity|].
  cbn [flat_map]. rewrite (H x) by (left; reflexivity).
  rewrite IH by (intros y Hy; apply H; right; exact Hy). reflexivity.
Qed.

Lemma Forall2_weaken {A B} (P Q : A -> B -> Prop) (l1 : list A) (l2 : list B) :
  (forall x y, P x y -> Q x y) -> Forall2 P l1 l2 -> Forall2 Q l1 l2.
Proof. intros H F. induction F; constructor; auto. Qed.

Lemma Forall2_in_l {A B} (P : A -> B -> Prop) (l1 : list A) (l2 : list B) (x : A) :
  Forall2 P l1 l2 -> In x l1 -> exists y, In y l2 /\ P x y.
Proof.
  intros F. induction F as [|a b l1 l2 Hab _ IH]; intros Hin; [contradiction|].
  destruct Hin as [->|Hin].
  - exists b. split; [left; reflexivity | exact Hab].
  - destruct (IH Hin) as (y & Hy & Hp). exists y. split; [right; exact Hy | exact Hp].
Qed.

(** a surface that was generated is the surface of a material *)
Lemma generate_surface_ok (self : LwoExport) (mesh : Mesh.t) (name : str) (surf : bytes) :
  generate_surface bpy_data self mesh name = Ok surf ->
  name <> DEFAULT_NAME
  /\ generate_mesh_surface bpy_data mesh name = Ok surf.
Proof using.
  unfold generate_surface. destruct (str_eqb name DEFAULT_NAME) eqn:E.
  - discriminate.
  - intros H. split; [|exact H]. intros ->.
    assert (str_eqb DEFAULT_NAME DEFAULT_NAME = true) by (apply str_eqb_eq; reflexivity).
    congruence.
Qed.

(** X13: in a file whose meshes are distinct datablocks, the surfaces
    follow the Tag Table: the TAGS chunk lists the padded names of the
    materials of all filled slots, mesh after mesh, and the file holds one
    SURF chunk for each of these entries, in the same order, that starts
    with the same padded name and goes on with the sub-chunks of that
    material.  A material used by two meshes is listed and written twice. *)
Theorem surfaces_follow_tags self lookup filename obj self' filename' outfile :
  NoDup (map Mesh.id (meshes (turn_self self obj))) ->
  write_object bpy_data vector_eq bm_edges os_path_dirname os_sep lower
    self lookup filename obj = Ok (self', filename', outfile) ->
  let ms := meshes (turn_self self obj) in
  exists css ss,
    skipn 12 outfile
    = flat_map chunk_bytes
        (file_chunks (flat_map name_bytes (tag_table ms)) css ss)
    /\ List.length ss = List.length (tag_table ms)
    /\ Forall2 (fun mn surf =>
         snd mn <> DEFAULT_NAME
         /\ surf = name_bytes (snd mn)
                   ++ flat_map subchunk_bytes
                        (surface_subchunks (read_material bpy_data (fst mn) (snd mn))))
       (combine (tag_meshes ms) (tag_table ms)) ss.
Proof.
  intros Hnd H ms. apply write_object_inv in H. destruct H as (tags & st & Hg & Hw).
  pose proof (generate_chunks_surfs _ _ Hg) as Fs.
  apply generate_chunks_layout in Hg.
  destruct Hg as (mm & names & css & Hn & Ht & -> & _ & Hch & Hmd & F & _).
  apply get_used_material_names_inv in Hn. destruct Hn as (_ & -> & ->).
  eapply write_file_ok in Hw; eauto.
  destruct Hw as (tb & -> & Hr & -> & Fa).
  apply generate_tags_bytes in Ht. destruct Ht as (_ & _ & ->).
  fold ms in Fs |- *.
  rewrite (flat_map_eq_in _ mesh_tags) in Fs
    by (intros mesh Hm; apply filter_own_tags; assumption).
  rewrite <- combine_tags in Fs.
  exists css, (surfs st). split; [|split].
  - apply skipn_prefix. rewrite !length_app, big_endian_length. reflexivity.
  - apply Forall2_length in Fs. rewrite <- Fs, length_combine, tag_lists_length.
    apply Nat.min_id.
  - eapply Forall2_weaken; [|exact Fs]. cbv beta. intros [m name] surf Hs.
    cbn [fst snd] in *. apply generate_surface_ok in Hs. destruct Hs as [Hne Hs].
    split; [exact Hne|]. apply generate_mesh_surface_ok in Hs. apply Hs.
Qed.

(** X14: a material whose name is 'Blender Default', the name the
    exporter reserves for its own default surface, cannot be exported: for
    that name [generate_surface] calls [generate_default_surf] without the
    argument it requires, so no file is written for a mesh that has such a
    material in one of its slots. *)
Theorem reserved_name_fails self lookup filename obj mesh material :
  In mesh (meshes (turn_self self obj)) ->
  In (Some material) (Mesh.materials mesh) ->
  Material.name material = DEFAULT_NAME ->
  forall r,
    write_object bpy_data vector_eq bm_edges os_path_dirname os_sep lower
      self lookup filename obj <> Ok r.
Proof.
  intros Hm Hs Hname [[self' filename'] outfile] H.
  apply write_object_inv in H. destruct H as (tags & st & Hg & _).
  apply generate_chunks_surfs in Hg.
  assert (Hin : In (mesh, DEFAULT_NAME)
    (flat_map (fun mesh0 =>
                 filter (fun mn => Mesh.eqb (fst mn) mesh0)
                   (flat_map mesh_tags (meshes (turn_self self obj))))
       (meshes (turn_self self obj)))).
  { apply in_flat_map. exists mesh. split; [exact Hm|].
    apply filter_In. split.
    - apply in_flat_map. exists mesh. split; [exact Hm|].
      apply in_mesh_tags. split; [reflexivity|]. eauto.
    - cbn [fst]. unfold Mesh.eqb. apply Z.eqb_refl. }
  eapply Forall2_in_l in Hin; [|exact Hg]. destruct Hin as (surf & _ & Hsurf).
  cbn [fst snd] in Hsurf. apply generate_surface_ok in Hsurf.
  destruct Hsurf as [Hne _]. congruence.
Qed.

(** *** Exports that cannot succeed *)

Lemma tag_table_empty (ms : list Mesh.t) :
  Forall (fun mesh => Forall (fun slot => slot = None) (Mesh.materials mesh)) ms ->
  tag_table ms = [].
Proof.
  intros F. unfold tag_table. apply flat_map_nil. intros mesh Hm.
  rewrite Forall_forall in F. apply flat_map_nil. intros slot Hs.
  pose proof (F mesh Hm) as Fs. rewrite Forall_forall in Fs.
  rewrite (Fs slot Hs). reflexivity.
Qed.

(** no file is written under an empty Tag Table *)
Lemma write_object_names self lookup filename obj r :
  write_object bpy_data vector_eq bm_edges os_path_dirname os_sep lower
    self lookup filename obj = Ok r ->
  tag_table (meshes (turn_self self obj)) <> [].
Proof.
  destruct r as [[self' filename'] outfile]. intros H.
  apply write_object_inv in H. destruct H as (tags & st & Hg & Hw).
  apply generate_chunks_layout in Hg.
  destruct Hg as (mm & names & css & Hn & Ht & -> & _ & Hch & Hmd & F & _).
  apply get_used_material_names_inv in Hn. destruct Hn as (_ & _ & ->).
  eapply write_file_ok in Hw; eauto. destruct Hw as (tb & -> & _).
  apply generate_tags_bytes in Ht. apply Ht.
Qed.

(** X15: an export whose objects have material slots but no material
    in any of them never writes a file.  [generate_tags] answers the empty
    list of names with a [str], which the binary file refuses; a mesh
    without any slot raises even earlier. *)
Theorem export_without_names_fails self filename objdups :
  objdups <> [] ->
  Forall (fun obj => Forall (fun slot => slot = None) (Mesh.materials (data obj)))
    objdups ->
  forall files,
    write bpy_data vector_eq bm_edges os_path_dirname os_sep lower
      self filename objdups <> Ok files.
Proof.
  intros Hne F files H. destruct objdups as [|obj rest]; [congruence|].
  unfold write in H. cbn [write_objects] in H. bind_step H r Hr.
  apply write_object_names in Hr. apply Hr. apply tag_table_empty.
  unfold turn_self. cbn [option_batch set_meshes meshes].
  destruct (option_batch self).
  - cbn [meshes]. constructor; [|constructor]. inversion F; assumption.
  - cbn [meshes]. apply Forall_map. exact F.
Qed.

(** *** The name table *)

Lemma name_lookup_skip (objdups : list ExportObject) (d : dict str) (k : Z) :
  ~ In k (map (fun obj => Mesh.id (data obj)) objdups) ->
  dict_get (name_lookup objdups d) k = dict_get d k.
Proof.
  revert d. induction objdups as [|obj rest IH]; intros d Hn; [reflexivity|].
  cbn [name_lookup fold_left]. fold (name_lookup rest).
  rewrite IH by (intros Hin; apply Hn; right; exact Hin).
  unfold dict_set. cbn [dict_get].
  destruct (Z.eqb_spec (Mesh.id (data obj)) k) as [E|]; [|reflexivity].
  exfalso. apply Hn. left. exact E.
Qed.

(** among objects with distinct meshes, the table holds for every mesh
    the name of its object *)
Lemma name_lookup_get (objdups : list ExportObject) (d : dict str) (obj : ExportObject) :
  NoDup (map (fun obj => Mesh.id (data obj)) objdups) ->
  In obj objdups ->
  dict_get (name_lookup objdups d) (Mesh.id (data obj)) = Ok (orig_name obj).
Proof.
  revert d. induction objdups as [|o rest IH]; intros d Hnd Hin; [contradiction|].
  cbn [map] in Hnd. inversion Hnd as [|? ? Ho Hnd']; subst.
  cbn [name_lookup fold_left]. fold (name_lookup rest).
  destruct Hin as [->|Hin].
  - rewrite name_lookup_skip by exact Ho.
    unfold dict_set. cbn [dict_get]. rewrite Z.eqb_refl. reflexivity.
  - apply IH; assumption.
Qed.

(** *** Layers of a combined export *)

Lemma layer_chunks_head self lookup material_names idx mesh cs :
  layer_chunks bpy_data vector_eq bm_edges self lookup material_names idx mesh
    = Ok cs ->
  exists name layr rest,
    dict_get lookup (Mesh.id mesh) = Ok name
    /\ generate_layr bpy_data name idx = Ok layr
    /\ cs = ("LAYR"%string, layr) :: rest
    /\ ~ In "LAYR"%string (map fst rest).
Proof using.
  unfold layer_chunks. intros H.
  bind_step H name Hname. bind_step H layr Hlayr. bind_step H pnts Hpnts.
  bind_step H bbox Hbbox. bind_step H pols Hpols. bind_step H ptag Hptag.
  bind_step H uvs Huvs. bind_step H vcs Hvcs. injection H as <-.
  exists name, layr. eexists. split; [exact Hname|]. split; [exact Hlayr|].
  split; [reflexivity|].
  assert (V : forall l : list bytes,
    ~ In "LAYR"%string (map fst (map (pair "VMAD"%string) l))).
  { intros l Hin. rewrite map_map in Hin. apply in_map_iff in Hin.
    destruct Hin as (d & Hd & _). discriminate. }
  cbn [map fst]. rewrite !map_app. cbn [map fst].
  intros [Hin|[Hin|Hin]]; try discriminate.
  apply in_app_or in Hin. destruct Hin as [Hin|Hin]; [exact (V _ Hin)|].
  destruct Hin as [Hin|[Hin|Hin]]; try discriminate. exact (V _ Hin).
Qed.

Lemma layers_chunks_heads self lookup material_names idx ms css :
  layers_chunks bpy_data vector_eq bm_edges self lookup material_names idx ms
    = Ok css ->
  List.length css = List.length ms
  /\ forall k mesh, nth_error ms k = Some mesh ->
       exists name layr rest,
         dict_get lookup (Mesh.id mesh) = Ok name
         /\ generate_layr bpy_data name (idx + Z.of_nat k) = Ok layr
         /\ nth_error css k = Some (("LAYR"%string, layr) :: rest)
         /\ ~ In "LAYR"%string (map fst rest).
Proof using.
  revert idx css. induction ms as [|m ms IH]; intros idx css H.
  - injection H as <-. split; [reflexivity|]. intros [|k] mesh Hk; discriminate.
  - cbn [layers_chunks] in H. bind_step H cs Hcs. bind_step H css' Hcss.
    injection H as <-. apply IH in Hcss. destruct Hcss as [Hlen Hk].
    split; [cbn; congruence|]. intros [|k] mesh Hm.
    + injection Hm as <-. apply layer_chunks_head in Hcs.
      destruct Hcs as (name & layr & rest & Hn & Hl & -> & Hr).
      exists name, layr, rest. rewrite Z.add_0_r. auto.
    + cbn [nth_error] in Hm |- *. destruct (Hk k mesh Hm) as (name & layr & rest & Hn & Hl & Hc & Hr).
      exists name, layr, rest. replace (idx + Z.of_nat (S k)) with (idx + 1 + Z.of_nat k) by lia.
      auto.
Qed.

Lemma write_combined self lookup filename obj rest files :
  option_batch self = false ->
  write_objects bpy_data vector_eq bm_edges os_path_dirname os_sep lower
    self lookup filename (obj :: rest) = Ok files ->
  exists self' outfile,
    write_object bpy_data vector_eq bm_edges os_path_dirname os_sep lower
      self lookup filename obj = Ok (self', combined_name lower filename, outfile)
    /\ files = [(combined_name lower filename, outfile)].
Proof.
  intros Hb H. cbn [write_objects] in H. bind_step H r Hr.
  destruct r as [[self' filename'] outfile].
  pose proof Hr as Hname. apply write_object_name in Hname.
  destruct Hname as [Hb' Hf].
  rewrite Hb', Hb in H. cbn [negb] in H. injection H as <-.
  exists self', outfile. rewrite Hr.
  assert (E : filename' = combined_name lower filename).
  { rewrite Hf. unfold output_filename, combined_name. rewrite Hb.
    destruct (endswith _ _); reflexivity. }
  rewrite E. auto.
Qed.

(** X16: without batch mode an export of one or more objects writes
    exactly one file, whatever the number of objects: its name is the path
    that was chosen, with '.lwo' appended unless the path, in lower case,
    ends with it.  The file has one layer for each object, in the order of
    the objects: each layer starts with a LAYR chunk and has no other, and
    the LAYR chunk of the k-th layer carries the number k; when the objects
    have distinct meshes it is the layer chunk of the k-th object's name. *)
Theorem combined_export self filename objdups files :
  option_batch self = false ->
  objdups <> [] ->
  write bpy_data vector_eq bm_edges os_path_dirname os_sep lower
    self filename objdups = Ok files ->
  exists outfile tb css ss,
    files = [(combined_name lower filename, outfile)]
    /\ skipn 12 outfile = flat_map chunk_bytes (file_chunks tb css ss)
    /\ List.length css = List.length objdups
    /\ (forall k cs, nth_error css k = Some cs ->
          exists layr rest,
            cs = ("LAYR"%string, layr) :: rest
            /\ firstn 2 layr = big_endian 2 (Z.of_nat k)
            /\ ~ In "LAYR"%string (map fst rest))
    /\ (NoDup (map (fun obj => Mesh.id (data obj)) objdups) ->
        forall k obj, nth_error objdups k = Some obj ->
          exists layr rest,
            nth_error css k = Some (("LAYR"%string, layr) :: rest)
            /\ generate_layr bpy_data (orig_name obj) (Z.of_nat k) = Ok layr).
Proof.
  intros Hb Hne H. destruct objdups as [|obj rest]; [congruence|].
  unfold write in H. rewrite Hb in H. fold (name_lookup (obj :: rest) []) in H.
  apply write_combined in H; [|exact Hb].
  destruct H as (self' & outfile & H & ->).
  apply write_object_inv in H. destruct H as (tags & st & Hg & Hw).
  unfold turn_self in Hg. cbn [option_batch set_meshes] in Hg. rewrite Hb in Hg.
  apply generate_chunks_layout in Hg.
  destruct Hg as (mm & names & css & _ & _ & -> & Hcss & Hch & Hmd & F & _).
  eapply write_file_ok in Hw; eauto. destruct Hw as (tb & -> & _ & -> & _).
  apply layers_chunks_heads in Hcss. cbn [meshes set_meshes] in Hcss.
  destruct Hcss as [Hlen Hk]. rewrite length_map in Hlen.
  exists ((lit "FORM" ++ big_endian 4 (form_size (chunks st)) ++ lit "LWO2")
          ++ flat_map chunk_bytes (file_chunks tb css (surfs st))),
         tb, css, (surfs st).
  split; [reflexivity|]. split.
  { apply skipn_prefix. rewrite !length_app, big_endian_length. reflexivity. }
  split; [exact Hlen|]. split.
  - intros k cs Hcs.
    assert (Hlt : (k < List.length (map data (obj :: rest)))%nat).
    { rewrite length_map, <- Hlen. apply nth_error_Some. congruence. }
    destruct (nth_error (map data (obj :: rest)) k) as [mesh|] eqn:Em;
      [|apply nth_error_None in Em; lia].
    destruct (Hk k mesh Em) as (name & layr & rest' & _ & Hl & Hc & Hr).
    rewrite Hcs in Hc. injection Hc as ->. exists layr, rest'.
    split; [reflexivity|]. split; [|exact Hr].
    apply generate_layr_ok in Hl. destruct Hl as (o & _ & _ & ->).
    apply firstn_prefix, big_endian_length.
  - intros Hnd k o Ho.
    assert (Em : nth_error (map data (obj :: rest)) k = Some (data o))
      by (rewrite nth_error_map, Ho; reflexivity).
    destruct (Hk k (data o) Em) as (name & layr & rest' & Hn & Hl & Hc & _).
    rewrite name_lookup_get in Hn; [|exact Hnd | eapply nth_error_In, Ho].
    injection Hn as <-. exists layr, rest'. auto.
Qed.

(** *** Batch exports *)

Lemma for_each_ext_in {A S} (l : list A) (f g : A -> S -> result S) (s : S) :
  (forall x s, In x l -> f x s = g x s) -> for_each l f s = for_each l g s.
Proof.
  revert s. induction l as [|x l IH]; intros s H; [reflexivity|].
  cbn [for_each]. rewrite (H x s) by (left; reflexivity).
  destruct (g x s) as [s'|e]; [|reflexivity]. cbn [bind].
  apply IH. intros y s0 Hy. apply H. right. exact Hy.
Qed.

Lemma getattr_name_same (a b : LwoExport) (attr : string) :
  same_options a b -> getattr_name a attr = getattr_name b attr.
Proof.
  intros (Hf & Hs & _). unfold getattr_name, LwoExport_names.
  rewrite Hf, Hs. reflexivity.
Qed.

Lemma get_used_material_names_same (a b : LwoExport) :
  same_options a b -> meshes a = meshes b ->
  get_used_material_names a = get_used_material_names b.
Proof.
  intros Ho Hm. unfold get_used_material_names. rewrite Hm.
  erewrite for_each_ext_in; [reflexivity|].
  intros mesh [matnames matmeshes] _. cbv beta iota.
  rewrite !(getattr_name_same _ Ho). reflexivity.
Qed.

Lemma set_clips_same (a b : LwoExport) (cs : list bytes) :
  same_options a b -> meshes a = meshes b -> set_clips a cs = set_clips b cs.
Proof.
  intros (Hf & Hs & Hd & Hb & Hc) Hm. unfold set_clips.
  rewrite Hf, Hs, Hd, Hb, Hc, Hm. reflexivity.
Qed.

(** a layer depends on the name table through the name of its mesh only *)
Lemma write_mesh_lookup self l1 l2 matmeshes material_names mesh st :
  dict_get l1 (Mesh.id mesh) = dict_get l2 (Mesh.id mesh) ->
  write_mesh bpy_data vector_eq bm_edges self l1 matmeshes material_names mesh st
  = write_mesh bpy_data vector_eq bm_edges self l2 matmeshes material_names mesh st.
Proof using.
  intros H. unfold write_mesh. rewrite H. reflexivity.
Qed.

(** the chunks of a file depend on the options, the meshes and the names
    of the meshes, and on nothing else *)
Lemma generate_chunks_same (a b : LwoExport) (l1 l2 : dict str) :
  same_options a b -> meshes a = meshes b ->
  (forall mesh, In mesh (meshes b) ->
     dict_get l1 (Mesh.id mesh) = dict_get l2 (Mesh.id mesh)) ->
  generate_chunks bpy_data vector_eq bm_edges a l1
  = generate_chunks bpy_data vector_eq bm_edges b l2.
Proof using.
  intros Ho Hm Hl. unfold generate_chunks.
  rewrite (get_used_material_names_same Ho Hm).
  destruct (get_used_material_names b) as [[mm names]|e]; [|reflexivity].
  cbn [bind]. destruct (generate_tags names) as [tags|e]; [|reflexivity].
  cbn [bind]. rewrite (set_clips_same [] Ho Hm).
  erewrite for_each_ext_in; [reflexivity|].
  intros mesh st Hin. apply write_mesh_lookup. apply Hl. exact Hin.
Qed.

Lemma same_options_refl (a : LwoExport) : same_options a a.
Proof. repeat split. Qed.

Lemma same_options_trans (a b c : LwoExport) :
  same_options a b -> same_options b c -> same_options a c.
Proof.
  intros (A1 & A2 & A3 & A4 & A5) (B1 & B2 & B3 & B4 & B5).
  repeat split; congruence.
Qed.

(** a turn of the batch loop writes what the export of its object alone
    writes *)
Lemma write_object_alone self selfk lookup filenamek obj self' filename' outfile :
  option_batch self = true ->
  same_options selfk self ->
  dict_get lookup (Mesh.id (data obj)) = Ok (orig_name obj) ->
  write_object bpy_data vector_eq bm_edges os_path_dirname os_sep lower
    selfk lookup filenamek obj = Ok (self', filename', outfile) ->
  same_options self' self
  /\ forall filename,
       write bpy_data vector_eq bm_edges os_path_dirname os_sep lower
         self filename [obj]
       = Ok [(batch_name os_path_dirname os_sep lower filename obj, outfile)].
Proof.
  intros Hb Ho Hl H.
  assert (Hbk : option_batch selfk = true) by (destruct Ho as (_ & _ & _ & -> & _); exact Hb).
  unfold write_object in H. rewrite Hbk in H.
  bind_step H r Hg. destruct r as [[self1 tags] st].
  bind_step H out Hw. injection H as <- _ <-.
  pose proof Hg as E1. apply generate_chunks_options in E1.
  assert (Ho1 : same_options self1 self).
  { rewrite E1. apply same_options_trans with selfk; [|exact Ho]. repeat split. }
  split; [exact Ho1|]. intros filename.
  unfold write. rewrite Hb. cbn [write_objects]. unfold write_object.
  cbn [option_batch set_meshes]. rewrite Hb.
  rewrite (@generate_chunks_same _ (set_meshes selfk [data obj]) _ lookup).
  - rewrite Hg. cbn [bind]. rewrite Hw. cbn [bind].
    destruct Ho1 as (_ & _ & _ & Hb1 & _). rewrite Hb1, Hb. cbn [negb bind].
    rewrite output_filename_batch by congruence. reflexivity.
  - destruct Ho as (A1 & A2 & A3 & A4 & A5). repeat split; cbn; congruence.
  - reflexivity.
  - cbn [meshes set_meshes]. intros mesh [<-|[]]. rewrite Hl.
    cbn. rewrite Z.eqb_refl. reflexivity.
Qed.

Lemma batch_turns self lookup rest : forall selfk filenamek files,
  option_batch self = true ->
  same_options selfk self ->
  (forall obj, In obj rest ->
     dict_get lookup (Mesh.id (data obj)) = Ok (orig_name obj)) ->
  write_objects bpy_data vector_eq bm_edges os_path_dirname os_sep lower
    selfk lookup filenamek rest = Ok files ->
  Forall2 (fun obj f =>
             forall filename,
               write bpy_data vector_eq bm_edges os_path_dirname os_sep lower
                 self filename [obj]
               = Ok [(batch_name os_path_dirname os_sep lower filename obj, snd f)])
    rest files.
Proof.
  induction rest as [|obj rest IH]; intros selfk filenamek files Hb Ho Hl H.
  - injection H as <-. constructor.
  - cbn [write_objects] in H. bind_step H r Hr.
    destruct r as [[self' filename'] outfile].
    destruct (@write_object_alone self selfk lookup filenamek obj self' filename'
                outfile Hb Ho (Hl obj (or_introl eq_refl)) Hr) as [Ho' Halone].
    assert (Hb' : option_batch self' = true)
      by (destruct Ho' as (_ & _ & _ & -> & _); exact Hb).
    rewrite Hb' in H. cbn [negb] in H.
    bind_step H files' Hrest. injection H as <-.
    constructor; [exact Halone|].
    apply (IH self' filename' files' Hb Ho'); [|exact Hrest].
    intros o Hin. apply Hl. right. exact Hin.
Qed.

(** X17: in batch mode, for objects with distinct meshes, one file is
    written for each object, and the bytes of the file of an object are the
    bytes that the batch export of that object alone writes: neither the
    other objects nor the place in the run leave a trace in it. *)
Theorem batch_files_independent self filename objdups files :
  option_batch self = true ->
  NoDup (map (fun obj => Mesh.id (data obj)) objdups) ->
  write bpy_data vector_eq bm_edges os_path_dirname os_sep lower
    self filename objdups = Ok files ->
  List.length files = List.length objdups
  /\ Forall2 (fun obj f =>
                forall filename,
                  write bpy_data vector_eq bm_edges os_path_dirname os_sep lower
                    self filename [obj]
                  = Ok [(batch_name os_path_dirname os_sep lower filename obj, snd f)])
       objdups files.
Proof.
  intros Hb Hnd H.
  assert (F : Forall2 (fun obj f =>
                forall filename,
                  write bpy_data vector_eq bm_edges os_path_dirname os_sep lower
                    self filename [obj]
                  = Ok [(batch_name os_path_dirname os_sep lower filename obj, snd f)])
       objdups files).
  { unfold write in H. rewrite Hb in H. fold (name_lookup objdups []) in H.
    eapply batch_turns; [exact Hb | | | exact H].
    - repeat split.
    - intros obj Hin. apply name_lookup_get; assumption. }
  split; [|exact F]. symmetry. eapply Forall2_length, F.
Qed.

(** *** What the polygon chunks require *)

(** a loop whose body only appends keeps what was written before *)
Lemma for_each_prefix {A B} (l : list A) (body : A -> list B -> result (list B))
    (d out : list B) :
  (forall x d d', body x d = Ok d' -> exists e, d' = d ++ e) ->
  for_each l body d = Ok out -> exists e, out = d ++ e.
Proof.
  intros Hb. revert d. induction l as [|x l IH]; intros d H.
  - injection H as <-. exists []. symmetry. apply app_nil_r.
  - cbn [for_each] in H. bind_step H d1 H1.
    apply Hb in H1. destruct H1 as (e1 & ->).
    apply IH in H. destruct H as (e2 & ->).
    exists (e1 ++ e2). symmetry. apply app_assoc.
Qed.

Lemma vx_bytes_len (i : Z) : 2 <= len (vx_bytes i) <= 4.
Proof.
  unfold len. rewrite vx_bytes_length. destruct (i <? 0xFF00); lia.
Qed.

(** one polygon of [generate_ptag] *)
Lemma ptag_entry (mesh : Mesh.t) (material_names : list str) (poly : MeshPolygon.t)
    (d d' : bytes) :
  (if truthy (Mesh.materials mesh) then
     slot <- getitem (Mesh.materials mesh) (MeshPolygon.material_index poly) ;;
     matname <- match slot with
                | Some material => Ok (Material.name material)
                | None => Raise AttributeError
                end ;;
     surfindex <- list_index str_eqb material_names matname ;;
     vx <- generate_vx (MeshPolygon.index poly) ;;
     si <- pack_H surfindex ;;
     Ok (d ++ vx ++ si)
   else
     vx <- generate_vx (MeshPolygon.index poly) ;;
     si <- pack_H 0 ;;
     Ok (d ++ vx ++ si)) = Ok d' ->
  (exists e, d' = d ++ e /\ 4 <= len e <= 6)
  /\ 0 <= MeshPolygon.index poly <= 0xFFFFFFFF
  /\ (Mesh.materials mesh <> [] ->
      exists material k,
        getitem (Mesh.materials mesh) (MeshPolygon.material_index poly)
        = Ok (Some material)
        /\ first_position material_names (Material.name material) k
        /\ k <= 0xFFFF).
Proof.
  intros H. destruct (Mesh.materials mesh) as [|s0 slots] eqn:Em; cbn [truthy] in H.
  - bind_step H vx Hvx. bind_step H si Hsi. injection H as <-.
    apply generate_vx_inv in Hvx. destruct Hvx as [Hr ->].
    injection Hsi as <-. split; [|split; [exact Hr | congruence]].
    eexists. split; [reflexivity|]. rewrite len_app.
    pose proof (vx_bytes_len (MeshPolygon.index poly)).
    assert (E : forall a b : byte, len [a; b] = 2) by reflexivity.
    rewrite E. lia.
  - bind_step H slot Hslot. bind_step H matname Hname.
    bind_step H surfindex Hidx. bind_step H vx Hvx. bind_step H si Hsi.
    injection H as <-.
    apply generate_vx_inv in Hvx. destruct Hvx as [Hr ->].
    apply pack_H_ok in Hsi. destruct Hsi as [Hk ->].
    split; [|split; [exact Hr|]].
    + eexists. split; [reflexivity|]. rewrite len_app.
      pose proof (vx_bytes_len (MeshPolygon.index poly)).
      assert (E : len (big_endian 2 surfindex) = 2)
        by (unfold len; rewrite big_endian_length; reflexivity).
      rewrite E. lia.
    + intros _. destruct slot as [material|]; [|discriminate].
      injection Hname as <-. exists material, surfindex.
      split; [exact Hslot|]. split; [apply list_index_first, Hidx | lia].
Qed.

(** X18: when [generate_ptag] returns, the payload starts with 'SURF'
    and holds from four to six bytes for each polygon; every polygon index
    fits 32 bits and, in a mesh with material slots, every polygon points
    at a filled slot whose material name is in the list of names, at a
    first position that fits 16 bits.  A polygon that points at an empty
    slot or beyond the slots therefore makes the export raise. *)
Theorem generate_ptag_requires (mesh : Mesh.t) (material_names : list str)
    (ptag : bytes) :
  generate_ptag mesh material_names = Ok ptag ->
  firstn 4 ptag = lit "SURF"
  /\ 4 + 4 * len (Mesh.polygons mesh) <= len ptag <= 4 + 6 * len (Mesh.polygons mesh)
  /\ Forall (fun poly =>
       0 <= MeshPolygon.index poly <= 0xFFFFFFFF
       /\ (Mesh.materials mesh <> [] ->
           exists material k,
             getitem (Mesh.materials mesh) (MeshPolygon.material_index poly)
             = Ok (Some material)
             /\ first_position material_names (Material.name material) k
             /\ k <= 0xFFFF))
     (Mesh.polygons mesh).
Proof.
  unfold generate_ptag. intros H.
  assert (Len : forall polys d out,
    for_each polys (fun poly data =>
      if truthy (Mesh.materials mesh) then
        slot <- getitem (Mesh.materials mesh) (MeshPolygon.material_index poly) ;;
        matname <- match slot with
                   | Some material => Ok (Material.name material)
                   | None => Raise AttributeError
                   end ;;
        surfindex <- list_index str_eqb material_names matname ;;
        vx <- generate_vx (MeshPolygon.index poly) ;;
        si <- pack_H surfindex ;;
        Ok (data ++ vx ++ si)
      else
        vx <- generate_vx (MeshPolygon.index poly) ;;
        si <- pack_H 0 ;;
        Ok (data ++ vx ++ si)) d = Ok out ->
    exists e, out = d ++ e /\ 4 * len polys <= len e <= 6 * len polys).
  { induction polys as [|poly polys IH]; intros d out Hl.
    - injection Hl as <-. exists []. rewrite app_nil_r. split; [reflexivity | cbn; lia].
    - cbn [for_each] in Hl. bind_step Hl d1 H1.
      apply ptag_entry in H1. destruct H1 as ((e1 & -> & L1) & _).
      apply IH in Hl. destruct Hl as (e2 & -> & L2).
      exists (e1 ++ e2). rewrite <- app_assoc. split; [reflexivity|].
      rewrite len_app, len_cons. lia. }
  pose proof (Len _ _ _ H) as (e & -> & L).
  split; [apply (firstn_prefix (lit "SURF") e eq_refl)|]. split.
  - rewrite len_app. change (len (lit "SURF")) with 4. lia.
  - apply for_each_ok_each in H. eapply Forall_impl; [|exact H]. cbv beta.
    intros poly (d & d' & Hb). apply ptag_entry in Hb. destruct Hb as (_ & Hr & Hs).
    auto.
Qed.

(** X19: when [generate_pols] returns, the payload starts with 'FACE'
    ('SUBD' in subpatch mode), no polygon has more than 65535 vertices,
    and every vertex index of a polygon and of an edge that no face uses
    lies between 0 and 2^32 - 1: a polygon or a loose edge outside these
    bounds makes the export raise. *)
Theorem generate_pols_requires (mesh : Mesh.t) (subd : bool) (pols : bytes) :
  generate_pols bm_edges mesh subd = Ok pols ->
  firstn 4 pols = lit (if subd then "SUBD" else "FACE")
  /\ Forall (fun p => len (MeshPolygon.vertices p) <= 0xFFFF
                      /\ Forall (fun v => 0 <= v <= 0xFFFFFFFF) (MeshPolygon.vertices p))
       (Mesh.polygons mesh)
  /\ Forall (fun e => 0 <= fst (BMEdge.verts e) <= 0xFFFFFFFF
                      /\ 0 <= snd (BMEdge.verts e) <= 0xFFFFFFFF)
       (filter loose (bm_edges mesh)).
Proof using.
  unfold generate_pols. intros H. bind_step H data Hd.
  split; [|split].
  - assert (P1 : exists e, data = (if subd then lit "SUBD" else lit "FACE") ++ e).
    { eapply for_each_prefix; [|exact Hd]. intros [i p] d d' Hb.
      bind_step Hb n Hn.
      eapply for_each_prefix in Hb.
      - destruct Hb as (e & ->). exists (n ++ e). symmetry. apply app_assoc.
      - intros j d0 d1 Hj. bind_step Hj vj Hv. bind_step Hj b Hb'.
        injection Hj as <-. eauto. }
    assert (P2 : exists e, pols = data ++ e).
    { eapply for_each_prefix; [|exact H]. intros e d d' Hb. cbv beta in Hb.
      destruct (len (BMEdge.link_faces e) =? 0).
      - bind_step Hb two H2. bind_step Hb v0 H0. bind_step Hb v1 H1.
        injection Hb as <-. eauto.
      - injection Hb as <-. exists []. symmetry. apply app_nil_r. }
    destruct P1 as (e1 & ->), P2 as (e2 & ->). rewrite <- app_assoc.
    destruct subd; apply firstn_prefix; reflexivity.
  - apply for_each_ok_each in Hd. apply Forall_forall. intros p Hp.
    assert (Hip : exists i, In (i, p) (enumerate (Mesh.polygons mesh))).
    { rewrite <- (enumerate_snd (Mesh.polygons mesh)) in Hp.
      apply in_map_iff in Hp. destruct Hp as ([i q] & Hq & Hin).
      cbn in Hq. subst q. eauto. }
    destruct Hip as (i & Hip). rewrite Forall_forall in Hd.
    destruct (Hd _ Hip) as (d & d' & Hb).
    bind_step Hb n Hn. apply pack_H_ok in Hn. destruct Hn as [Hn _].
    split; [lia|]. apply for_each_ok_each in Hb. rewrite Forall_forall in Hb.
    apply Forall_forall. intros v Hv.
    apply In_nth_error in Hv. destruct Hv as (j & Hj).
    assert (Hlt : (j < List.length (MeshPolygon.vertices p))%nat)
      by (apply nth_error_Some; congruence).
    destruct (Hb (Z.of_nat j)) as (d0 & d1 & Hbody).
    { apply (proj1 (in_rev _ _)), in_map_iff. exists j. split; [reflexivity|].
      apply in_seq. unfold len. lia. }
    bind_step Hbody vj Hvj. bind_step Hbody b Hvx.
    apply getitem_nth_error in Hvj. rewrite Hj in Hvj. injection Hvj as <-.
    apply generate_vx_inv in Hvx. apply Hvx.
  - apply for_each_ok_each in H. rewrite Forall_forall in H.
    apply Forall_forall. intros e He. apply filter_In in He. destruct He as [Hin Hl].
    destruct (H e Hin) as (d & d' & Hb). unfold loose in Hl. rewrite Hl in Hb.
    bind_step Hb two H2. bind_step Hb v0 H0. bind_step Hb v1 H1.
    apply generate_vx_inv in H0, H1. split; [apply H0 | apply H1].
Qed.

(** *** The order of the chunks in a file *)

Lemma for_each_grows {A B} (l : list A) (body : A -> list B -> result (list B))
    (s out : list B) :
  (forall x s s', body x s = Ok s' -> (List.length s' <= S (List.length s))%nat) ->
  for_each l body s = Ok out ->
  (List.length out <= List.length s + List.length l)%nat.
Proof.
  intros Hb. revert s. induction l as [|x l IH]; intros s H.
  - injection H as <-. cbn. lia.
  - cbn [for_each] in H. bind_step H s1 H1. apply Hb in H1. apply IH in H.
    cbn [List.length]. lia.
Qed.

(** at most one block for each colour layer, and for each UV layer *)
Lemma vertex_color_blocks (mesh : Mesh.t) (vcs : list bytes) :
  generate_vertex_colors mesh = Ok vcs ->
  (List.length vcs <= List.length (Mesh.vertex_colors mesh))%nat.
Proof.
  unfold generate_vertex_colors. intros H.
  apply for_each_grows in H; [exact H|].
  intros layer s s' Hb. bind_step Hb dim Hd. bind_step Hb nm Hn.
  bind_step Hb r Hr. destruct r as [dat found]. injection Hb as <-.
  unfold bytes in *.
  destruct found; [rewrite length_app; cbn [List.length]; lia | lia].
Qed.

Lemma uv_blocks (mesh : Mesh.t) (uvs : list bytes) :
  generate_vmad_uv vector_eq mesh = Ok uvs ->
  (List.length uvs <= List.length (Mesh.uv_layers mesh))%nat.
Proof using.
  unfold generate_vmad_uv. intros H.
  apply for_each_grows in H; [exact H|].
  intros l s s' Hb. bind_step Hb dim Hd. bind_step Hb nm Hn.
  bind_step Hb r Hr. destruct r as [dat found]. injection Hb as <-.
  unfold bytes in *.
  destruct found; [rewrite length_app; cbn [List.length]; lia | lia].
Qed.

Lemma tags_of_blocks (tag : string) (l : list bytes) :
  map fst (map (pair tag) l) = repeat tag (List.length l).
Proof. induction l as [|x l IH]; cbn; congruence. Qed.

Lemma layer_chunks_tags self lookup material_names idx mesh cs :
  layer_chunks bpy_data vector_eq bm_edges self lookup material_names idx mesh
    = Ok cs ->
  exists nc nu,
    map fst cs = layer_tags nc nu
    /\ (nc <= List.length (Mesh.vertex_colors mesh))%nat
    /\ (nu <= List.length (Mesh.uv_layers mesh))%nat.
Proof using.
  unfold layer_chunks. intros H.
  bind_step H name Hname. bind_step H layr Hlayr. bind_step H pnts Hpnts.
  bind_step H bbox Hbbox. bind_step H pols Hpols. bind_step H ptag Hptag.
  bind_step H uvs Huvs. bind_step H vcs Hvcs. injection H as <-.
  exists (List.length vcs), (List.length uvs). split; [|split].
  - unfold layer_tags. cbn [app map fst]. rewrite !map_app, !tags_of_blocks.
    cbn [app map fst]. rewrite tags_of_blocks. reflexivity.
  - destruct (truthy (Mesh.vertex_colors mesh)).
    + apply vertex_color_blocks, Hvcs.
    + injection Hvcs as <-. cbn. lia.
  - destruct (truthy (Mesh.uv_layers mesh)).
    + apply uv_blocks, Huvs.
    + injection Huvs as <-. cbn. lia.
Qed.

Lemma layers_chunks_tags self lookup material_names idx ms css :
  layers_chunks bpy_data vector_eq bm_edges self lookup material_names idx ms
    = Ok css ->
  Forall2 (fun mesh cs =>
             exists nc nu,
               map fst cs = layer_tags nc nu
               /\ (nc <= List.length (Mesh.vertex_colors mesh))%nat
               /\ (nu <= List.length (Mesh.uv_layers mesh))%nat) ms css.
Proof using.
  revert idx css. induction ms as [|mesh ms IH]; intros idx css H.
  - injection H as <-. constructor.
  - cbn [layers_chunks] in H. bind_step H cs Hcs. bind_step H css' Hcss.
    injection H as <-. constructor; [|eapply IH, Hcss].
    eapply layer_chunks_tags, Hcs.
Qed.

(** X20: the chunks of a file come in a fixed order: TAGS; then for
    each mesh of the file, in their order, LAYR, PNTS, BBOX, the VMAD
    blocks of its vertex colours (at most one for each colour layer), POLS,
    PTAG and the VMAD blocks of its UV coordinates (at most one for each
    UV layer); then the SURF chunks.  The points of a layer thus always
    precede the polygons that refer to them. *)
Theorem file_chunk_order self lookup filename obj self' filename' outfile :
  write_object bpy_data vector_eq bm_edges os_path_dirname os_sep lower
    self lookup filename obj = Ok (self', filename', outfile) ->
  exists (cs : list (string * bytes)) (layers : list (list (string * bytes)))
         (surfaces : nat),
    skipn 12 outfile = flat_map chunk_bytes cs
    /\ map fst cs
       = ["TAGS"%string] ++ List.concat (map (map fst) layers)
         ++ repeat "SURF"%string surfaces
    /\ Forall2 (fun mesh layer =>
         exists nc nu,
           map fst layer = layer_tags nc nu
           /\ (nc <= List.length (Mesh.vertex_colors mesh))%nat
           /\ (nu <= List.length (Mesh.uv_layers mesh))%nat)
       (meshes (turn_self self obj)) layers.
Proof.
  intros H. apply write_object_inv in H. destruct H as (tags & st & Hg & Hw).
  apply generate_chunks_layout in Hg.
  destruct Hg as (mm & names & css & _ & _ & -> & Hcss & Hch & Hmd & F & _).
  eapply write_file_ok in Hw; eauto. destruct Hw as (tb & -> & _ & -> & _).
  exists (file_chunks tb css (surfs st)), css, (List.length (surfs st)).
  split; [|split].
  - apply skipn_prefix. rewrite !length_app, big_endian_length. reflexivity.
  - unfold file_chunks. cbn [map fst app]. f_equal.
    rewrite map_app, concat_map, tags_of_blocks. reflexivity.
  - apply layers_chunks_tags in Hcss. exact Hcss.
Qed.

(** *** Even lengths *)

Lemma even_len_app (a b : bytes) : even_len a -> even_len b -> even_len (a ++ b).
Proof.
  unfold even_len. intros Ha Hb. rewrite len_app, Z.even_add, Ha, Hb. reflexivity.
Qed.

Lemma even_len_nil : even_len [].
Proof. reflexivity. Qed.

Lemma even_len_length (b : bytes) (k : nat) :
  List.length b = (2 * k)%nat -> even_len b.
Proof.
  intros H. unfold even_len, len. rewrite H, Nat2Z.inj_mul, Z.even_mul. reflexivity.
Qed.

(** a loop that appends pieces of even length appends an even length *)
Lemma for_each_even {A} (l : list A) (body : A -> bytes -> result bytes)
    (d out : bytes) :
  (forall x d d', In x l -> body x d = Ok d' -> exists e, d' = d ++ e /\ even_len e) ->
  for_each l body d = Ok out -> exists e, out = d ++ e /\ even_len e.
Proof.
  revert d. induction l as [|x l IH]; intros d Hb H.
  - injection H as <-. exists []. rewrite app_nil_r. split; [reflexivity | apply even_len_nil].
  - cbn [for_each] in H. bind_step H d1 H1.
    apply Hb in H1; [|left; reflexivity]. destruct H1 as (e1 & -> & E1).
    apply IH in H; [|intros y d0 d0' Hy; apply Hb; right; exact Hy].
    destruct H as (e2 & -> & E2). exists (e1 ++ e2). rewrite app_assoc.
    split; [reflexivity | apply even_len_app; assumption].
Qed.

(** the same for a loop that also keeps a flag *)
Lemma for_each_even_flag {A} (l : list A)
    (body : A -> bytes * bool -> result (bytes * bool)) (st st' : bytes * bool) :
  (forall x st st', In x l -> body x st = Ok st' ->
     exists e, fst st' = fst st ++ e /\ even_len e) ->
  for_each l body st = Ok st' -> exists e, fst st' = fst st ++ e /\ even_len e.
Proof.
  revert st. induction l as [|x l IH]; intros st Hb H.
  - injection H as <-. exists []. rewrite app_nil_r. split; [reflexivity | apply even_len_nil].
  - cbn [for_each] in H. bind_step H st1 H1.
    apply Hb in H1; [|left; reflexivity]. destruct H1 as (e1 & E1 & V1).
    apply IH in H; [|intros y s0 s0' Hy; apply Hb; right; exact Hy].
    destruct H as (e2 & E2 & V2). exists (e1 ++ e2). rewrite E2, E1, app_assoc.
    split; [reflexivity | apply even_len_app; assumption].
Qed.

(** a loop that keeps a property of a list it extends *)
Lemma for_each_forall {A B} (P : B -> Prop) (l : list A)
    (body : A -> list B -> result (list B)) (s out : list B) :
  (forall x s s', In x l -> body x s = Ok s' -> Forall P s -> Forall P s') ->
  for_each l body s = Ok out -> Forall P s -> Forall P out.
Proof.
  revert s. induction l as [|x l IH]; intros s Hb H F.
  - injection H as <-. exact F.
  - cbn [for_each] in H. bind_step H s1 H1.
    apply (IH s1); [intros y s0 s0' Hy; apply Hb; right; exact Hy | exact H |].
    eapply Hb; [left; reflexivity | exact H1 | exact F].
Qed.

Lemma generate_vx_even (i : Z) (b : bytes) : generate_vx i = Ok b -> even_len b.
Proof.
  intros H. apply generate_vx_inv in H. destruct H as [_ ->].
  pose proof (vx_bytes_length i) as L.
  destruct (i <? 0xFF00); [apply (even_len_length _ 1) | apply (even_len_length _ 2)];
    exact L.
Qed.

Lemma pack_floats_even (l : list float) (b : bytes) :
  pack_floats l = Ok b -> even_len b.
Proof.
  intros H. apply pack_floats_ok in H. destruct H as [_ ->].
  apply (even_len_length _ (2 * List.length l)). rewrite floats_length. lia.
Qed.

Lemma pack_H_even (x : Z) (b : bytes) : pack_H x = Ok b -> even_len b.
Proof.
  intros H. apply pack_H_ok in H. destruct H as [_ ->].
  apply (even_len_length _ 1), big_endian_length.
Qed.

Lemma f32_bytes_even (x : float) : even_len (f32_bytes x).
Proof. apply (even_len_length _ 2), f32_bytes_length. Qed.

Lemma utf8_ascii_length (s : str) :
  ascii_str s -> exists b, utf8 s = Ok b /\ len b = len s.
Proof.
  induction 1 as [|c s Hc _ (b & Hb & Hl)]; [exists []; auto|].
  cbn [utf8]. unfold utf8_char. destruct (Z.ltb_spec c 0x80); [|lia].
  cbn [bind]. rewrite Hb. cbn [bind app]. eexists. split; [reflexivity|].
  rewrite !len_cons, Hl. reflexivity.
Qed.

(** an ASCII name and its padding take an even number of bytes *)
Lemma name_bytes_even (s : str) : ascii_str s -> even_len (name_bytes s).
Proof.
  intros H. destruct (utf8_ascii_length H) as (b & Hb & Hl).
  unfold even_len, name_bytes. rewrite (utf8_of_ok _ Hb), len_app, Hl.
  unfold padding. rewrite Z.even_add.
  destruct (Z.even (len s)); reflexivity.
Qed.

Lemma ascii_normalized (s : str) : ascii_str s -> ascii_str (normalized_name s).
Proof.
  unfold ascii_str, normalized_name, replace. intros H.
  apply Forall_map, Forall_map. eapply Forall_impl; [|exact H]. cbv beta.
  intros c Hc. destruct (c =? 32); [reflexivity|]. destruct (c =? 46); [reflexivity | exact Hc].
Qed.

Lemma generate_pnts_even (self : LwoExport) (mesh : Mesh.t) (pnts : bytes) :
  generate_pnts self mesh = Ok pnts -> even_len pnts.
Proof.
  unfold generate_pnts. intros H. apply for_each_even in H.
  - destruct H as (e & -> & E). exact E.
  - intros [[x y] z] d d' _ Hb. bind_step Hb b Hp. injection Hb as <-.
    exists b. split; [reflexivity | eapply pack_floats_even, Hp].
Qed.

Lemma generate_bbox_even (self : LwoExport) (mesh : Mesh.t) (bbox : bytes) :
  generate_bbox self mesh = Ok bbox -> even_len bbox.
Proof.
  unfold generate_bbox. intros H. destruct (bbox_axes self mesh) as [[xx yy] zz].
  bind_step H x0 H0. bind_step H z0 H1. bind_step H y0 H2.
  bind_step H x1 H3. bind_step H z1 H4. bind_step H y1 H5.
  eapply pack_floats_even, H.
Qed.

Lemma generate_ptag_even (mesh : Mesh.t) (material_names : list str) (ptag : bytes) :
  generate_ptag mesh material_names = Ok ptag -> even_len ptag.
Proof.
  unfold generate_ptag. intros H. apply for_each_even in H.
  - destruct H as (e & -> & E). apply even_len_app; [reflexivity | exact E].
  - intros poly d d' _ Hb. cbv beta in Hb.
    destruct (truthy (Mesh.materials mesh)).
    + bind_step Hb slot Hslot. bind_step Hb matname Hname.
      bind_step Hb surfindex Hidx. bind_step Hb vx Hvx. bind_step Hb si Hsi.
      injection Hb as <-. exists (vx ++ si). split; [reflexivity|].
      apply even_len_app; [eapply generate_vx_even, Hvx | eapply pack_H_even, Hsi].
    + bind_step Hb vx Hvx. bind_step Hb si Hsi.
      injection Hb as <-. exists (vx ++ si). split; [reflexivity|].
      apply even_len_app; [eapply generate_vx_even, Hvx | eapply pack_H_even, Hsi].
Qed.

Lemma generate_pols_even (mesh : Mesh.t) (subd : bool) (pols : bytes) :
  generate_pols bm_edges mesh subd = Ok pols -> even_len pols.
Proof using.
  unfold generate_pols. intros H. bind_step H dat Hd.
  apply for_each_even in Hd.
  2:{ intros [i p] d d' _ Hb. bind_step Hb n Hn.
      apply for_each_even in Hb.
      - destruct Hb as (e & -> & E). exists (n ++ e). rewrite app_assoc.
        split; [reflexivity|]. apply even_len_app; [eapply pack_H_even, Hn | exact E].
      - intros j d0 d1 _ Hj. bind_step Hj vj Hv. bind_step Hj b Hb'.
        injection Hj as <-. exists b. split; [reflexivity | eapply generate_vx_even, Hb']. }
  apply for_each_even in H.
  2:{ intros e d d' _ Hb. cbv beta in Hb.
      destruct (len (BMEdge.link_faces e) =? 0).
      - bind_step Hb two H2. bind_step Hb v0 H0. bind_step Hb v1 H1.
        injection Hb as <-. exists (two ++ v0 ++ v1). split; [reflexivity|].
        apply even_len_app; [eapply pack_H_even, H2|].
        apply even_len_app; eapply generate_vx_even; eassumption.
      - injection Hb as <-. exists []. rewrite app_nil_r.
        split; [reflexivity | apply even_len_nil]. }
  destruct Hd as (e1 & -> & E1). destruct H as (e2 & -> & E2).
  apply even_len_app; [|exact E2]. apply even_len_app; [|exact E1].
  destruct subd; reflexivity.
Qed.

Lemma nstring_bytes_even (s : str) (b : bytes) :
  ascii_str s -> utf8 (generate_nstring s) = Ok b -> even_len b.
Proof.
  intros Ha H. apply name_bytes_ok in H. subst b. apply name_bytes_even, Ha.
Qed.

Lemma generate_vertex_colors_even (mesh : Mesh.t) (vcs : list bytes) :
  Forall (fun layer => ascii_str (MeshLoopColorLayer.name layer))
    (Mesh.vertex_colors mesh) ->
  generate_vertex_colors mesh = Ok vcs -> Forall even_len vcs.
Proof.
  unfold generate_vertex_colors. intros Fa H.
  eapply for_each_forall in H; [exact H | | constructor].
  intros layer s s' Hin Hb Fs. cbv beta in Hb.
  bind_step Hb dim Hd. bind_step Hb nm Hn. bind_step Hb r Hr.
  destruct r as [dat found]. injection Hb as <-.
  destruct found; [|exact Fs]. apply Forall_app. split; [exact Fs|].
  constructor; [|constructor].
  apply for_each_even_flag in Hr.
  - destruct Hr as (e & Hr & E). cbn [fst] in Hr. subst dat.
    apply even_len_app; [|exact E]. apply even_len_app; [reflexivity|].
    apply even_len_app; [eapply pack_H_even, Hd|].
    eapply nstring_bytes_even; [|exact Hn].
    rewrite Forall_forall in Fa. apply Fa, Hin.
  - intros [face_idx face] st st' _ Hp. apply for_each_even_flag in Hp; [exact Hp|].
    intros [vert_idx loop] [d f] [d' f'] _ Hc. cbn [fst].
    bind_step Hc c Hg. destruct c as [[[cr cg] cb] ca].
    bind_step Hc vx1 H1. bind_step Hc vx2 H2. bind_step Hc col H3.
    injection Hc as <- _. exists (vx1 ++ vx2 ++ col). split; [reflexivity|].
    apply even_len_app; [eapply generate_vx_even, H1|].
    apply even_len_app; [eapply generate_vx_even, H2 | eapply pack_floats_even, H3].
Qed.

Lemma generate_vmad_uv_even (mesh : Mesh.t) (uvs : list bytes) :
  Forall (fun l => ascii_str (MeshUVLoopLayer.name l)) (Mesh.uv_layers mesh) ->
  generate_vmad_uv vector_eq mesh = Ok uvs -> Forall even_len uvs.
Proof using.
  unfold generate_vmad_uv. intros Fa H.
  eapply for_each_forall in H; [exact H | | constructor].
  intros l s s' Hin Hb Fs. cbv beta zeta in Hb.
  bind_step Hb dim Hd. bind_step Hb nm Hn. bind_step Hb r Hr.
  destruct r as [dat found]. injection Hb as <-.
  destruct found; [|exact Fs]. apply Forall_app. split; [exact Fs|].
  constructor; [|constructor].
  apply for_each_even_flag in Hr.
  - destruct Hr as (e & Hr & E). cbn [fst] in Hr. subst dat.
    apply even_len_app; [|exact E]. apply even_len_app; [reflexivity|].
    apply even_len_app; [eapply pack_H_even, Hd|].
    eapply nstring_bytes_even; [|exact Hn].
    rewrite Forall_forall in Fa. apply Fa, Hin.
  - intros [i p] st st' _ Hp. apply for_each_even_flag in Hp; [exact Hp|].
    intros [v loop] [d f] [d' f'] _ Hc. cbn [fst]. unfold vmad_uv_corner in Hc.
    bind_step Hc pos Hpos. bind_step Hc prevl Hprev. bind_step Hc nextl Hnext.
    bind_step Hc youv Hyo. bind_step Hc prevuv Hpu. bind_step Hc skip Hskip.
    destruct skip.
    + injection Hc as <- _. exists []. rewrite app_nil_r.
      split; [reflexivity | apply even_len_nil].
    + bind_step Hc vx1 H1. bind_step Hc vx2 H2. bind_step Hc uv H3.
      injection Hc as <- _. exists (vx1 ++ vx2 ++ uv). split; [reflexivity|].
      apply even_len_app; [eapply generate_vx_even, H1|].
      apply even_len_app; [eapply generate_vx_even, H2 | eapply pack_floats_even, H3].
Qed.

Lemma generate_layr_even (name : str) (idx : Z) (layr : bytes) :
  ascii_str name -> generate_layr bpy_data name idx = Ok layr -> even_len layr.
Proof using.
  intros Ha H. apply generate_layr_ok in H. destruct H as (o & _ & _ & ->).
  apply even_len_app; [apply (even_len_length _ 1), big_endian_length|].
  apply even_len_app; [reflexivity|].
  repeat (apply even_len_app; [apply f32_bytes_even|]).
  apply name_bytes_even, ascii_normalized, Ha.
Qed.

Lemma subchunk_even (c : string * bytes) :
  List.length (lit (fst c)) = 4%nat -> even_len (snd c) -> even_len (subchunk_bytes c).
Proof.
  intros Ht Hd. unfold subchunk_bytes.
  apply even_len_app; [apply (even_len_length _ 2), Ht|].
  apply even_len_app; [apply (even_len_length _ 1), big_endian_length | exact Hd].
Qed.

Lemma flat_map_even {A} (f : A -> bytes) (l : list A) :
  Forall (fun x => even_len (f x)) l -> even_len (flat_map f l).
Proof.
  induction 1 as [|x l Hx _ IH]; [apply even_len_nil|].
  cbn [flat_map]. apply even_len_app; assumption.
Qed.

Lemma materials_get_in (name : str) (material : Material.t) :
  materials_get bpy_data name = Some material ->
  In material (BlendData.materials bpy_data).
Proof using.
  unfold materials_get. intros H. apply find_some in H. apply H.
Qed.

Lemma read_material_source (mesh : Mesh.t) (name : str) (material : Material.t) :
  sp_material (read_material bpy_data mesh name) = Some material ->
  In material (BlendData.materials bpy_data).
Proof using.
  unfold read_material.
  destruct (materials_get bpy_data name) as [m|] eqn:Em; [|discriminate].
  destruct (Material.shading m) as [sh|]; [|discriminate].
  destruct (Shading.specular_hardness sh - 4 <? 0); [discriminate|].
  cbn [sp_material]. intros H. injection H as <-. eapply materials_get_in, Em.
Qed.

Lemma generate_mesh_surface_even (mesh : Mesh.t) (name : str) (surf : bytes) :
  ascii_str name ->
  Forall (fun m => ascii_str (Material.vcmenu m)) (BlendData.materials bpy_data) ->
  generate_mesh_surface bpy_data mesh name = Ok surf -> even_len surf.
Proof using.
  intros Ha Fv H. apply generate_mesh_surface_ok in H. destruct H as [-> F].
  apply even_len_app; [apply name_bytes_even, Ha|].
  apply flat_map_even. unfold surface_subchunks. cbn [app].
  assert (E6 : forall (tag : string) (x : float),
    List.length (lit tag) = 4%nat ->
    even_len (subchunk_bytes (tag, f32_bytes x ++ [x00; x00]))).
  { intros tag x Ht. apply subchunk_even; [exact Ht|]. cbn [snd].
    apply even_len_app; [apply f32_bytes_even | reflexivity]. }
  apply Forall_cons; [reflexivity|].
  apply Forall_cons.
  { apply subchunk_even; [reflexivity|]. cbn [snd].
    repeat (apply even_len_app; [apply f32_bytes_even|]). reflexivity. }
  apply Forall_cons; [apply E6; reflexivity|].
  apply Forall_cons; [apply E6; reflexivity|].
  apply Forall_cons; [apply E6; reflexivity|].
  apply Forall_cons; [apply E6; reflexivity|].
  apply Forall_app. split.
  - destruct (sp_material (read_material bpy_data mesh name)) as [material|] eqn:Em;
      [|constructor].
    destruct (str_eqb _ _); constructor; [|constructor].
    apply subchunk_even; [reflexivity|]. cbn [snd].
    apply even_len_app; [apply f32_bytes_even|].
    apply (@even_len_app [x00; x00]
             (lit "RGBA" ++ name_bytes (Material.vcmenu material))); [reflexivity|].
    apply even_len_app; [reflexivity|].
    apply name_bytes_even. rewrite Forall_forall in Fv.
    eapply Fv, read_material_source, Em.
  - constructor; [|constructor]. apply subchunk_even; [reflexivity|].
    apply f32_bytes_even.
Qed.

Lemma dict_get_in {V} (d : dict V) (k : Z) (v : V) :
  dict_get d k = Ok v -> In v (map snd d).
Proof.
  induction d as [|[k' v'] d IH]; [discriminate|]. cbn [dict_get map snd].
  destruct (k' =? k); intros H.
  - injection H as <-. left. reflexivity.
  - right. apply IH, H.
Qed.

Lemma Forall2_in_r {A B} (P : A -> B -> Prop) (l1 : list A) (l2 : list B) (y : B) :
  Forall2 P l1 l2 -> In y l2 -> exists x, In x l1 /\ P x y.
Proof.
  intros F. induction F as [|a b l1 l2 Hab _ IH]; intros Hin; [contradiction|].
  destruct Hin as [->|Hin].
  - exists a. split; [left; reflexivity | exact Hab].
  - destruct (IH Hin) as (x & Hx & Hp). exists x. split; [right; exact Hx | exact Hp].
Qed.

Lemma tag_table_ascii (ms : list Mesh.t) :
  Forall ascii_mesh ms -> Forall ascii_str (tag_table ms).
Proof.
  intros F. apply Forall_forall. intros name Hin.
  unfold tag_table in Hin. apply in_flat_map in Hin. destruct Hin as (mesh & Hm & Hin).
  apply in_slot_names in Hin. destruct Hin as (material & Hs & <-).
  rewrite Forall_forall in F. destruct (F mesh Hm) as (Fm & _).
  rewrite Forall_forall in Fm. apply (Fm (Some material) Hs).
Qed.

Lemma layer_chunks_even self lookup material_names idx mesh cs :
  Forall ascii_str (map snd lookup) ->
  ascii_mesh mesh ->
  layer_chunks bpy_data vector_eq bm_edges self lookup material_names idx mesh
    = Ok cs ->
  Forall (fun c => even_len (snd c)) cs.
Proof using.
  intros Fl (_ & Fc & Fu). unfold layer_chunks. intros H.
  bind_step H name Hname. bind_step H layr Hlayr. bind_step H pnts Hpnts.
  bind_step H bbox Hbbox. bind_step H pols Hpols. bind_step H ptag Hptag.
  bind_step H uvs Huvs. bind_step H vcs Hvcs. injection H as <-.
  assert (Ev : Forall even_len vcs).
  { destruct (truthy (Mesh.vertex_colors mesh)).
    - eapply generate_vertex_colors_even; eassumption.
    - injection Hvcs as <-. constructor. }
  assert (Eu : Forall even_len uvs).
  { destruct (truthy (Mesh.uv_layers mesh)).
    - eapply generate_vmad_uv_even; eassumption.
    - injection Huvs as <-. constructor. }
  assert (V : forall l : list bytes, Forall even_len l ->
    Forall (fun c : string * bytes => even_len (snd c)) (map (pair "VMAD"%string) l)).
  { intros l Fl'. apply Forall_map. exact Fl'. }
  apply dict_get_in in Hname. rewrite Forall_forall in Fl.
  cbn [app].
  apply Forall_cons; [eapply generate_layr_even; [apply Fl, Hname | exact Hlayr]|].
  apply Forall_cons; [eapply generate_pnts_even, Hpnts|].
  apply Forall_cons; [eapply generate_bbox_even, Hbbox|].
  apply Forall_app. split; [apply V, Ev|].
  apply Forall_cons; [eapply generate_pols_even, Hpols|].
  apply Forall_cons; [eapply generate_ptag_even, Hptag|].
  apply V, Eu.
Qed.

Lemma layers_chunks_even self lookup material_names idx ms css :
  Forall ascii_str (map snd lookup) ->
  Forall ascii_mesh ms ->
  layers_chunks bpy_data vector_eq bm_edges self lookup material_names idx ms
    = Ok css ->
  Forall (fun c => even_len (snd c)) (List.concat css).
Proof using.
  intros Fl Fm. revert idx css. induction Fm as [|mesh ms Hm _ IH]; intros idx css H.
  - injection H as <-. constructor.
  - cbn [layers_chunks] in H. bind_step H cs Hcs. bind_step H css' Hcss.
    injection H as <-. cbn [List.concat]. apply Forall_app. split.
    + eapply layer_chunks_even; eassumption.
    + eapply IH, Hcss.
Qed.

Lemma chunk_bytes_even (c : string * bytes) :
  List.length (lit (fst c)) = 4%nat -> even_len (snd c) -> even_len (chunk_bytes c).
Proof.
  intros Ht Hd. unfold chunk_bytes.
  apply even_len_app; [apply (even_len_length _ 2), Ht|].
  apply even_len_app; [apply (even_len_length _ 2), big_endian_length | exact Hd].
Qed.

(** X21: when every name that goes into a file is ASCII (the names of
    the objects, of the materials in the slots of the meshes, of the colour
    and UV layers, and the colour maps the materials of [bpy.data] name),
    every chunk of the file has a payload of an even number of bytes, and
    so has the file: the exporter writes no pad bytes and needs none. *)
Theorem chunks_have_even_length self lookup filename obj self' filename' outfile :
  Forall ascii_str (map snd lookup) ->
  Forall ascii_mesh (meshes (turn_self self obj)) ->
  Forall (fun m => ascii_str (Material.vcmenu m)) (BlendData.materials bpy_data) ->
  write_object bpy_data vector_eq bm_edges os_path_dirname os_sep lower
    self lookup filename obj = Ok (self', filename', outfile) ->
  exists cs : list (string * bytes),
    skipn 12 outfile = flat_map chunk_bytes cs
    /\ Forall (fun c => Z.even (len (snd c)) = true) cs
    /\ Z.even (len outfile) = true.
Proof.
  intros Fl Fm Fv H. apply write_object_inv in H. destruct H as (tags & st & Hg & Hw).
  pose proof Hg as Fs. apply generate_chunks_surfs in Fs.
  apply generate_chunks_layout in Hg.
  destruct Hg as (mm & names & css & Hn & Ht & -> & Hcss & Hch & Hmd & F & _).
  apply get_used_material_names_inv in Hn. destruct Hn as (_ & _ & ->).
  eapply write_file_ok in Hw; eauto. destruct Hw as (tb & -> & _ & -> & Fa).
  apply generate_tags_bytes in Ht. destruct Ht as (_ & _ & ->).
  apply layers_chunks_even in Hcss; [|exact Fl | exact Fm].
  pose proof (tag_table_ascii Fm) as Fn.
  assert (Es : Forall even_len (surfs st)).
  { apply Forall_forall. intros surf Hin.
    eapply Forall2_in_r in Hin; [|exact Fs].
    destruct Hin as ([m name] & Hmn & Hs). cbn [fst snd] in Hs.
    apply generate_surface_ok in Hs. destruct Hs as [_ Hs].
    eapply generate_mesh_surface_even; [|exact Fv | exact Hs].
    apply in_flat_map in Hmn. destruct Hmn as (mesh & _ & Hmn).
    apply filter_In in Hmn. destruct Hmn as [Hmn _].
    rewrite <- combine_tags in Hmn. apply in_combine_r in Hmn.
    rewrite Forall_forall in Fn. apply Fn, Hmn. }
  assert (Ec : Forall (fun c : string * bytes => even_len (snd c))
                 (file_chunks (flat_map name_bytes (tag_table (meshes (turn_self self obj))))
                    css (surfs st))).
  { unfold file_chunks. constructor.
    - cbn [snd]. apply flat_map_even. eapply Forall_impl; [|exact Fn].
      apply name_bytes_even.
    - apply Forall_app. split; [exact Hcss|]. apply Forall_map. exact Es. }
  eexists. split; [|split; [exact Ec|]].
  - apply skipn_prefix. rewrite !length_app, big_endian_length. reflexivity.
  - apply even_len_app.
    + apply (even_len_length _ 6). rewrite !length_app, big_endian_length. reflexivity.
    + apply flat_map_even. rewrite Forall_forall in *. intros c Hc.
      apply chunk_bytes_even; [apply (Fa c Hc) | apply (Ec c Hc)].
Qed.

End SceneProperties.

(** ** Concrete runs

    The theorems above at work on the sample scenes, on the POSIX host. *)

Lemma batch_file_names_witness :
  exists files,
    posix_write (default_export true) (py "/tmp/scene.lwo") [red_object] = Ok files
    /\ map fst files = [py "/tmp/My Cube_001.lwo"].
Proof.
  destruct (posix_write (default_export true) (py "/tmp/scene.lwo") [red_object])
    as [files|e] eqn:E; [|vm_compute in E; discriminate].
  exists files. split; [reflexivity|].
  unfold posix_write, write in E.
  apply batch_file_names in E; [|reflexivity].
  destruct E as (E & _). rewrite E. vm_compute. reflexivity.
Defined.

(** C8, as stated, fails: the object "My Cube.001" is written in batch mode
    to "My Cube_001.lwo"; the space is not replaced. *)
Lemma batch_file_names_counterexample :
  exists files,
    posix_write (default_export true) (py "/tmp/scene.lwo") [red_object] = Ok files
    /\ map fst files = [py "/tmp/My Cube_001.lwo"]
    /\ map fst files
       <> [py "/tmp/" ++ normalized_name (orig_name red_object) ++ py ".lwo"].
Proof.
  eexists. split; [vm_compute; reflexivity|].
  split; [reflexivity | vm_compute; discriminate].
Qed.

Lemma header_size_law_witness :
  exists self' filename' outfile tags st,
    posix_write_object red_self red_lookup (py "/tmp/scene.lwo") red_object
      = Ok (self', filename', outfile)
    /\ generate_chunks cube_scene exact_vector_eq triangle_edges
         (turn_self red_self red_object) red_lookup = Ok (self', tags, st)
    /\ firstn 12 outfile
       = lit "FORM" ++ big_endian 4 (form_size (chunks st)) ++ lit "LWO2"
    /\ len outfile = form_size (chunks st) + 8.
Proof.
  destruct (posix_write_object red_self red_lookup (py "/tmp/scene.lwo") red_object)
    as [[[self' filename'] outfile]|e] eqn:E; [|vm_compute in E; discriminate].
  destruct (header_size_law cube_scene exact_vector_eq triangle_edges
              posix_dirname (py "/") ascii_lower red_self red_lookup
              (py "/tmp/scene.lwo") red_object) as [H _].
  destruct (H _ _ _ E) as (tags & st & Hg & _ & Hf & _ & Hl).
  exists self', filename', outfile, tags, st. auto.
Defined.

Lemma no_clip_chunk_witness :
  exists self' filename' outfile,
    posix_write_object red_self red_lookup (py "/tmp/scene.lwo") red_object
      = Ok (self', filename', outfile)
    /\ clips self' = [].
Proof.
  destruct (posix_write_object red_self red_lookup (py "/tmp/scene.lwo") red_object)
    as [[[self' filename'] outfile]|e] eqn:E; [|vm_compute in E; discriminate].
  exists self', filename', outfile. split; [reflexivity|].
  unfold posix_write_object in E. apply no_clip_chunk in E. exact (proj1 E).
Defined.

(** the file of the red triangle: 268 bytes, of which the header announces
    260 *)
Example red_triangle_file :
  exists outfile,
    posix_write (default_export false) (py "/tmp/scene.lwo") [red_object]
      = Ok [(py "/tmp/scene.lwo", outfile)]
    /\ len outfile = 268
    /\ firstn 12 outfile = lit "FORM" ++ [x00; x00; x01; x04] ++ lit "LWO2"
    /\ option_map (map fst) (read_chunks 9 (skipn 12 outfile))
       = Some (map lit ["TAGS"; "LAYR"; "PNTS"; "BBOX"; "POLS"; "PTAG"; "SURF"]%string).
Proof. eexists. split; [vm_compute; reflexivity|]. repeat split. Qed.

(** C1 (the code fails here): a mesh with no materials and no
    vertex-colour layers should be exported under the reserved default
    material.  The export of such a mesh raises instead: the attribute
    [LWO_DEFAULT_MATERIAL] that [get_used_material_names] reads is never
    assigned, and [generate_surface] calls [generate_default_surf] without
    the argument it requires. *)
Theorem default_material_export_raises :
  Mesh.materials (data bare_object) = []
  /\ Mesh.vertex_colors (data bare_object) = []
  /\ posix_write (default_export false) (py "/tmp/scene.lwo") [bare_object]
     = Raise AttributeError
  /\ posix_write (default_export true) (py "/tmp/scene.lwo") [bare_object]
     = Raise AttributeError
  /\ getattr_name (default_export false) "LWO_DEFAULT_MATERIAL" = Raise AttributeError
  /\ generate_surface cube_scene (default_export false) (data bare_object) DEFAULT_NAME
     = Raise TypeError.
Proof. repeat split. Qed.

Lemma ptag_surface_index_witness :
  generate_ptag (data red_object) [py "Red"]
  = Ok (lit "SURF" ++ [x00; x00] ++ [x00; x00]).
Proof.
  destruct (@ptag_surface_index cube_scene exact_vector_eq triangle_edges)
    as (H & _ & _).
  destruct (H red_self [data red_object] [py "Red"] (data red_object)) as [E _].
  - reflexivity.
  - left. reflexivity.
  - cbn. lia.
  - apply Forall_cons; [|apply Forall_nil]. split; [cbn; lia|].
    exists red. reflexivity.
  - rewrite E. reflexivity.
Defined.

Lemma generate_pols_layout_witness :
  generate_pols wired_edges (triangle [] []) false
  = Ok (lit "FACE"
        ++ [x00; x03] ++ [x00; x02] ++ [x00; x01] ++ [x00; x00]
        ++ [x00; x02] ++ [x00; x02] ++ [x00; x03]).
Proof.
  rewrite generate_pols_layout; [reflexivity | solve_forall | solve_forall].
Defined.

Lemma generate_bbox_block_witness :
  exists x0 z0 y0 x1 z1 y1,
    generate_bbox (default_export false) (triangle [] [])
    = Ok (flat_map f32_bytes [x0; z0; y0; x1; z1; y1]).
Proof.
  destruct (generate_pnts (default_export false) (triangle [] []))
    as [pnts|e] eqn:E; [|vm_compute in E; discriminate].
  destruct (generate_bbox_block (default_export false) (triangle [] []))
    as (x0 & z0 & y0 & x1 & z1 & y1 & _ & _ & _ & H & _).
  exists x0, z0, y0, x1, z1, y1. exact (H pnts E).
Defined.

(** the bounding box of the triangle: minima 0, 0, 0 and maxima 1, 0, 1, in
    the order x, z, y *)
Example triangle_bbox :
  generate_bbox (default_export false) (triangle [] [])
  = Ok (flat_map f32_bytes [0.0; 0.0; 0.0; 1.0; 0.0; 1.0]%float).
Proof. vm_compute. reflexivity. Qed.

Lemma uv_seam_entries_witness :
  generate_vmad_uv exact_vector_eq (triangle [] [flat_uv]) = Ok []
  /\ generate_vmad_uv exact_vector_eq (triangle [] [seam_uv])
     = Ok (uv_block exact_vector_eq seam_uv (triangle [] [seam_uv])).
Proof.
  split.
  - apply uv_seam_entries.
    + unfold uv_well_formed, triangle, triangle_polygon, flat_uv.
      cbn [Mesh.polygons Mesh.uv_layers MeshUVLoopLayer.data MeshUVLoopLayer.name
           MeshPolygon.vertices MeshPolygon.loop_start MeshPolygon.loop_total
           fst snd].
      solve_wf.
    + intros l p k [<-|[]] [<-|[]] Hk. cbn in Hk.
      assert (Hc : k = 0 \/ k = 1 \/ k = 2) by lia.
      destruct Hc as [->|[->| ->]]; vm_compute; reflexivity.
  - assert (W : uv_well_formed (triangle [] [seam_uv])).
    { unfold uv_well_formed, triangle, triangle_polygon, seam_uv.
      cbn [Mesh.polygons Mesh.uv_layers MeshUVLoopLayer.data MeshUVLoopLayer.name
           MeshPolygon.vertices MeshPolygon.loop_start MeshPolygon.loop_total
           fst snd].
      solve_wf. }
    rewrite (proj1 (@uv_seam_entries exact_vector_eq _ W)).
    cbn [flat_map Mesh.uv_layers triangle]. rewrite app_nil_r. reflexivity.
Defined.

(** moving the UV of one corner of the triangle brings up a block with an
    entry for each of its three corners *)
Example triangle_seam :
  generate_vmad_uv exact_vector_eq (triangle [] [flat_uv]) = Ok []
  /\ List.length (uv_entries exact_vector_eq seam_uv (triangle [] [seam_uv])) = 3%nat
  /\ exists block,
       generate_vmad_uv exact_vector_eq (triangle [] [seam_uv]) = Ok [block]
       /\ List.length block = 48%nat.
Proof.
  split; [vm_compute; reflexivity|]. split; [vm_compute; reflexivity|].
  eexists. split; vm_compute; reflexivity.
Qed.

(** *** Further runs of the model *)

(** the glossiness of the default surface, [round(50 / (255/2.0), 1)] *)
Example default_gloss :
  py_round1 (PrimFloat.div (float_of_Z 50) (PrimFloat.div (float_of_Z 255) 2.0%float))
  = 0.4%float.
Proof. vm_compute. reflexivity. Qed.

(** the default surface, had it been called with its argument: the reserved
    name and five sub-chunks, 84 bytes *)
Example default_surface :
  exists surf,
    generate_default_surf (default_export false) = Ok surf
    /\ firstn 16 surf = lit "Blender Default" ++ [x00]
    /\ List.length surf = 84%nat.
Proof. eexists. split; [vm_compute; reflexivity|]. split; reflexivity. Qed.

(** a name outside ASCII: one character, padded to two, is three bytes *)
Example non_ascii_name :
  len (generate_nstring [233]) = 2
  /\ utf8 (generate_nstring [233]) = Ok [xc3; xa9; x00].
Proof. split; reflexivity. Qed.

(** a coordinate that leaves the range of binary32 when scaled stops the
    export at the points of the mesh, before the bounding box *)
Example far_vertex :
  generate_pnts scaled_export far_mesh = Raise OverflowError
  /\ generate_bbox scaled_export far_mesh = Raise OverflowError.
Proof. split; vm_compute; reflexivity. Qed.

(** an empty material slot: no name for the Tag Table, which is then handed
    over as a [str], and the file cannot be written *)
Example empty_slot :
  posix_write (default_export true) (py "/tmp/scene.lwo")
    [ {| orig_name := py "My Cube.001";
         data := {| Mesh.id := 1; Mesh.vertices := []; Mesh.polygons := [];
                    Mesh.materials := [None]; Mesh.vertex_colors := [];
                    Mesh.uv_layers := []; Mesh.use_auto_smooth := false;
                    Mesh.auto_smooth_angle := 0.0%float |} |} ]
  = Raise TypeError.
Proof. vm_compute. reflexivity. Qed.


(** ** Further concrete runs *)

Lemma write_chunks_read_back_witness :
  read_chunks 3
    (flat_map chunk_bytes [("TAGS"%string, [x52; x00]); ("PNTS"%string, [])])
  = Some [(lit "TAGS", [x52; x00]); (lit "PNTS", [])].
Proof.
  destruct (@write_chunks_read_back
              [("TAGS"%string, [x52; x00]); ("PNTS"%string, [])]) as [H1 H2].
  { repeat constructor. }
  assert (F : Forall (fun c : string * bytes => len (snd c) <= 0xFFFFFFFF)
                [("TAGS"%string, [x52; x00]); ("PNTS"%string, [])])
    by (repeat constructor; cbn; lia).
  destruct (H1 _ (H2 F)) as (_ & R & _). exact R.
Defined.

Lemma generate_vx_prefix_free_witness :
  generate_vx (Z.lor 0xFF00 0xFF000000) = Ok [xff; x00; xff; x00]
  /\ Z.lor 0xFF00 0xFF000000 <> 0xFF00.
Proof.
  destruct (@generate_vx_prefix_free 0xFF00 0 [xff; x00; xff; x00] [x00; x00] [] [])
    as [_ H]; try reflexivity; try lia.
  apply H. lia.
Defined.

Lemma generate_vx_domain_witness :
  generate_vx (-1) = Raise StructError /\ exists b, generate_vx 0xFFFFFFFF = Ok b.
Proof.
  destruct (generate_vx_domain (-1)) as [_ H1].
  destruct (generate_vx_domain 0xFFFFFFFF) as [[_ H2] _].
  split; [apply H1; lia | apply H2; lia].
Defined.

Lemma encoded_name_length_witness :
  utf8 (generate_nstring (py "Red")) = Ok (lit "Red" ++ [x00])
  /\ Z.even (len (lit "Red" ++ [x00])) = true
  /\ utf8 (generate_nstring [233]) = Ok [xc3; xa9; x00]
  /\ Z.even (len [xc3; xa9; x00]) = false.
Proof.
  destruct (@encoded_name_length (py "Red") (lit "Red" ++ [x00]) eq_refl)
    as (_ & _ & _ & _ & Ha & _).
  destruct (@encoded_name_length [233] [xc3; xa9; x00] eq_refl)
    as (_ & _ & _ & _ & _ & Hb).
  split; [reflexivity|]. split; [apply Ha; repeat constructor|].
  split; [reflexivity|]. apply Hb. repeat constructor; lia.
Defined.

Lemma generate_tags_payload_witness :
  generate_tags [py "Red"; py "Gold"]
  = Ok (Bytes (lit "Red" ++ [x00] ++ lit "Gold" ++ [x00; x00])).
Proof.
  destruct (generate_tags_payload [py "Red"; py "Gold"]) as (_ & H & _).
  rewrite H; [reflexivity | discriminate |].
  repeat constructor; eexists; reflexivity.
Defined.

Lemma tags_payload_injective_witness :
  generate_tags [py "Red"; py "Gold"]
  = Ok (Bytes (lit "Red" ++ [x00] ++ lit "Gold" ++ [x00; x00]))
  /\ [py "Red"; py "Gold"] = [py "Red"; py "Gold"].
Proof.
  split; [reflexivity|].
  apply (@tags_payload_injective [py "Red"; py "Gold"] [py "Red"; py "Gold"]
           (lit "Red" ++ [x00] ++ lit "Gold" ++ [x00; x00]));
    try reflexivity; repeat constructor; cbn; lia.
Defined.

(** the points of the triangle, 36 bytes; a vertex too far out raises *)
Lemma generate_pnts_layout_witness :
  generate_pnts (default_export false) (triangle [] [])
  = Ok (flat_map (point_bytes 1.0%float) (Mesh.vertices (triangle [] [])))
  /\ generate_pnts scaled_export far_mesh = Raise OverflowError.
Proof.
  split.
  - rewrite (proj1 (generate_pnts_layout (default_export false) (triangle [] []))).
    vm_compute. reflexivity.
  - rewrite (proj1 (generate_pnts_layout scaled_export far_mesh)).
    vm_compute. reflexivity.
Defined.

Lemma generate_vertex_colors_layout_witness :
  generate_vertex_colors painted_triangle
  = Ok (color_block paint painted_triangle)
  /\ len (color_entries paint painted_triangle) = 3.
Proof.
  assert (W : colors_well_formed painted_triangle).
  { unfold colors_well_formed, painted_triangle, triangle_polygon, paint.
    cbn [Mesh.polygons Mesh.vertex_colors MeshLoopColorLayer.data
         MeshLoopColorLayer.name MeshPolygon.vertices MeshPolygon.loop_start
         MeshPolygon.loop_total fst snd].
    solve_wf. cbn [MeshLoopColorLayer.data]. solve_wf. }
  destruct (generate_vertex_colors_layout W) as (E & C & _).
  split; [|apply C]. rewrite E.
  cbn [flat_map Mesh.vertex_colors painted_triangle]. rewrite app_nil_r. reflexivity.
Defined.

(** the layer of the lamp post: number 1, pivot (1, 3, 2), and the name
    with its space replaced *)
Lemma generate_layr_layout_witness :
  generate_layr studio (py "Lamp Post") 1
  = Ok ([x00; x01] ++ [x00; x00]
        ++ f32_bytes 1.0%float ++ f32_bytes 3.0%float ++ f32_bytes 2.0%float
        ++ lit "Lamp_Post" ++ [x00])
  /\ generate_layr studio (py "Lamp") 0 = Raise AttributeError.
Proof.
  destruct (generate_layr_layout studio (py "Lamp Post") 1) as (_ & H & _).
  destruct (generate_layr_layout studio (py "Lamp") 0) as [N _].
  split; [|apply N; reflexivity].
  destruct (generate_layr studio (py "Lamp Post") 1) as [b|e] eqn:E;
    [|vm_compute in E; discriminate].
  destruct (H b eq_refl) as (o & Ho & _ & Hb & _).
  injection Ho as <-. rewrite Hb. vm_compute. reflexivity.
Defined.

Lemma surface_subchunks_read_back_witness :
  exists b,
    generate_mesh_surface studio painted_triangle (py "Gold") = Ok b
    /\ option_map (map fst) (read_subchunks 9 (skipn 6 b))
       = Some (map lit ["COLR"; "COLR"; "DIFF"; "LUMI"; "SPEC"; "GLOS";
                        "VCOL"; "SMAN"]%string).
Proof.
  destruct (generate_mesh_surface studio painted_triangle (py "Gold"))
    as [b|e] eqn:E; [|vm_compute in E; discriminate].
  exists b. split; [reflexivity|].
  destruct (surface_subchunks_read_back studio painted_triangle (py "Gold") E)
    as (_ & R & _).
  change (List.length (name_bytes (py "Gold"))) with 6%nat in R.
  change (S (List.length
               (surface_subchunks (read_material studio painted_triangle (py "Gold")))))
    with 9%nat in R.
  rewrite R. vm_compute. reflexivity.
Defined.

Lemma generate_mesh_surface_fallback_witness :
  generate_mesh_surface cube_scene (triangle [Some red] []) (py "Red")
  = Ok (lit "Red" ++ [x00] ++ fallback_body).
Proof.
  destruct (@generate_mesh_surface_fallback cube_scene (triangle [Some red] [])
              (py "Red")) as [E _].
  - eexists. reflexivity.
  - intros material sh Hm Hs. vm_compute in Hm. injection Hm as <-. discriminate.
  - rewrite E. reflexivity.
Defined.

Lemma used_material_names_witness :
  get_used_material_names red_self = Ok ([data red_object], [py "Red"])
  /\ get_used_material_names (set_meshes red_self [data bare_object])
     = Raise AttributeError.
Proof.
  destruct (used_material_names red_self) as (H & _).
  destruct (used_material_names (set_meshes red_self [data bare_object]))
    as (_ & R & _).
  split.
  - rewrite H; [reflexivity|]. repeat constructor. discriminate.
  - apply R. left. reflexivity.
Defined.

Lemma surfaces_follow_tags_witness :
  exists self' filename' outfile css ss,
    posix_write_object red_self red_lookup (py "/tmp/scene.lwo") red_object
      = Ok (self', filename', outfile)
    /\ skipn 12 outfile
       = flat_map chunk_bytes (file_chunks (lit "Red" ++ [x00]) css ss)
    /\ List.length ss = 1%nat.
Proof.
  destruct (posix_write_object red_self red_lookup (py "/tmp/scene.lwo") red_object)
    as [[[self' filename'] outfile]|e] eqn:E; [|vm_compute in E; discriminate].
  unfold posix_write_object in E.
  assert (Hnd : NoDup (map Mesh.id (meshes (turn_self red_self red_object))))
    by (repeat constructor; intros []).
  destruct (surfaces_follow_tags _ _ _ _ _ _ _ _ _ _ Hnd E) as (css & ss & Hs & Hl & _).
  exists self', filename', outfile, css, ss. auto.
Defined.

(** a material called 'Blender Default' stops the export *)
Lemma reserved_name_fails_witness :
  In (Some reserved) (Mesh.materials (data reserved_object))
  /\ posix_write_object (default_export true) red_lookup (py "/tmp/scene.lwo")
       reserved_object = Raise TypeError.
Proof.
  split; [left; reflexivity|].
  destruct (posix_write_object (default_export true) red_lookup (py "/tmp/scene.lwo")
              reserved_object) as [r|e] eqn:E.
  - exfalso. unfold posix_write_object in E. revert E.
    apply (@reserved_name_fails cube_scene exact_vector_eq triangle_edges
             posix_dirname (py "/") ascii_lower (default_export true) red_lookup
             (py "/tmp/scene.lwo") reserved_object (data reserved_object) reserved).
    + left. reflexivity.
    + left. reflexivity.
    + reflexivity.
  - vm_compute in E. injection E as <-. reflexivity.
Defined.

(** an object whose only material slot is empty *)
Lemma export_without_names_fails_witness :
  posix_write (default_export false) (py "/tmp/scene.lwo") [hollow_object]
  = Raise TypeError.
Proof.
  destruct (posix_write (default_export false) (py "/tmp/scene.lwo") [hollow_object])
    as [files|e] eqn:E.
  - exfalso. unfold posix_write in E. revert E.
    apply export_without_names_fails; [discriminate|].
    repeat constructor.
  - vm_compute in E. injection E as <-. reflexivity.
Defined.

(** the cube and the lamp post in one file: two layers *)
Lemma combined_export_witness :
  exists outfile tb css ss,
    studio_write (default_export false) (py "/tmp/scene") [red_object; lamp_object]
    = Ok [(py "/tmp/scene.lwo", outfile)]
    /\ skipn 12 outfile = flat_map chunk_bytes (file_chunks tb css ss)
    /\ List.length css = 2%nat.
Proof.
  destruct (studio_write (default_export false) (py "/tmp/scene")
              [red_object; lamp_object]) as [files|e] eqn:E;
    [|vm_compute in E; discriminate].
  unfold studio_write in E.
  apply combined_export in E; [|reflexivity | discriminate].
  destruct E as (outfile & tb & css & ss & -> & Hs & Hl & _).
  exists outfile, tb, css, ss. auto.
Defined.

(** the cube and the lamp post in batch mode: two files, each the file of
    its object alone *)
Lemma batch_files_independent_witness :
  exists cube lamp,
    studio_write (default_export true) (py "/tmp/scene.lwo") [red_object; lamp_object]
    = Ok [(py "/tmp/My Cube_001.lwo", cube); (py "/tmp/Lamp Post.lwo", lamp)]
    /\ studio_write (default_export true) (py "/home/scene.lwo") [lamp_object]
       = Ok [(py "/home/Lamp Post.lwo", lamp)].
Proof.
  destruct (studio_write (default_export true) (py "/tmp/scene.lwo")
              [red_object; lamp_object]) as [files|e] eqn:E;
    [|vm_compute in E; discriminate].
  pose proof E as F. unfold studio_write in F.
  apply batch_files_independent in F;
    [|reflexivity | repeat constructor; cbn; intuition discriminate].
  destruct F as [Hlen F].
  destruct files as [|[n1 cube] [|[n2 lamp] [|]]]; try discriminate.
  inversion F as [|? ? ? ? _ F1]; subst. inversion F1 as [|? ? ? ? Hlamp _]; subst.
  exists cube, lamp. split.
  - vm_compute in E. injection E as En1 _ En2 _.
    rewrite <- En1, <- En2. reflexivity.
  - unfold studio_write. rewrite (Hlamp (py "/home/scene.lwo")). reflexivity.
Defined.

Lemma generate_ptag_requires_witness :
  exists ptag,
    generate_ptag (data red_object) [py "Red"] = Ok ptag
    /\ firstn 4 ptag = lit "SURF"
    /\ 8 <= len ptag <= 10.
Proof.
  destruct (generate_ptag (data red_object) [py "Red"]) as [ptag|e] eqn:E;
    [|vm_compute in E; discriminate].
  exists ptag. split; [reflexivity|].
  destruct (generate_ptag_requires _ _ E) as (H4 & Hl & _).
  split; [exact H4 | exact Hl].
Defined.

Lemma generate_pols_requires_witness :
  exists pols,
    generate_pols wired_edges (triangle [] []) false = Ok pols
    /\ firstn 4 pols = lit "FACE".
Proof.
  destruct (generate_pols wired_edges (triangle [] []) false) as [pols|e] eqn:E;
    [|vm_compute in E; discriminate].
  exists pols. split; [reflexivity|].
  destruct (generate_pols_requires _ _ _ E) as (H4 & _). exact H4.
Defined.

(** the file of the red triangle: one layer without VMAD blocks *)
Lemma file_chunk_order_witness :
  exists self' filename' outfile cs surfaces,
    posix_write_object red_self red_lookup (py "/tmp/scene.lwo") red_object
      = Ok (self', filename', outfile)
    /\ skipn 12 outfile = flat_map chunk_bytes cs
    /\ map fst cs
       = ["TAGS"%string] ++ layer_tags 0 0 ++ repeat "SURF"%string surfaces.
Proof.
  destruct (posix_write_object red_self red_lookup (py "/tmp/scene.lwo") red_object)
    as [[[self' filename'] outfile]|e] eqn:E; [|vm_compute in E; discriminate].
  pose proof E as F. unfold posix_write_object in F. apply file_chunk_order in F.
  destruct F as (cs & layers & n & Hs & Ht & Hl).
  exists self', filename', outfile, cs, n. split; [reflexivity|]. split; [exact Hs|].
  rewrite Ht. clear Ht Hs E.
  inversion Hl as [|mesh layer ms ls (nc & nu & Htags & Hc & Hu) Hrest]; subst.
  inversion Hrest; subst. cbn [map List.concat]. rewrite Htags, app_nil_r.
  cbn [Mesh.vertex_colors Mesh.uv_layers data red_object triangle List.length] in Hc, Hu.
  replace nc with 0%nat by lia. replace nu with 0%nat by lia. reflexivity.
Defined.

(** the file of the red triangle is made of chunks of even length *)
Lemma chunks_have_even_length_witness :
  exists self' filename' outfile cs,
    posix_write_object red_self red_lookup (py "/tmp/scene.lwo") red_object
      = Ok (self', filename', outfile)
    /\ skipn 12 outfile = flat_map chunk_bytes cs
    /\ Forall (fun c : string * bytes => Z.even (len (snd c)) = true) cs
    /\ Z.even (len outfile) = true.
Proof.
  destruct (posix_write_object red_self red_lookup (py "/tmp/scene.lwo") red_object)
    as [[[self' filename'] outfile]|e] eqn:E; [|vm_compute in E; discriminate].
  pose proof E as F. unfold posix_write_object in F.
  apply chunks_have_even_length in F.
  - destruct F as (cs & Hs & Hc & Hl).
    exists self', filename', outfile, cs. auto.
  - repeat constructor.
  - repeat constructor.
  - repeat constructor.
Defined.
